(** * The n8n workflow visualizer ([lib/n8n_utils/visualization/visualizer.py])

    A shallow embedding of [WorkflowVisualizer] and of the entry points
    [visualize_workflow], [visualize_workflow_file] and [main], followed by
    the properties of the workflow-to-graph translation and of the rendering
    pipeline.

    Conventions.
    - A workflow document is a Python value as [json.load] produces it:
      [None], [bool], [int] (unbounded), [float] (an IEEE 754 value),
      [str], [list] and [dict] with string keys.  A [str] is a Rocq
      [string], one [ascii] per character.
    - A [dict] is an association list in insertion order with pairwise
      different keys; lookups take the first binding of a key.
    - Statements of the class run in a state-and-exception monad over the
      fields of [self]; an exception leaves the fields as they were mutated
      up to the point of the raise, as in Python.
    - [networkx.DiGraph] is modelled by its [_node] and [_adj] dictionaries
      ([_pred] mirrors [_adj] and is read by nothing here).  The plotting
      calls of [networkx] and [matplotlib] are recorded as events and may
      raise, as decided by a backend that is a parameter.
    - [os.path] is the POSIX one. *)

From Stdlib Require Import List String Ascii ZArith Bool Lia.
From Stdlib Require Import Floats.SpecFloat.
Import ListNotations.
Local Open Scope string_scope.
Local Open Scope list_scope.

Set Implicit Arguments.
Set Warnings "-register-all".

(* ================================================================== *)
(** * Python values *)

Inductive pyval : Type :=
| PNone
| PBool (b : bool)
| PInt (z : Z)
| PFloat (f : spec_float)
| PStr (s : string)
| PList (l : list pyval)
| PDict (d : list (string * pyval)).

(** The exceptions the modelled code can raise.  [KeyError] carries the
    missing key.  [NetworkXError], [OSError] and [JSONDecodeError] are only
    raised by the libraries and carry their message.  [OverflowError] is
    that of an [int] too large for a [float]. *)
Inductive pyexn : Type :=
| KeyError (k : pyval)
| TypeError
| AttributeError
| ValueError
| IndexError
| NetworkXError (msg : string)
| OSError (msg : string)
| JSONDecodeError (msg : string)
| OverflowError.

Inductive outcome (A : Type) : Type :=
| Return (a : A)
| Raise (e : pyexn).
Arguments Return {A} a.
Arguments Raise {A} e.

Definition obind {A B} (c : outcome A) (k : A -> outcome B) : outcome B :=
  match c with
  | Return a => k a
  | Raise e => Raise e
  end.

(* ------------------------------------------------------------------ *)
(** ** Insertion-ordered dictionaries *)

Section Dict.
Variables K V : Type.
Variable keq : K -> K -> bool.

Fixpoint dict_get (k : K) (d : list (K * V)) : option V :=
  match d with
  | [] => None
  | (k', v) :: r => if keq k k' then Some v else dict_get k r
  end.

Definition dict_mem (k : K) (d : list (K * V)) : bool :=
  match dict_get k d with Some _ => true | None => false end.

(** [d[k] = v]: an existing key keeps its place, a new key goes last. *)
Fixpoint dict_set (k : K) (v : V) (d : list (K * V)) : list (K * V) :=
  match d with
  | [] => [(k, v)]
  | (k', v') :: r =>
      if keq k k' then (k', v) :: r else (k', v') :: dict_set k v r
  end.

Definition dict_keys (d : list (K * V)) : list K := map fst d.
End Dict.

(** [d.update(upd)] on dictionaries with string keys. *)
Definition dict_update (d upd : list (string * pyval)) : list (string * pyval) :=
  fold_left (fun acc kv => dict_set String.eqb (fst kv) (snd kv) acc) upd d.

(* ------------------------------------------------------------------ *)
(** ** Hashing and equality of dictionary keys *)

Definition hashable (v : pyval) : bool :=
  match v with
  | PList _ | PDict _ => false
  | _ => true
  end.

(** Numbers as Python compares them: exactly, across [bool], [int] and
    [float].  A finite number is [m * 2^e]. *)
Inductive number : Type :=
| NFin (m e : Z)
| NInf (neg : bool)
| NNaN.

Definition number_of (v : pyval) : option number :=
  match v with
  | PBool b => Some (NFin (if b then 1 else 0) 0)
  | PInt z => Some (NFin z 0)
  | PFloat (S754_zero _) => Some (NFin 0 0)
  | PFloat (S754_infinity s) => Some (NInf s)
  | PFloat S754_nan => Some NNaN
  | PFloat (S754_finite s m e) =>
      Some (NFin (if s then Z.neg m else Z.pos m) e)
  | _ => None
  end.

(** [json] has one [NaN] object, so a [NaN] key is found by identity. *)
Definition number_eqb (a b : number) : bool :=
  match a, b with
  | NFin m1 e1, NFin m2 e2 =>
      let e := Z.min e1 e2 in
      (m1 * 2 ^ (e1 - e) =? m2 * 2 ^ (e2 - e))%Z
  | NInf s1, NInf s2 => Bool.eqb s1 s2
  | NNaN, NNaN => true
  | _, _ => false
  end.

Definition key_eqb (a b : pyval) : bool :=
  match a, b with
  | PNone, PNone => true
  | PStr s, PStr t => String.eqb s t
  | _, _ =>
      match number_of a, number_of b with
      | Some x, Some y => number_eqb x y
      | _, _ => false
      end
  end.

(* ------------------------------------------------------------------ *)
(** ** Primitive operations on values *)

(** [v.get(k, dflt)]: only a [dict] has the method. *)
Definition py_get (v : pyval) (k : string) (dflt : pyval) : outcome pyval :=
  match v with
  | PDict d =>
      Return (match dict_get String.eqb k d with Some x => x | None => dflt end)
  | _ => Raise AttributeError
  end.

(** [v[k]] for a string [k]. *)
Definition py_getitem_str (v : pyval) (k : string) : outcome pyval :=
  match v with
  | PDict d =>
      match dict_get String.eqb k d with
      | Some x => Return x
      | None => Raise (KeyError (PStr k))
      end
  | _ => Raise TypeError
  end.

(** [v[i]] for a non-negative integer [i]. *)
Definition py_getitem_int (v : pyval) (i : nat) : outcome pyval :=
  match v with
  | PList l =>
      match nth_error l i with
      | Some x => Return x
      | None => Raise IndexError
      end
  | PStr s =>
      match String.get i s with
      | Some c => Return (PStr (String c EmptyString))
      | None => Raise IndexError
      end
  | PDict _ => Raise (KeyError (PInt (Z.of_nat i)))
  | _ => Raise TypeError
  end.

(** [k in v] for a string [k]. *)
Definition py_contains_key (k : string) (v : pyval) : outcome bool :=
  match v with
  | PDict d => Return (dict_mem String.eqb k d)
  | PList l =>
      Return (existsb (fun x => match x with
                                | PStr s => String.eqb k s
                                | _ => false
                                end) l)
  | PStr s =>
      Return (match index 0 k s with Some _ => true | None => false end)
  | _ => Raise TypeError
  end.

Definition py_len (v : pyval) : outcome nat :=
  match v with
  | PList l => Return (List.length l)
  | PStr s => Return (String.length s)
  | PDict d => Return (List.length d)
  | _ => Raise TypeError
  end.

(** Unary minus. *)
Definition py_neg (v : pyval) : outcome pyval :=
  match v with
  | PBool b => Return (PInt (if b then -1 else 0))
  | PInt z => Return (PInt (- z))
  | PFloat f => Return (PFloat (SFopp f))
  | _ => Raise TypeError
  end.

Fixpoint chars (s : string) : list pyval :=
  match s with
  | EmptyString => []
  | String c r => PStr (String c EmptyString) :: chars r
  end.

(** The items a [for] loop over [v] visits. *)
Definition py_iter (v : pyval) : outcome (list pyval) :=
  match v with
  | PList l => Return l
  | PStr s => Return (chars s)
  | PDict d => Return (map (fun kv => PStr (fst kv)) d)
  | _ => Raise TypeError
  end.

(** [v.items()]. *)
Definition py_items (v : pyval) : outcome (list (string * pyval)) :=
  match v with
  | PDict d => Return d
  | _ => Raise AttributeError
  end.

(** [s.split(sep)] for a one-character separator. *)
Fixpoint str_split (sep : ascii) (s : string) : list string :=
  match s with
  | EmptyString => [EmptyString]
  | String c r =>
      if Ascii.eqb c sep then EmptyString :: str_split sep r
      else match str_split sep r with
           | h :: t => String c h :: t
           | [] => [String c EmptyString]
           end
  end.

Definition py_split (v : pyval) (sep : ascii) : outcome (list string) :=
  match v with
  | PStr s => Return (str_split sep s)
  | _ => Raise AttributeError
  end.

(** [l[-1]]. *)
Definition py_last {A} (l : list A) : outcome A :=
  match rev l with
  | x :: _ => Return x
  | [] => Raise IndexError
  end.

(* ================================================================== *)
(** * [networkx.DiGraph] *)

Definition attrs := list (string * pyval).

Record DiGraph : Type := mkDiGraph {
  _node : list (pyval * attrs);
  _adj : list (pyval * list (pyval * attrs))
}.

Definition empty_graph : DiGraph := mkDiGraph [] [].

Definition has_node (g : DiGraph) (n : pyval) : bool :=
  dict_mem key_eqb n (_adj g).

(** The check every graph method makes before it stores a new vertex. *)
Definition check_node (n : pyval) : outcome unit :=
  if negb (hashable n) then Raise TypeError
  else match n with
       | PNone => Raise ValueError
       | _ => Return tt
       end.

(** [G.add_node(n, **attr)]. *)
Definition add_node (g : DiGraph) (n : pyval) (attr : attrs) : outcome DiGraph :=
  if negb (hashable n) then Raise TypeError
  else if has_node g n then
    let old := match dict_get key_eqb n (_node g) with
               | Some a => a
               | None => []
               end in
    Return (mkDiGraph (dict_set key_eqb n (dict_update old attr) (_node g))
                      (_adj g))
  else
    obind (check_node n) (fun _ =>
    Return (mkDiGraph (dict_set key_eqb n (dict_update [] attr) (_node g))
                      (dict_set key_eqb n [] (_adj g)))).

(** The implicit vertex creation of [add_edge]. *)
Definition touch_node (g : DiGraph) (n : pyval) : outcome DiGraph :=
  if negb (hashable n) then Raise TypeError
  else if has_node g n then Return g
  else
    obind (check_node n) (fun _ =>
    Return (mkDiGraph (dict_set key_eqb n [] (_node g))
                      (dict_set key_eqb n [] (_adj g)))).

(** [G.add_edge(u, v, **attr)].  When the check of [v] raises, the vertex
    made for [u] is in the graph already. *)
Definition add_edge (g : DiGraph) (u v : pyval) (attr : attrs)
    : outcome unit * DiGraph :=
  match touch_node g u with
  | Raise e => (Raise e, g)
  | Return g1 =>
      match touch_node g1 v with
      | Raise e => (Raise e, g1)
      | Return g2 =>
          let nbrs := match dict_get key_eqb u (_adj g2) with
                      | Some l => l
                      | None => []
                      end in
          let datadict := match dict_get key_eqb v nbrs with
                          | Some a => a
                          | None => []
                          end in
          (Return tt,
           mkDiGraph (_node g2)
             (dict_set key_eqb u
                (dict_set key_eqb v (dict_update datadict attr) nbrs)
                (_adj g2)))
      end
  end.

(** [G.nodes(data=True)] and [G.edges(data=True)], in iteration order. *)
Definition nodes_data (g : DiGraph) : list (pyval * attrs) := _node g.

Definition edges_data (g : DiGraph) : list (pyval * pyval * attrs) :=
  flat_map (fun un => map (fun va => (fst un, fst va, snd va)) (snd un)) (_adj g).

Definition number_of_nodes (g : DiGraph) : nat := List.length (_node g).
Definition number_of_edges (g : DiGraph) : nat := List.length (edges_data g).

Definition node_attr (g : DiGraph) (n : pyval) (a : string) : option pyval :=
  match dict_get key_eqb n (_node g) with
  | Some d => dict_get String.eqb a d
  | None => None
  end.

Definition edge_data (g : DiGraph) (u v : pyval) : option attrs :=
  match dict_get key_eqb u (_adj g) with
  | Some nbrs => dict_get key_eqb v nbrs
  | None => None
  end.

Definition edge_attr (g : DiGraph) (u v : pyval) (a : string) : option pyval :=
  match edge_data g u v with
  | Some d => dict_get String.eqb a d
  | None => None
  end.

(* ================================================================== *)
(** * The state of a [WorkflowVisualizer] and its monad *)

Definition posmap := list (pyval * (pyval * pyval)).

Record Visualizer : Type := mkVisualizer {
  workflow : pyval;
  graph : DiGraph;
  pos : posmap
}.

(** [WorkflowVisualizer.__init__]. *)
Definition init (workflow_data : pyval) : Visualizer :=
  mkVisualizer workflow_data empty_graph [].

Definition type_colors : list (string * string) :=
  [ ("n8n-nodes-base.start", "#ff9a9c");
    ("n8n-nodes-base.httpRequest", "#a4c2f4");
    ("n8n-nodes-base.if", "#ffcc80");
    ("n8n-nodes-base.function", "#d5a6bd");
    ("n8n-nodes-base.set", "#b4a7d6");
    ("n8n-nodes-base.code", "#a2c4c9");
    ("n8n-nodes-base.moveBinaryData", "#b6d7a8");
    ("n8n-nodes-base.spreadsheetFile", "#f9cb9c");
    ("n8n-nodes-base.switch", "#ea9999");
    ("n8n-nodes-base.merge", "#9fc5e8");
    ("n8n-nodes-base.noOp", "#cccccc") ].

Section Monad.
Variable St : Type.

Definition M (A : Type) : Type := St -> outcome A * St.

Definition ret {A} (a : A) : M A := fun s => (Return a, s).
Definition raise {A} (e : pyexn) : M A := fun s => (Raise e, s).
Definition bind {A B} (c : M A) (k : A -> M B) : M B :=
  fun s => match c s with
           | (Return a, s') => k a s'
           | (Raise e, s') => (Raise e, s')
           end.
Definition lift {A} (c : outcome A) : M A := fun s => (c, s).
Definition get_state : M St := fun s => (Return s, s).
Definition put_state (s : St) : M unit := fun _ => (Return tt, s).

(** [for x in xs: body(x)]. *)
Fixpoint for_each {A} (xs : list A) (body : A -> M unit) : M unit :=
  match xs with
  | [] => ret tt
  | x :: r => bind (body x) (fun _ => for_each r body)
  end.
End Monad.

Arguments ret {St A} a _.
Arguments raise {St A} e _.
Arguments lift {St A} c _.
Arguments get_state {St} _.

Declare Scope py_scope.
Delimit Scope py_scope with py.
Notation "x <- c ;; k" := (bind c (fun x => k))
  (at level 61, c at next level, right associativity) : py_scope.
Notation "c ;; k" := (bind c (fun _ => k))
  (at level 61, right associativity) : py_scope.
Local Open Scope py_scope.

(* ================================================================== *)
(** * [WorkflowVisualizer.parse_workflow] *)

(** [self.graph.add_node(...)], [self.graph.add_edge(...)] and
    [self.pos[k] = xy] as statements. *)
Definition graph_add_node (n : pyval) (attr : attrs) : M Visualizer unit :=
  fun self =>
    match add_node (graph self) n attr with
    | Return g => (Return tt, mkVisualizer (workflow self) g (pos self))
    | Raise e => (Raise e, self)
    end.

Definition graph_add_edge (u v : pyval) (attr : attrs) : M Visualizer unit :=
  fun self =>
    match add_edge (graph self) u v attr with
    | (r, g) => (r, mkVisualizer (workflow self) g (pos self))
    end.

Definition pos_setitem (n : pyval) (xy : pyval * pyval) : M Visualizer unit :=
  fun self =>
    if hashable n then
      (Return tt,
       mkVisualizer (workflow self) (graph self) (dict_set key_eqb n xy (pos self)))
    else (Raise TypeError, self).

(** The body of the loop over the node records (lines 46 to 58). *)
Definition parse_node (node : pyval) : M Visualizer unit :=
  node_id <- lift (py_getitem_str node "id") ;;
  node_type <- lift (py_getitem_str node "type") ;;
  segs <- lift (py_split node_type ".") ;;
  dflt <- lift (py_last segs) ;;
  node_name <- lift (py_get node "name" (PStr dflt)) ;;
  params <- lift (py_get node "parameters" (PDict [])) ;;
  graph_add_node node_id
    [("label", node_name); ("type", node_type); ("parameters", params)] ;;
  has_pos <- lift (py_contains_key "position" node) ;;
  long_enough <-
    (if has_pos : bool then
       p <- lift (py_getitem_str node "position") ;;
       n <- lift (py_len p) ;;
       ret (2 <=? n)%nat
     else ret false) ;;
  if long_enough : bool then
    p0 <- lift (py_getitem_str node "position") ;;
    x <- lift (py_getitem_int p0 0) ;;
    p1 <- lift (py_getitem_str node "position") ;;
    y <- lift (py_getitem_int p1 1) ;;
    ny <- lift (py_neg y) ;;
    pos_setitem node_id (x, ny)
  else ret tt.

(** The body of the innermost loop over the connections (lines 65 to 67). *)
Definition parse_connection (source_node_id connection_type : string)
    (connection : pyval) : M Visualizer unit :=
  target_node_id <- lift (py_getitem_str connection "node") ;;
  graph_add_edge (PStr source_node_id) target_node_id
    [("connection_type", PStr connection_type)].

Definition parse_source (source_node_id : string) (source_connections : pyval)
    : M Visualizer unit :=
  cats <- lift (py_items source_connections) ;;
  for_each cats (fun cl =>
    conns <- lift (py_iter (snd cl)) ;;
    for_each conns (parse_connection source_node_id (fst cl))).

(** The first loop (lines 45 to 58) and the second (lines 62 to 67). *)
Definition parse_nodes (nodes : pyval) : M Visualizer unit :=
  node_list <- lift (py_iter nodes) ;;
  for_each node_list parse_node.

Definition parse_connections (connections : pyval) : M Visualizer unit :=
  srcs <- lift (py_items connections) ;;
  for_each srcs (fun sc => parse_source (fst sc) (snd sc)).

Definition parse_workflow : M Visualizer unit :=
  self <- get_state ;;
  nodes <- lift (py_get (workflow self) "nodes" (PList [])) ;;
  parse_nodes nodes ;;
  connections <- lift (py_get (workflow self) "connections" (PDict [])) ;;
  parse_connections connections.

(** [WorkflowVisualizer(workflow_data).parse_workflow()]. *)
Definition build (workflow_data : pyval) : outcome unit * Visualizer :=
  parse_workflow (init workflow_data).

(** [WorkflowVisualizer._get_node_color]. *)
Definition _get_node_color (node_type : pyval) : outcome string :=
  if negb (hashable node_type) then Raise TypeError
  else Return (match node_type with
               | PStr t =>
                   match dict_get String.eqb t type_colors with
                   | Some c => c
                   | None => "#cccccc"
                   end
               | _ => "#cccccc"
               end).

(* ================================================================== *)
(** * [os.path] (POSIX flavour) *)

(** [s.rfind(c)]: the index of the last [c] in [s], or [-1]. *)
Fixpoint rfind_from (i : nat) (c : ascii) (s : string) : option nat :=
  match s with
  | EmptyString => None
  | String a r =>
      match rfind_from (S i) c r with
      | Some j => Some j
      | None => if Ascii.eqb a c then Some i else None
      end
  end.

Definition rfind (c : ascii) (s : string) : Z :=
  match rfind_from 0 c s with
  | Some j => Z.of_nat j
  | None => (-1)%Z
  end.

(** [s[i:]] and [s[:i]] for [0 <= i]. *)
Definition str_from (i : Z) (s : string) : string :=
  substring (Z.to_nat i) (String.length s - Z.to_nat i) s.
Definition str_upto (i : Z) (s : string) : string :=
  substring 0 (Z.to_nat i) s.

Definition basename (p : string) : string :=
  str_from (rfind "/" p + 1) p.

(** The [while] loop of [genericpath._splitext]: is there a character other
    than the dot among the [n] characters of [p] from index [i] on? *)
Fixpoint has_non_dot (n : nat) (i : nat) (p : string) : bool :=
  match n with
  | O => false
  | S n' =>
      match String.get i p with
      | Some c => if Ascii.eqb c "." then has_non_dot n' (S i) p else true
      | None => true
      end
  end.

Definition splitext (p : string) : string * string :=
  let sepIndex := rfind "/" p in
  let dotIndex := rfind "." p in
  if (sepIndex <? dotIndex)%Z
     && has_non_dot (Z.to_nat (dotIndex - (sepIndex + 1)))
                    (Z.to_nat (sepIndex + 1)) p
  then (str_upto dotIndex p, str_from dotIndex p)
  else (p, EmptyString).

(** Truthiness of an [Optional[str]] argument. *)
Definition truthy (o : option string) : bool :=
  match o with
  | Some (String _ _) => true
  | _ => false
  end.

(* ================================================================== *)
(** * Rendering *)

(** The calls into [networkx], [matplotlib] and the console that a run
    makes, in order, the one that raised included.  [EvText x y s] is
    [plt.text(x, y, s, ...)], and [EvTitle s] is [plt.title(s, ...)]. *)
Inductive event : Type :=
| EvSpringLayout
| EvFigure
| EvDrawEdges
| EvDrawNode (node_id : pyval) (color : string)
| EvText (x y : pyval) (s : string)
| EvDrawLabels (labels : list (pyval * pyval))
| EvDrawEdgeLabels (edge_labels : list (pyval * pyval * pyval))
| EvTitle (s : string)
| EvAxisOff
| EvTightLayout
| EvSavefig (path : string)
| EvPrint (s : string)
| EvShow
| EvClose.

Record Runtime : Type := mkRuntime {
  self : Visualizer;
  trace : list event
}.

(** A method of the class, run inside a process that keeps a trace. *)
Definition on_self {A} (c : M Visualizer A) : M Runtime A :=
  fun rt =>
    match c (self rt) with
    | (r, v) => (r, mkRuntime v (trace rt))
    end.

Definition print (s : string) : M Runtime unit :=
  fun rt => (Return tt, mkRuntime (self rt) (trace rt ++ [EvPrint s])).

Section Rendering.
(** What the plotting libraries do is not part of the script: whether a
    call raises, the layout [nx.spring_layout] returns, the value of
    [y - 0.07] and [str(v)] of a value that is not a string. *)
Variable backend : Runtime -> event -> option pyexn.
Variable spring_layout : DiGraph -> posmap.
Variable sub_offset : pyval -> outcome pyval.
Variable str_other : pyval -> string.

Definition py_str (v : pyval) : string :=
  match v with
  | PStr s => s
  | _ => str_other v
  end.

Definition call (c : event) : M Runtime unit :=
  fun rt =>
    let rt' := mkRuntime (self rt) (trace rt ++ [c]) in
    match backend rt c with
    | Some e => (Raise e, rt')
    | None => (Return tt, rt')
    end.

(** [self.pos[node_id]]. *)
Definition pos_getitem (node_id : pyval) : M Runtime (pyval * pyval) :=
  fun rt =>
    match dict_get key_eqb node_id (pos (self rt)) with
    | Some xy => (Return xy, rt)
    | None => (Raise (KeyError node_id), rt)
    end.

Definition set_pos (p : posmap) : M Runtime unit :=
  fun rt =>
    (Return tt,
     mkRuntime (mkVisualizer (workflow (self rt)) (graph (self rt)) p) (trace rt)).

(** [WorkflowVisualizer._get_node_label].  It is called nowhere in the
    script.  Slicing a [dict] raises. *)
Definition _get_node_label (node_data : pyval) : outcome pyval :=
  obind (py_get node_data "label" (PStr "")) (fun label =>
  obind (py_len label) (fun n =>
    if (20 <? n)%nat then
      match label with
      | PStr s => Return (PStr (substring 0 18 s ++ "..."))
      | PList l => Return (PStr (py_str (PList (firstn 18 l)) ++ "..."))
      | _ => Raise TypeError
      end
    else Return label)).

(** The body of the loop that draws the vertices (lines 109 to 133). *)
Definition draw_node (nd : pyval * attrs) : M Runtime unit :=
  let node_id := fst nd in
  node_type <- lift (py_get (PDict (snd nd)) "type" (PStr "unknown")) ;;
  color <- lift (_get_node_color node_type) ;;
  call (EvDrawNode node_id color) ;;
  xy <- pos_getitem node_id ;;
  xy' <- pos_getitem node_id ;;
  y <- lift (sub_offset (snd xy')) ;;
  segs <- lift (py_split node_type ".") ;;
  s <- lift (py_last segs) ;;
  call (EvText (fst xy) y s).

(** [{n: d['label'] for n, d in self.graph.nodes(data=True)}]. *)
Fixpoint node_labels (nds : list (pyval * attrs)) : outcome (list (pyval * pyval)) :=
  match nds with
  | [] => Return []
  | (n, d) :: r =>
      obind (py_getitem_str (PDict d) "label") (fun l =>
      obind (node_labels r) (fun ls => Return ((n, l) :: ls)))
  end.

(** [{(u, v): d.get('connection_type', '') for u, v, d in ...}]. *)
Definition edge_labels_of (es : list (pyval * pyval * attrs))
    : list (pyval * pyval * pyval) :=
  map (fun e =>
         (fst e,
          match dict_get String.eqb "connection_type" (snd e) with
          | Some c => c
          | None => PStr ""
          end)) es.

(** Lines 88 to 90. *)
Definition draw_layout : M Runtime unit :=
  rt <- get_state ;;
  match pos (self rt) with
  | [] =>
      call EvSpringLayout ;;
      set_pos (spring_layout (graph (self rt)))
  | _ :: _ => ret tt
  end.

(** Lines 92 to 161. *)
Definition draw_canvas : M Runtime unit :=
  call EvFigure ;;
  call EvDrawEdges ;;
  rt <- get_state ;;
  for_each (nodes_data (graph (self rt))) draw_node ;;
  labels <- lift (node_labels (nodes_data (graph (self rt)))) ;;
  call (EvDrawLabels labels) ;;
  call (EvDrawEdgeLabels (edge_labels_of (edges_data (graph (self rt))))) ;;
  name <- lift (py_get (workflow (self rt)) "name" (PStr "Untitled")) ;;
  call (EvTitle ("Workflow: " ++ py_str name)) ;;
  call EvAxisOff ;;
  call EvTightLayout.

(** Lines 163 to 170. *)
Definition draw_output (output_file : option string) (show : bool)
    : M Runtime unit :=
  (match output_file with
   | Some (String c r) =>
       call (EvSavefig (String c r)) ;;
       print ("Workflow visualization saved to " ++ String c r)
   | _ => ret tt
   end) ;;
  (if show then call EvShow else call EvClose).

(** [WorkflowVisualizer.draw]. *)
Definition draw (output_file : option string) (show : bool) : M Runtime unit :=
  draw_layout ;;
  draw_canvas ;;
  draw_output output_file show.

(** [visualize_workflow]. *)
Definition visualize_workflow (workflow_data : pyval)
    (output_file : option string) (show : bool) : M (list event) unit :=
  fun tr =>
    match (on_self parse_workflow ;; draw output_file show)
            (mkRuntime (init workflow_data) tr) with
    | (r, rt) => (r, trace rt)
    end.

(** The file system: [os.path.exists], and [open] followed by
    [json.load]. *)
Variable path_exists : string -> bool.
Variable load_json : string -> outcome pyval.

(** [visualize_workflow_file]. *)
Definition visualize_workflow_file (workflow_file : string)
    (output_file : option string) (show : bool) : M (list event) unit :=
  workflow_data <- lift (load_json workflow_file) ;;
  let output_file' :=
    if negb (truthy output_file) && negb show then
      let base_name := fst (splitext (basename workflow_file)) in
      Some (base_name ++ "_visualization.png")%string
    else output_file in
  visualize_workflow workflow_data output_file' show.

(** The parsed command line: [args.workflow_file], [args.output] and
    [args.no_show]. *)
Record Args : Type := mkArgs {
  arg_workflow_file : string;
  arg_output : option string;
  arg_no_show : bool
}.

(** [str(e)] for the exception caught in [main]. *)
Variable str_exn : pyexn -> string.

(** [main] after [parser.parse_args()]: what is written and the exit
    status of the process. *)
Definition main (args : Args) : list event * Z :=
  if negb (path_exists (arg_workflow_file args)) then
    ([EvPrint ("Error: File '" ++ arg_workflow_file args ++ "' not found")%string],
     1%Z)
  else
    match visualize_workflow_file (arg_workflow_file args) (arg_output args)
            (negb (arg_no_show args)) [] with
    | (Return _, tr) => (tr, 0%Z)
    | (Raise e, tr) =>
        (tr ++ [EvPrint ("Error visualizing workflow: " ++ str_exn e)%string], 1%Z)
    end.
End Rendering.

(* ================================================================== *)
(** * Views of a document, of a graph and of a run *)

Unset Implicit Arguments.

(* ------------------------------------------------------------------ *)
(** ** Classes of keys *)

(** Keys fall into three classes; values of different classes never
    compare equal. *)
Inductive keyclass : Type :=
| KNone
| KNum (n : number)
| KStr (s : string).

Definition classify (v : pyval) : option keyclass :=
  match v with
  | PNone => Some KNone
  | PStr s => Some (KStr s)
  | PList _ | PDict _ => None
  | _ => option_map KNum (number_of v)
  end.

Definition class_eqb (x y : keyclass) : bool :=
  match x, y with
  | KNone, KNone => true
  | KNum a, KNum b => number_eqb a b
  | KStr s, KStr t => String.eqb s t
  | _, _ => false
  end.

(** No two keys of the list are equal as dictionary keys. *)
Fixpoint distinct_keys (l : list pyval) : bool :=
  match l with
  | [] => true
  | k :: r => forallb (fun k' => negb (key_eqb k' k)) r && distinct_keys r
  end.

(* ------------------------------------------------------------------ *)
(** ** Node records *)

(** [s.split('.')[-1]]. *)
Definition last_segment (s : string) : string :=
  match rev (str_split "." s) with
  | x :: _ => x
  | [] => EmptyString
  end.

Definition record_id (n : pyval) : option pyval :=
  match n with
  | PDict d => dict_get String.eqb "id" d
  | _ => None
  end.

(** The keyword arguments of the [add_node] call of a record. *)
Definition record_attrs (n : pyval) : option attrs :=
  match n with
  | PDict d =>
      match dict_get String.eqb "type" d with
      | Some (PStr ty) =>
          Some [ ("label", match dict_get String.eqb "name" d with
                           | Some nm => nm
                           | None => PStr (last_segment ty)
                           end);
                 ("type", PStr ty);
                 ("parameters", match dict_get String.eqb "parameters" d with
                                | Some p => p
                                | None => PDict []
                                end) ]
      | _ => None
      end
  | _ => None
  end.

(** Whether line 57 lets the record store a coordinate. *)
Definition has_position (n : pyval) : bool :=
  match n with
  | PDict d =>
      match dict_get String.eqb "position" d with
      | Some p =>
          match py_len p with
          | Return k => (2 <=? k)%nat
          | Raise _ => false
          end
      | None => false
      end
  | _ => false
  end.

(** The coordinate line 58 computes. *)
Definition record_xy (n : pyval) : outcome (pyval * pyval) :=
  obind (py_getitem_str n "position") (fun p =>
  obind (py_getitem_int p 0) (fun x =>
  obind (py_getitem_int p 1) (fun y =>
  obind (py_neg y) (fun ny => Return (x, ny))))).

(** The ids of the records, when every record has one. *)
Fixpoint record_ids (recs : list pyval) : option (list pyval) :=
  match recs with
  | [] => Some []
  | n :: r =>
      match record_id n, record_ids r with
      | Some i, Some l => Some (i :: l)
      | _, _ => None
      end
  end.

(** The key whose lookup fails first in a record without [id] or [type]. *)
Definition missing_key (d : list (string * pyval)) : string :=
  match dict_get String.eqb "id" d with
  | None => "id"
  | Some _ => "type"
  end.

(* ------------------------------------------------------------------ *)
(** ** Documents *)

(** The node records and the connections [parse_workflow] reads. *)
Definition document_nodes (w : pyval) : list pyval :=
  match py_get w "nodes" (PList []) with
  | Return ns => match py_iter ns with Return l => l | Raise _ => [] end
  | Raise _ => []
  end.

Definition document_connections (w : pyval) : pyval :=
  match py_get w "connections" (PDict []) with
  | Return c => c
  | Raise _ => PDict []
  end.

(* ------------------------------------------------------------------ *)
(** ** Connections *)

(** One connection of the document: the source id, the category and the
    element of the category's list. *)
Definition entry : Type := (string * string * pyval)%type.

Definition entries_of_source (s : string) (sc : pyval) : list entry :=
  match sc with
  | PDict cats =>
      flat_map (fun cl =>
                  match py_iter (snd cl) with
                  | Return conns => map (fun conn => (s, fst cl, conn)) conns
                  | Raise _ => []
                  end) cats
  | _ => []
  end.

(** The connections in the order the three nested loops visit them. *)
Definition connection_entries (connections : pyval) : list entry :=
  match connections with
  | PDict srcs => flat_map (fun sc => entries_of_source (fst sc) (snd sc)) srcs
  | _ => []
  end.

Definition parse_entry (e : entry) : M Visualizer unit :=
  parse_connection (fst (fst e)) (snd (fst e)) (snd e).

(** The target an entry names, if it names one. *)
Definition entry_target (e : entry) : option pyval :=
  match py_getitem_str (snd e) "node" with
  | Return t => Some t
  | Raise _ => None
  end.

(** Does the entry connect [s] to [t]? *)
Definition same_edge (s : string) (t : pyval) (e : entry) : bool :=
  String.eqb (fst (fst e)) s &&
  match entry_target e with
  | Some t' => key_eqb t' t
  | None => false
  end.

(* ------------------------------------------------------------------ *)
(** ** Graphs *)

(** [_node] and [_adj] of a graph have the same keys in the same order. *)
Definition wf_graph (g : DiGraph) : Prop :=
  dict_keys (_node g) = dict_keys (_adj g).

Definition vertex_keys (g : DiGraph) : list pyval := dict_keys (_node g).

(** Reading the neighbours of a vertex, absent ones included. *)
Definition nbrs_of (g : DiGraph) (u : pyval) : list (pyval * attrs) :=
  match dict_get key_eqb u (_adj g) with
  | Some nbrs => nbrs
  | None => []
  end.




(* ------------------------------------------------------------------ *)
(** ** Valid documents *)

(** A document as the data model has it: records with an [id] that can be
    a vertex, a string [type] and, if any, a [position] list whose second
    component is a number; connections from a source to categories to lists
    of records with a [node] that can be a vertex. *)
Definition valid_key (k : pyval) : bool :=
  hashable k && match k with PNone => false | _ => true end.

Definition numeric (y : pyval) : bool :=
  match y with
  | PBool _ | PInt _ | PFloat _ => true
  | _ => false
  end.

Definition valid_position (p : pyval) : bool :=
  match p with
  | PList (_ :: y :: _) => numeric y
  | PList _ => true
  | _ => false
  end.

Definition valid_record (n : pyval) : bool :=
  match n with
  | PDict r =>
      match dict_get String.eqb "id" r with
      | Some id => valid_key id
      | None => false
      end &&
      match dict_get String.eqb "type" r with
      | Some (PStr _) => true
      | _ => false
      end &&
      match dict_get String.eqb "position" r with
      | Some p => valid_position p
      | None => true
      end
  | _ => false
  end.

Definition valid_connection (c : pyval) : bool :=
  match c with
  | PDict r =>
      match dict_get String.eqb "node" r with
      | Some t => valid_key t
      | None => false
      end
  | _ => false
  end.

Definition valid_categories (sc : pyval) : bool :=
  match sc with
  | PDict cats =>
      forallb (fun cl => match snd cl with
                         | PList conns => forallb valid_connection conns
                         | _ => false
                         end) cats
  | _ => false
  end.

Definition valid_document (w : pyval) : bool :=
  match w with
  | PDict d =>
      match dict_get String.eqb "nodes" d with
      | None => true
      | Some (PList recs) => forallb valid_record recs
      | Some _ => false
      end &&
      match dict_get String.eqb "connections" d with
      | None => true
      | Some (PDict srcs) => forallb (fun sc => valid_categories (snd sc)) srcs
      | Some _ => false
      end
  | _ => false
  end.

(* ------------------------------------------------------------------ *)
(** ** Strings and paths *)

Fixpoint has_char (c : ascii) (s : string) : bool :=
  match s with
  | EmptyString => false
  | String a r => Ascii.eqb a c || has_char c r
  end.

(** [seg] is what follows the last [c] of [s], all of [s] when it has no
    [c]. *)
Definition after_last (c : ascii) (s seg : string) : Prop :=
  has_char c seg = false /\
  ((has_char c s = false /\ s = seg) \/
   exists pre, s = (pre ++ String c seg)%string).

(** The name [visualize_workflow_file] makes up for a file. *)
Definition default_output (workflow_file : string) : string :=
  fst (splitext (basename workflow_file)) ++ "_visualization.png".

(** [sub] occurs in [s]. *)
Definition contains (s sub : string) : Prop :=
  exists a b, s = (a ++ sub ++ b)%string.

(* ------------------------------------------------------------------ *)
(** ** Runs of [draw] *)

(** The calls of lines 92 to 161. *)
Definition canvas_event (e : event) : bool :=
  match e with
  | EvFigure | EvDrawEdges | EvDrawNode _ _ | EvText _ _ _ | EvDrawLabels _
  | EvDrawEdgeLabels _ | EvTitle _ | EvAxisOff | EvTightLayout => true
  | _ => false
  end.

(** The files [plt.savefig] is called with. *)
Definition saved (evs : list event) : list string :=
  flat_map (fun e => match e with EvSavefig p => [p] | _ => [] end) evs.

(** A computation that, from a state in [I], leaves [self] alone and only
    makes calls in [P]. *)
Definition quiet {A : Type} (I : Visualizer -> Prop) (P : event -> Prop)
    (c : M Runtime A) : Prop :=
  forall rt,
    I (self rt) ->
    self (snd (c rt)) = self rt /\
    exists evs, trace (snd (c rt)) = trace rt ++ evs /\ Forall P evs.

Definition is_canvas (e : event) : Prop := canvas_event e = true.

(** The labels of a call of [nx.draw_networkx_labels] are the [label]
    attributes of the vertices of [g]. *)
Definition labels_ok (g : DiGraph) (e : event) : Prop :=
  forall l, e = EvDrawLabels l -> node_labels (nodes_data g) = Return l.

(** The file [draw] is asked to save to, if any. *)
Definition save_targets (o : option string) : list string :=
  match o with
  | Some (String c r) => [String c r]
  | _ => []
  end.

(** The calls of lines 163 to 170. *)
Definition is_output (e : event) : Prop :=
  match e with
  | EvSavefig _ | EvPrint _ | EvShow | EvClose => True
  | _ => False
  end.

(* ------------------------------------------------------------------ *)
(** ** Documents and libraries of the examples *)

(** The document of the scenario as written: the list of a category holds
    one list, which holds the target. *)
Definition doc_T_nested : pyval :=
  PDict [ ("name", PStr "T");
          ("nodes", PList [
             PDict [("id", PStr "1"); ("type", PStr "n8n-nodes-base.start");
                    ("position", PList [PInt 0; PInt 0])];
             PDict [("id", PStr "2"); ("type", PStr "n8n-nodes-base.set");
                    ("name", PStr "SetX")] ]);
          ("connections", PDict [
             ("1", PDict [("main", PList [PList [PDict [("node", PStr "2")]]])]) ]) ].

(** The same document with the target directly in the list of the
    category. *)
Definition doc_T_flat : pyval :=
  PDict [ ("name", PStr "T");
          ("nodes", PList [
             PDict [("id", PStr "1"); ("type", PStr "n8n-nodes-base.start");
                    ("position", PList [PInt 0; PInt 0])];
             PDict [("id", PStr "2"); ("type", PStr "n8n-nodes-base.set");
                    ("name", PStr "SetX")] ]);
          ("connections", PDict [
             ("1", PDict [("main", PList [PDict [("node", PStr "2")]])]) ]) ].

(** Two vertices ["1"] and ["2"] labelled [start] and [SetX], and the one
    edge from ["1"] to ["2"] with the category [main]. *)
Definition scenario_graph (g : DiGraph) : Prop :=
  vertex_keys g = [PStr "1"; PStr "2"] /\
  node_attr g (PStr "1") "label" = Some (PStr "start") /\
  node_attr g (PStr "2") "label" = Some (PStr "SetX") /\
  edges_data g = [(PStr "1", PStr "2", [("connection_type", PStr "main")])].

(** A document without the key [nodes]. *)
Definition doc_no_nodes : pyval := PDict [("name", PStr "T")].

(** Two categories of the source ["1"] list the target ["2"]. *)
Definition doc_two_categories : pyval :=
  PDict [ ("nodes", PList [
             PDict [("id", PStr "1"); ("type", PStr "n8n-nodes-base.if")];
             PDict [("id", PStr "2"); ("type", PStr "n8n-nodes-base.set")] ]);
          ("connections", PDict [
             ("1", PDict [("main", PList [PDict [("node", PStr "2")]]);
                          ("error", PList [PDict [("node", PStr "2")]])]) ]) ].

Definition long_label : string := "Send weekly summary email".

(** One node with a name of 25 characters and a position. *)
Definition doc_long_label : pyval :=
  PDict [ ("name", PStr "L");
          ("nodes", PList [
             PDict [("id", PStr "1"); ("type", PStr "n8n-nodes-base.set");
                    ("name", PStr long_label);
                    ("position", PList [PInt 0; PInt 0])] ]) ].

(** A record without [id]. *)
Definition doc_missing_id : pyval :=
  PDict [("nodes", PList [PDict [("type", PStr "n8n-nodes-base.set")]])].

(** One record with a position and one without. *)
Definition doc_positions : pyval :=
  PDict [ ("nodes", PList [
             PDict [("id", PStr "1"); ("type", PStr "n8n-nodes-base.start");
                    ("position", PList [PInt 100; PInt 200])];
             PDict [("id", PStr "2"); ("type", PStr "n8n-nodes-base.set")] ]);
          ("connections", PDict []) ].

(** Two records with positions and an edge between them. *)
Definition doc_flow : pyval :=
  PDict [ ("name", PStr "flow");
          ("nodes", PList [
             PDict [("id", PStr "1"); ("type", PStr "n8n-nodes-base.start");
                    ("position", PList [PInt 0; PInt 0])];
             PDict [("id", PStr "2"); ("type", PStr "n8n-nodes-base.set");
                    ("name", PStr "SetX");
                    ("position", PList [PInt 200; PInt 0])] ]);
          ("connections", PDict [
             ("1", PDict [("main", PList [PDict [("node", PStr "2")]])]) ]) ].

(** A plotting library that never raises, and a file system with no file
    and with one that holds [doc_flow]. *)
Definition quiet_backend (rt : Runtime) (c : event) : option pyexn := None.
Definition no_layout (g : DiGraph) : posmap := [].
Definition same_ordinate (y : pyval) : outcome pyval := Return y.
Definition no_str (v : pyval) : string := EmptyString.
Definition no_file (p : string) : bool := false.
Definition any_file (p : string) : bool := true.
Definition load_nothing (p : string) : outcome pyval := Raise (OSError p).
Definition load_flow (p : string) : outcome pyval := Return doc_flow.
Definition exn_name (e : pyexn) : string :=
  match e with
  | KeyError _ => "KeyError"
  | TypeError => "TypeError"
  | AttributeError => "AttributeError"
  | ValueError => "ValueError"
  | IndexError => "IndexError"
  | NetworkXError m | OSError m | JSONDecodeError m => m
  | OverflowError => "OverflowError"
  end.

(* ------------------------------------------------------------------ *)
(** ** The vertices of any document *)

(** [ks] with [k] put last unless a key equal to it is there. *)
Definition nub_add (ks : list pyval) (k : pyval) : list pyval :=
  if existsb (key_eqb k) ks then ks else ks ++ [k].

(** The source and the target of every connection, in the order
    [add_edge] meets them. *)
Definition endpoints (es : list entry) : list pyval :=
  flat_map (fun e => match entry_target e with
                     | Some t => [PStr (fst (fst e)); t]
                     | None => []
                     end) es.

(** Two records with the id ["1"], and a connection from ["2"] to an id
    ["9"] that no record has. *)
Definition doc_dangling : pyval :=
  PDict [ ("nodes", PList [
             PDict [("id", PStr "1"); ("type", PStr "n8n-nodes-base.start")];
             PDict [("id", PStr "1"); ("type", PStr "n8n-nodes-base.if");
                    ("name", PStr "Again")];
             PDict [("id", PStr "2"); ("type", PStr "n8n-nodes-base.set")] ]);
          ("connections", PDict [
             ("2", PDict [("main", PList [PDict [("node", PStr "9")]])]) ]) ].

(* ------------------------------------------------------------------ *)
(** ** Views used for the graph, the calls and the exceptions *)

(** The coordinates stored so far belong to vertices and come from
    records with a position. *)
Definition pos_from (recs : list pyval) (v : Visualizer) : Prop :=
  forall k xy,
    In (k, xy) (pos v) ->
    dict_mem key_eqb k (_node (graph v)) = true /\
    exists n id,
      In n recs /\ record_id n = Some id /\ key_eqb id k = true /\
      has_position n = true /\ record_xy n = Return xy.

(** The edge from [u] to [t] with data [d] is the edge of a connection of
    [es], and [d] holds its category and nothing else. *)
Definition edge_from (es : list entry) (u t : pyval) (d : attrs) : Prop :=
  exists s c conn t',
    In (s, c, conn) es /\ entry_target (s, c, conn) = Some t' /\
    key_eqb u (PStr s) = true /\ key_eqb t t' = true /\
    d = [("connection_type", PStr c)].

Definition edges_from (es : list entry) (g : DiGraph) : Prop :=
  forall u nbrs t d,
    In (u, nbrs) (_adj g) -> In (t, d) nbrs -> edge_from es u t d.

(** Is [k] the source or the target of the entry? *)
Definition touches (k : pyval) (e : entry) : bool :=
  key_eqb k (PStr (fst (fst e))) ||
  match entry_target e with
  | Some t => key_eqb k t
  | None => false
  end.

(** The calls of the loop over the vertices and of the two before it. *)
Definition is_vertex_call (e : event) : Prop :=
  is_canvas e /\ forall l, e <> EvDrawLabels l.

(** The two calls the loop makes for a vertex, given the coordinates. *)
Definition vertex_calls (sub_offset : pyval -> outcome pyval) (p : posmap)
    (nd : pyval * attrs) : outcome (list event) :=
  obind (py_get (PDict (snd nd)) "type" (PStr "unknown")) (fun ty =>
  obind (_get_node_color ty) (fun color =>
    match dict_get key_eqb (fst nd) p with
    | None => Raise (KeyError (fst nd))
    | Some xy =>
        obind (sub_offset (snd xy)) (fun y =>
        obind (py_split ty ".") (fun segs =>
        obind (py_last segs) (fun s =>
          Return [EvDrawNode (fst nd) color; EvText (fst xy) y s])))
    end)).

(** The calls of lines 88 to 90 and of lines 163 to 170. *)
Definition layout_calls (p : posmap) : list event :=
  match p with
  | [] => [EvSpringLayout]
  | _ :: _ => []
  end.

Definition output_calls (o : option string) (show : bool) : list event :=
  match o with
  | Some (String c r) =>
      [EvSavefig (String c r);
       EvPrint ("Workflow visualization saved to " ++ String c r)]
  | _ => []
  end ++ [if show then EvShow else EvClose].

(** The coordinates [draw] draws with. *)
Definition drawing_pos (spring_layout : DiGraph -> posmap) (v : Visualizer)
    : posmap :=
  match pos v with
  | [] => spring_layout (graph v)
  | _ :: _ => pos v
  end.

(** The colour of a type in the table of [__init__], grey by default. *)
Definition type_color (ty : string) : string :=
  match dict_get String.eqb ty type_colors with
  | Some c => c
  | None => "#cccccc"
  end.





(** A call other than [plt.show()] and [plt.close()]. *)
Definition keeps_figure (e : event) : Prop := e <> EvShow /\ e <> EvClose.

(** The exceptions [parse_workflow] can raise: the three of a value of the
    wrong type, and a missing [id], [type] or [node] key; [KeyError: 0] is
    that of a [position] that is a dictionary. *)
Definition parse_error (e : pyexn) : bool :=
  match e with
  | TypeError | AttributeError | ValueError => true
  | KeyError (PStr k) =>
      String.eqb k "id" || String.eqb k "type" || String.eqb k "node"
  | KeyError (PInt 0) => true
  | _ => false
  end.

(** A computation that raises exceptions in [P] only. *)
Definition raises_only {St A : Type} (P : pyexn -> bool) (c : M St A) : Prop :=
  forall s e, fst (c s) = Raise e -> P e = true.

(** Two records with the id ["1"]: the first stores a position, the second
    a name. *)
Definition doc_twice : pyval :=
  PDict [ ("nodes", PList [
             PDict [("id", PStr "1"); ("type", PStr "n8n-nodes-base.start");
                    ("position", PList [PInt 10; PInt 20])];
             PDict [("id", PStr "1"); ("type", PStr "n8n-nodes-base.if");
                    ("name", PStr "Again")] ]) ].

(** The keys of the attributes [parse_workflow] gives a vertex. *)
Definition record_keys (a : attrs) : Prop :=
  map fst a = ["label"; "type"; "parameters"]%string.

(** [ny] is the number [-y]: the integer of the opposite sign, or the
    float with the sign flipped; [True] and [False] count as [1] and [0].
    Nothing but a number has one. *)
Definition negated (y ny : pyval) : Prop :=
  match y with
  | PInt z => ny = PInt (- z)
  | PBool b => ny = PInt (- (if b then 1 else 0))
  | PFloat f => ny = PFloat (SFopp f)
  | _ => False
  end.

(** Every character of [s] is a dot. *)
Fixpoint all_dots (s : string) : bool :=
  match s with
  | EmptyString => true
  | String c r => Ascii.eqb c "." && all_dots r
  end.

(* ------------------------------------------------------------------ *)
(** ** The arithmetic of [y - 0.07] *)

(** The [float] of the literal [0.07]: [0x1.1eb851eb851ecp-4]. *)
Definition offset_007 : spec_float := S754_finite false 5044031582654956 (-56).

(** [float(z)] for an [int]: the nearest binary64 number, ties to even;
    an [int] beyond the range is an [OverflowError]. *)
Definition py_float_of_int (z : Z) : outcome spec_float :=
  match binary_normalize 53 1024 z 0 false with
  | S754_infinity _ => Raise OverflowError
  | f => Return f
  end.

(** [y - 0.07]: binary64 subtraction, after the conversion of an [int] or
    a [bool]; nothing but a number can be subtracted from. *)
Definition py_sub_offset (y : pyval) : outcome pyval :=
  match y with
  | PFloat f => Return (PFloat (SFsub 53 1024 f offset_007))
  | PInt z =>
      obind (py_float_of_int z) (fun f =>
      Return (PFloat (SFsub 53 1024 f offset_007)))
  | PBool b =>
      obind (py_float_of_int (if b then 1 else 0)) (fun f =>
      Return (PFloat (SFsub 53 1024 f offset_007)))
  | _ => Raise TypeError
  end.

(* ------------------------------------------------------------------ *)
(** ** Where an exception of [draw] comes from *)




(* ------------------------------------------------------------------ *)
(** ** What [networkx] does without a coordinate *)

(** The first endpoint of an edge, in the order of [G.edges], that has no
    coordinate. *)
Fixpoint first_unplaced (p : posmap) (es : list (pyval * pyval * attrs))
    : option pyval :=
  match es with
  | [] => None
  | (u, v, _) :: r =>
      if negb (dict_mem key_eqb u p) then Some u
      else if negb (dict_mem key_eqb v p) then Some v
      else first_unplaced p r
  end.

(** [draw_networkx_edges] evaluates [pos[u]] and [pos[v]] for every edge,
    and [draw_networkx_nodes] turns the [KeyError] of [pos[v]] for the [v]
    of its [nodelist] into [NetworkXError("Node ... has no position.")],
    where [describe k] is [str(KeyError(k))].  No other call raises. *)
Definition networkx_backend (describe : pyval -> string) (rt : Runtime)
    (c : event) : option pyexn :=
  match c with
  | EvDrawEdges =>
      match first_unplaced (pos (self rt)) (edges_data (graph (self rt))) with
      | Some k => Some (KeyError k)
      | None => None
      end
  | EvDrawNode k _ =>
      if dict_mem key_eqb k (pos (self rt)) then None
      else Some (NetworkXError ("Node " ++ describe k ++ " has no position."))
  | _ => None
  end.

(** [str(KeyError(k))] for a string without quotes or escapes. *)
Definition describe_str (k : pyval) : string :=
  match k with
  | PStr s => "'" ++ s ++ "'"
  | _ => EmptyString
  end.


(* ------------------------------------------------------------------ *)
(** ** The ordinate of the type under a vertex *)

(** The [float] a number stands for in [y - 0.07]: itself, or the binary64
    number nearest to an [int], which has to be in the range. *)
Definition float_value (y : pyval) (f : spec_float) : Prop :=
  match y with
  | PFloat g => f = g
  | PInt z =>
      f = binary_normalize 53 1024 z 0 false /\
      forall s, f <> S754_infinity s
  | PBool b => f = binary_normalize 53 1024 (if b then 1 else 0) 0 false
  | _ => False
  end.

(** [y'] is the float [y - 0.07]: the binary64 difference of [y] and
    [5044031582654956 * 2^-56], the binary64 number nearest to [7/100]. *)
Definition lowered (y y' : pyval) : Prop :=
  exists f,
    float_value y f /\
    y' = PFloat (SFsub 53 1024 f (S754_finite false 5044031582654956 (-56))).

(** Two records with positions and an edge between them. *)
Definition doc_placed : pyval :=
  PDict [ ("name", PStr "placed");
          ("nodes", PList [
             PDict [("id", PStr "1"); ("type", PStr "n8n-nodes-base.start");
                    ("position", PList [PInt 100; PInt 200])];
             PDict [("id", PStr "2"); ("type", PStr "custom.thing");
                    ("name", PStr "SetX");
                    ("position", PList [PInt 300; PFloat (S754_finite false 3 (-1))])] ]);
          ("connections", PDict [
             ("1", PDict [("main", PList [PDict [("node", PStr "2")]])]) ]) ].

(* ================================================================== *)
(** * Key equality is an equivalence on hashable values *)

Local Open Scope Z_scope.

Lemma fin_eq_shift (m1 e1 m2 e2 b : Z) :
  b <= Z.min e1 e2 ->
  (m1 * 2 ^ (e1 - Z.min e1 e2) = m2 * 2 ^ (e2 - Z.min e1 e2)
   <-> m1 * 2 ^ (e1 - b) = m2 * 2 ^ (e2 - b)).
Proof.
  intros Hb.
  set (m := Z.min e1 e2) in *.
  assert (H1 : e1 - b = (e1 - m) + (m - b)) by lia.
  assert (H2 : e2 - b = (e2 - m) + (m - b)) by lia.
  assert (Hm1 : 0 <= e1 - m) by (subst m; lia).
  assert (Hm2 : 0 <= e2 - m) by (subst m; lia).
  assert (Hmb : 0 <= m - b) by lia.
  rewrite H1, H2, !Z.pow_add_r by assumption.
  rewrite !Z.mul_assoc.
  assert (Hnz : 2 ^ (m - b) <> 0) by (apply Z.pow_nonzero; lia).
  split; intros H.
  - now rewrite H.
  - now apply Z.mul_cancel_r in H.
Qed.

Lemma number_eqb_refl (a : number) : number_eqb a a = true.
Proof.
  destruct a as [m e| s |]; simpl; auto.
  - apply Z.eqb_refl.
  - now destruct s.
Qed.

Lemma number_eqb_sym (a b : number) : number_eqb a b = number_eqb b a.
Proof.
  destruct a as [m1 e1| s1 |], b as [m2 e2| s2 |]; simpl; auto.
  - rewrite (Z.min_comm e2 e1). apply Z.eqb_sym.
  - now destruct s1, s2.
Qed.

Lemma number_eqb_trans (a b c : number) :
  number_eqb a b = true -> number_eqb b c = true -> number_eqb a c = true.
Proof.
  destruct a as [m1 e1| s1 |], b as [m2 e2| s2 |], c as [m3 e3| s3 |];
    simpl; try discriminate; auto.
  - rewrite !Z.eqb_eq. intros H12 H23.
    set (b := Z.min e1 (Z.min e2 e3)).
    apply (fin_eq_shift m1 e1 m2 e2 b) in H12; [| subst b; lia].
    apply (fin_eq_shift m2 e2 m3 e3 b) in H23; [| subst b; lia].
    apply (fin_eq_shift m1 e1 m3 e3 b); [subst b; lia |].
    congruence.
  - destruct s1, s2, s3; simpl; auto.
Qed.

Local Close Scope Z_scope.

Lemma key_eqb_classify (a b : pyval) :
  key_eqb a b =
  match classify a, classify b with
  | Some x, Some y => class_eqb x y
  | _, _ => false
  end.
Proof.
  destruct a, b; try reflexivity;
    repeat match goal with f : spec_float |- _ => destruct f end;
    reflexivity.
Qed.

Lemma classify_hashable (k : pyval) :
  hashable k = true -> exists c, classify k = Some c.
Proof.
  destruct k; simpl; try discriminate; intros _; eauto.
  destruct f; simpl; eauto.
Qed.

Lemma class_eqb_refl (x : keyclass) : class_eqb x x = true.
Proof.
  destruct x; simpl; auto using number_eqb_refl, String.eqb_refl.
Qed.

Lemma class_eqb_sym (x y : keyclass) : class_eqb x y = class_eqb y x.
Proof.
  destruct x, y; simpl; auto using number_eqb_sym, String.eqb_sym.
Qed.

Lemma class_eqb_trans (x y z : keyclass) :
  class_eqb x y = true -> class_eqb y z = true -> class_eqb x z = true.
Proof.
  destruct x, y, z; simpl; try discriminate; auto.
  - apply number_eqb_trans.
  - rewrite !String.eqb_eq. congruence.
Qed.

Lemma key_eqb_refl (k : pyval) : hashable k = true -> key_eqb k k = true.
Proof.
  intros H. destruct (classify_hashable k H) as [c Hc].
  rewrite key_eqb_classify, Hc. apply class_eqb_refl.
Qed.

Lemma key_eqb_sym (a b : pyval) : key_eqb a b = key_eqb b a.
Proof.
  rewrite !key_eqb_classify.
  destruct (classify a), (classify b); auto using class_eqb_sym.
Qed.

Lemma key_eqb_trans (a b c : pyval) :
  key_eqb a b = true -> key_eqb b c = true -> key_eqb a c = true.
Proof.
  rewrite !key_eqb_classify.
  destruct (classify a), (classify b), (classify c); try discriminate.
  apply class_eqb_trans.
Qed.

Lemma key_eqb_str (s t : string) : key_eqb (PStr s) (PStr t) = String.eqb s t.
Proof. reflexivity. Qed.

(* ================================================================== *)
(** * Dictionaries *)

Section DictFacts.
Variables K V : Type.
Variable keq : K -> K -> bool.
Hypothesis keq_sym : forall a b, keq a b = keq b a.
Hypothesis keq_trans : forall a b c, keq a b = true -> keq b c = true -> keq a c = true.

Lemma dict_get_set_same (k : K) (v : V) (d : list (K * V)) :
  keq k k = true -> dict_get keq k (dict_set keq k v d) = Some v.
Proof.
  intros Hk. induction d as [| [k' v'] r IH]; simpl.
  - now rewrite Hk.
  - destruct (keq k k') eqn:E; simpl; now rewrite E.
Qed.

Lemma dict_get_set_other (k k' : K) (v : V) (d : list (K * V)) :
  keq k k' = false -> dict_get keq k (dict_set keq k' v d) = dict_get keq k d.
Proof.
  intros Hk. induction d as [| [k1 v1] r IH]; simpl.
  - now rewrite Hk.
  - destruct (keq k' k1) eqn:E; simpl.
    + destruct (keq k k1) eqn:E1; auto.
      rewrite keq_sym in E.
      now rewrite (keq_trans _ _ _ E1 E) in Hk.
    + now rewrite IH.
Qed.

Lemma dict_get_eqv (k k' : K) (d : list (K * V)) :
  keq k k' = true -> dict_get keq k d = dict_get keq k' d.
Proof.
  intros Hk. induction d as [| [k1 v1] r IH]; simpl; auto.
  destruct (keq k k1) eqn:E1, (keq k' k1) eqn:E2; auto.
  - rewrite keq_sym in Hk. now rewrite (keq_trans _ _ _ Hk E1) in E2.
  - now rewrite (keq_trans _ _ _ Hk E2) in E1.
Qed.

Lemma dict_get_none (k : K) (d : list (K * V)) :
  dict_get keq k d = None <-> forall k', In k' (dict_keys d) -> keq k k' = false.
Proof.
  induction d as [| [k1 v1] r IH]; simpl.
  - split; auto. intros _ k' [].
  - destruct (keq k k1) eqn:E.
    + split; [discriminate |]. intros H. specialize (H k1 (or_introl eq_refl)).
      congruence.
    + rewrite IH. split.
      * intros H k' [<- | Hin]; auto.
      * intros H k' Hin. apply H. now right.
Qed.

Lemma dict_get_some_key (k : K) (v : V) (d : list (K * V)) :
  dict_get keq k d = Some v -> exists k', In (k', v) d /\ keq k k' = true.
Proof.
  induction d as [| [k1 v1] r IH]; simpl; [discriminate |].
  destruct (keq k k1) eqn:E.
  - intros [= <-]. eauto.
  - intros H. destruct (IH H) as (k' & Hin & Hk). eauto.
Qed.

Lemma dict_keys_set (k : K) (v : V) (d : list (K * V)) :
  dict_keys (dict_set keq k v d) =
  if dict_mem keq k d then dict_keys d else dict_keys d ++ [k].
Proof.
  unfold dict_mem. induction d as [| [k1 v1] r IH]; simpl; auto.
  destruct (keq k k1) eqn:E; simpl; auto.
  rewrite IH. now destruct (dict_get keq k r).
Qed.

End DictFacts.

Lemma dict_update_get_last (d : attrs) (k : string) (v : pyval) :
  dict_get String.eqb k (dict_update d [(k, v)]) = Some v.
Proof.
  unfold dict_update; simpl. apply dict_get_set_same, String.eqb_refl.
Qed.

(* ================================================================== *)
(** * The monad *)

Section MonadFacts.
Variable St : Type.

Lemma bind_return {A B} (c : M St A) (k : A -> M St B) s b s' :
  bind c k s = (Return b, s') ->
  exists a s1, c s = (Return a, s1) /\ k a s1 = (Return b, s').
Proof.
  unfold bind. destruct (c s) as [[a | e] s1]; [eauto | discriminate].
Qed.

Lemma bind_raise {A B} (c : M St A) (k : A -> M St B) s e s' :
  c s = (Raise e, s') -> bind c k s = (Raise e, s').
Proof. unfold bind. now intros ->. Qed.

Lemma bind_step {A B} (c : M St A) (k : A -> M St B) s a s1 :
  c s = (Return a, s1) -> bind c k s = k a s1.
Proof. unfold bind. now intros ->. Qed.

Lemma lift_return {A} (c : outcome A) (s : St) a s' :
  lift c s = (Return a, s') -> c = Return a /\ s' = s.
Proof. unfold lift. now intros [= -> ->]. Qed.

Lemma for_each_app {A} (xs ys : list A) (body : A -> M St unit) s :
  for_each (xs ++ ys) body s =
  bind (for_each xs body) (fun _ => for_each ys body) s.
Proof.
  revert s. induction xs as [| x r IH]; intros s; simpl.
  - reflexivity.
  - unfold bind. destruct (body x s) as [[[] | e] s1]; auto.
Qed.

End MonadFacts.

(* ================================================================== *)
(** * What a node record contributes *)

Ltac inv_bind H :=
  repeat match type of H with
         | bind _ _ _ = (Return _, _) =>
             let a := fresh "a" in
             let s := fresh "s" in
             let E := fresh "E" in
             apply bind_return in H; destruct H as (a & s & E & H)
         end.

Ltac inv_lift :=
  repeat match goal with
         | H : lift _ _ = (Return _, _) |- _ =>
             apply lift_return in H; destruct H as [H ?]; subst
         | H : ret _ _ = (Return _, _) |- _ =>
             unfold ret in H; injection H as ? ?; subst
         end.

Lemma str_split_nonempty (sep : ascii) (s : string) : str_split sep s <> [].
Proof.
  induction s as [| c r IH]; simpl; [discriminate |].
  destruct (Ascii.eqb c sep); [discriminate |].
  destruct (str_split sep r); [contradiction | discriminate].
Qed.

Lemma py_last_split (s : string) :
  py_last (str_split "." s) = Return (last_segment s).
Proof.
  unfold py_last, last_segment.
  destruct (rev (str_split "." s)) eqn:E; auto.
  exfalso. apply (str_split_nonempty "." s).
  rewrite <- (rev_involutive (str_split "." s)), E. reflexivity.
Qed.

Lemma parse_node_return (n : pyval) (v v' : Visualizer) :
  parse_node n v = (Return tt, v') ->
  exists id a,
    record_id n = Some id /\ record_attrs n = Some a /\
    add_node (graph v) id a = Return (graph v') /\
    workflow v' = workflow v /\
    (if has_position n
     then exists xy, record_xy n = Return xy /\
                     pos v' = dict_set key_eqb id xy (pos v)
     else pos v' = pos v).
Proof.
  unfold parse_node. intros H. inv_bind H. inv_lift.
  destruct n as [| | | | | | d]; try discriminate.
  simpl in E, E0, E3, E4, E6.
  destruct (dict_get String.eqb "id" d) as [id |] eqn:Eid; [| discriminate].
  destruct (dict_get String.eqb "type" d) as [ty |] eqn:Ety; [| discriminate].
  injection E as <-. injection E0 as <-.
  destruct ty as [| | | | ty | |]; try discriminate.
  simpl in E1. injection E1 as <-.
  rewrite py_last_split in E2. injection E2 as <-.
  injection E3 as <-. injection E4 as <-. injection E6 as <-.
  unfold graph_add_node in E5.
  destruct (add_node (graph v) id _) as [g |] eqn:Eadd; [| discriminate].
  injection E5 as _ <-.
  assert (Hattrs : record_attrs (PDict d) = Some
            [("label", match dict_get String.eqb "name" d with
                       | Some x => x
                       | None => PStr (last_segment ty)
                       end);
             ("type", PStr ty);
             ("parameters", match dict_get String.eqb "parameters" d with
                            | Some x => x
                            | None => PDict []
                            end)])
    by (simpl; rewrite Ety; reflexivity).
  exists id. eexists. split; [exact Eid |]. split; [exact Hattrs |].
  unfold has_position, dict_mem in *.
  destruct (dict_get String.eqb "position" d) as [p |] eqn:Epos.
  - assert (Hp : py_getitem_str (PDict d) "position" = Return p)
      by (simpl; now rewrite Epos).
    unfold record_xy. rewrite Hp in *.
    unfold bind, lift, ret, obind in E7, H |- *. cbv beta iota in E7, H |- *.
    destruct (py_len p) as [k |]; [| discriminate].
    injection E7 as <- <-.
    destruct k as [| [| k]]; cbv beta iota in H |- *;
      try (injection H as <-; simpl; now auto).
    destruct (py_getitem_int p 0) as [x |]; cbv beta iota in H; [| discriminate].
    destruct (py_getitem_int p 1) as [y |]; cbv beta iota in H; [| discriminate].
    destruct (py_neg y) as [ny |]; cbv beta iota in H; [| discriminate].
    unfold pos_setitem in H. simpl in H.
    destruct (hashable id); [| discriminate].
    injection H as <-. simpl. repeat split; auto.
    exists (x, ny). auto.
  - unfold ret in E7, H. injection E7 as <- <-. injection H as <-.
    simpl. auto.
Qed.

(* ================================================================== *)
(** * The graph operations *)

Lemma dict_mem_keys {V W : Type} (k : pyval) (d : list (pyval * V))
      (d' : list (pyval * W)) :
  dict_keys d = dict_keys d' -> dict_mem key_eqb k d = dict_mem key_eqb k d'.
Proof.
  unfold dict_mem. revert d'.
  induction d as [| [k1 v1] r IH]; intros [| [k2 v2] r'] H; simpl in *;
    try discriminate; auto.
  injection H as -> H. destruct (key_eqb k k2); auto.
Qed.

Lemma has_node_wf (g : DiGraph) (n : pyval) :
  wf_graph g -> has_node g n = dict_mem key_eqb n (_node g).
Proof. intros H. unfold has_node. symmetry. now apply dict_mem_keys. Qed.

Lemma wf_empty : wf_graph empty_graph.
Proof. reflexivity. Qed.

Lemma dict_mem_true_set {V : Type} (k : pyval) (v : V) (d : list (pyval * V)) :
  dict_mem key_eqb k d = true ->
  dict_keys (dict_set key_eqb k v d) = dict_keys d.
Proof. intros H. rewrite dict_keys_set. now rewrite H. Qed.

Lemma dict_mem_false_set {V : Type} (k : pyval) (v : V) (d : list (pyval * V)) :
  dict_mem key_eqb k d = false ->
  dict_keys (dict_set key_eqb k v d) = dict_keys d ++ [k].
Proof. intros H. rewrite dict_keys_set. now rewrite H. Qed.

Lemma kget_set_same {V : Type} (k : pyval) (v : V) (d : list (pyval * V)) :
  hashable k = true -> dict_get key_eqb k (dict_set key_eqb k v d) = Some v.
Proof. intros H. apply dict_get_set_same. now apply key_eqb_refl. Qed.

Lemma kget_set_other {V : Type} (k k' : pyval) (v : V) (d : list (pyval * V)) :
  key_eqb k k' = false ->
  dict_get key_eqb k (dict_set key_eqb k' v d) = dict_get key_eqb k d.
Proof.
  apply (@dict_get_set_other _ _ key_eqb key_eqb_sym key_eqb_trans).
Qed.

Lemma kget_eqv {V : Type} (k k' : pyval) (d : list (pyval * V)) :
  key_eqb k k' = true -> dict_get key_eqb k d = dict_get key_eqb k' d.
Proof.
  apply (@dict_get_eqv _ _ key_eqb key_eqb_sym key_eqb_trans).
Qed.

Lemma kmem_eqv {V : Type} (k k' : pyval) (d : list (pyval * V)) :
  key_eqb k k' = true -> dict_mem key_eqb k d = dict_mem key_eqb k' d.
Proof. intros H. unfold dict_mem. now rewrite (@kget_eqv _ k k' d H). Qed.

Lemma nbrs_of_new (adj : list (pyval * list (pyval * attrs))) (n u : pyval) :
  hashable n = true ->
  dict_mem key_eqb n adj = false ->
  match dict_get key_eqb u (dict_set key_eqb n [] adj) with
  | Some nbrs => nbrs
  | None => []
  end =
  match dict_get key_eqb u adj with
  | Some nbrs => nbrs
  | None => []
  end.
Proof.
  intros Hh Hm. destruct (key_eqb u n) eqn:Eu.
  - rewrite !(@kget_eqv _ u n _ Eu), kget_set_same by assumption.
    unfold dict_mem in Hm. now destruct (dict_get key_eqb n adj).
  - now rewrite kget_set_other.
Qed.

Lemma add_node_spec (g g' : DiGraph) (n : pyval) (a : attrs) :
  wf_graph g ->
  add_node g n a = Return g' ->
  hashable n = true /\ wf_graph g' /\
  vertex_keys g' =
    (if has_node g n then vertex_keys g else vertex_keys g ++ [n]) /\
  (exists old, dict_get key_eqb n (_node g') = Some (dict_update old a)) /\
  (forall k, key_eqb k n = false ->
             dict_get key_eqb k (_node g') = dict_get key_eqb k (_node g)) /\
  (forall u, nbrs_of g' u = nbrs_of g u).
Proof.
  intros Hwf. unfold add_node, vertex_keys, nbrs_of.
  destruct (hashable n) eqn:Hh; simpl; [| discriminate].
  pose proof (has_node_wf g n Hwf) as Hn.
  destruct (has_node g n) eqn:Hhas.
  - intros [= <-]; simpl. split; auto. split; [| split; [| split; [| split]]].
    + unfold wf_graph in *; simpl. rewrite dict_mem_true_set; auto.
    + now rewrite dict_mem_true_set.
    + eexists. now apply kget_set_same.
    + intros k Hk. now apply kget_set_other.
    + auto.
  - destruct (check_node n) as [[] |] eqn:Ec; simpl; [| discriminate].
    intros [= <-]; simpl. split; auto. split; [| split; [| split; [| split]]].
    + unfold wf_graph in *; simpl.
      rewrite !dict_mem_false_set by (auto; congruence). congruence.
    + rewrite dict_mem_false_set by congruence. reflexivity.
    + eexists. now apply kget_set_same.
    + intros k Hk. now apply kget_set_other.
    + intros u. now apply nbrs_of_new.
Qed.

Lemma edge_data_nbrs (g : DiGraph) (u v : pyval) :
  edge_data g u v = dict_get key_eqb v (nbrs_of g u).
Proof.
  unfold edge_data, nbrs_of. now destruct (dict_get key_eqb u (_adj g)).
Qed.

Lemma nbrs_of_eqv (g : DiGraph) (u u' : pyval) :
  key_eqb u' u = true -> nbrs_of g u' = nbrs_of g u.
Proof. intros H. unfold nbrs_of. now rewrite (@kget_eqv _ u' u _ H). Qed.

Lemma kget_some_mem {V : Type} (k : pyval) (a : V) (d : list (pyval * V)) :
  dict_get key_eqb k d = Some a -> dict_mem key_eqb k d = true.
Proof. unfold dict_mem. now intros ->. Qed.

Lemma touch_node_spec (g g' : DiGraph) (n : pyval) :
  wf_graph g ->
  touch_node g n = Return g' ->
  hashable n = true /\ wf_graph g' /\
  vertex_keys g' =
    (if has_node g n then vertex_keys g else vertex_keys g ++ [n]) /\
  has_node g' n = true /\
  (forall k a, dict_get key_eqb k (_node g) = Some a ->
               dict_get key_eqb k (_node g') = Some a) /\
  (forall u, nbrs_of g' u = nbrs_of g u).
Proof.
  intros Hwf. unfold touch_node, vertex_keys.
  destruct (hashable n) eqn:Hh; simpl; [| discriminate].
  pose proof (has_node_wf g n Hwf) as Hn.
  destruct (has_node g n) eqn:Hhas.
  - intros [= <-]. repeat split; auto.
  - destruct (check_node n) as [[] |] eqn:Ec; simpl; [| discriminate].
    intros [= <-]; simpl. split; auto. split; [| split; [| split; [| split]]].
    + unfold wf_graph in *; simpl.
      rewrite !dict_mem_false_set by (auto; congruence). congruence.
    + rewrite dict_mem_false_set by congruence. reflexivity.
    + unfold has_node, dict_mem; simpl. now rewrite kget_set_same.
    + intros k a Hk. destruct (key_eqb k n) eqn:Ek.
      * apply kget_some_mem in Hk. rewrite (@kmem_eqv _ k n _ Ek) in Hk.
        congruence.
      * now rewrite kget_set_other.
    + intros u. now apply nbrs_of_new.
Qed.

Lemma has_node_keys (g g' : DiGraph) (k : pyval) :
  wf_graph g -> wf_graph g' ->
  (exists l, vertex_keys g' = vertex_keys g ++ l) ->
  has_node g k = true -> has_node g' k = true.
Proof.
  intros Hw Hw' [l Hl]. rewrite !has_node_wf by assumption.
  unfold vertex_keys in Hl. unfold dict_mem.
  destruct (dict_get key_eqb k (_node g)) eqn:E; [intros _ | discriminate].
  destruct (dict_get key_eqb k (_node g')) eqn:E'; auto.
  rewrite (dict_get_none _ _ key_eqb) in E'.
  apply dict_get_some_key in E. destruct E as (k' & Hin & Hk).
  rewrite E' in Hk; [discriminate |].
  rewrite Hl. apply in_or_app. left.
  unfold dict_keys. now apply (in_map fst) in Hin.
Qed.

Lemma add_edge_spec (g g' : DiGraph) (u v : pyval) (a : attrs) :
  wf_graph g ->
  add_edge g u v a = (Return tt, g') ->
  hashable u = true /\ hashable v = true /\ wf_graph g' /\
  (exists l, vertex_keys g' = vertex_keys g ++ l /\
             (has_node g u = true -> has_node g v = true -> l = [])) /\
  (forall k x, dict_get key_eqb k (_node g) = Some x ->
               dict_get key_eqb k (_node g') = Some x) /\
  (exists old, edge_data g' u v = Some (dict_update old a)) /\
  (forall u' v', key_eqb u' u && key_eqb v' v = false ->
                 edge_data g' u' v' = edge_data g u' v').
Proof.
  intros Hwf. unfold add_edge.
  destruct (touch_node g u) as [g1 |] eqn:E1; simpl; [| discriminate].
  destruct (touch_node g1 v) as [g2 |] eqn:E2; simpl; [| discriminate].
  destruct (touch_node_spec _ _ u Hwf E1) as (Hu & Hwf1 & Hk1 & Hn1 & Hp1 & Hb1).
  destruct (touch_node_spec _ _ v Hwf1 E2) as (Hv & Hwf2 & Hk2 & Hn2 & Hp2 & Hb2).
  assert (Hu2 : has_node g2 u = true).
  { apply (has_node_keys g1); auto.
    rewrite Hk2. destruct (has_node g1 v); eauto using app_nil_r. }
  intros [= <-]. split; auto. split; auto.
  assert (Hwf' : wf_graph
            {| _node := _node g2;
               _adj := dict_set key_eqb u
                         (dict_set key_eqb v
                            (dict_update
                               match dict_get key_eqb v
                                       match dict_get key_eqb u (_adj g2) with
                                       | Some l => l
                                       | None => []
                                       end with
                               | Some a0 => a0
                               | None => []
                               end a)
                            match dict_get key_eqb u (_adj g2) with
                            | Some l => l
                            | None => []
                            end) (_adj g2) |}).
  { unfold wf_graph in *; simpl. rewrite dict_mem_true_set; auto. }
  split; [exact Hwf' |]. split; [| split; [| split]].
  - unfold vertex_keys in *; simpl. rewrite Hk2, Hk1.
    destruct (has_node g u) eqn:Hgu.
    + assert (g1 = g) as ->.
      { unfold touch_node in E1. rewrite Hu, Hgu in E1. simpl in E1. congruence. }
      destruct (has_node g v); eauto using app_nil_r.
      eexists; split; [reflexivity | discriminate].
    + destruct (has_node g1 v);
        [eexists; split; [reflexivity | discriminate] |].
      rewrite <- app_assoc. eexists; split; [reflexivity | discriminate].
  - simpl. eauto.
  - rewrite edge_data_nbrs. unfold nbrs_of; simpl.
    rewrite kget_set_same by assumption. rewrite kget_set_same by assumption.
    eauto.
  - intros u' v' Hne. rewrite !edge_data_nbrs.
    unfold nbrs_of at 1; simpl.
    destruct (key_eqb u' u) eqn:Eu.
    + rewrite (@kget_eqv _ u' u _ Eu), kget_set_same by assumption.
      simpl in Hne. rewrite kget_set_other by assumption.
      fold (nbrs_of g2 u). rewrite Hb2, Hb1.
      now rewrite (nbrs_of_eqv g u u' Eu).
    + rewrite kget_set_other by assumption.
      fold (nbrs_of g2 u'). now rewrite Hb2, Hb1.
Qed.

(* ================================================================== *)
(** * The loop over the node records *)

Lemma parse_node_step (n : pyval) (v v' : Visualizer) :
  wf_graph (graph v) ->
  parse_node n v = (Return tt, v') ->
  exists id a,
    record_id n = Some id /\ record_attrs n = Some a /\
    hashable id = true /\ wf_graph (graph v') /\
    workflow v' = workflow v /\
    vertex_keys (graph v') =
      (if has_node (graph v) id then vertex_keys (graph v)
       else vertex_keys (graph v) ++ [id]) /\
    (exists old, dict_get key_eqb id (_node (graph v')) = Some (dict_update old a)) /\
    (forall k, key_eqb k id = false ->
       dict_get key_eqb k (_node (graph v')) = dict_get key_eqb k (_node (graph v))) /\
    (forall u, nbrs_of (graph v') u = nbrs_of (graph v) u) /\
    (if has_position n
     then exists xy, record_xy n = Return xy /\
                     pos v' = dict_set key_eqb id xy (pos v)
     else pos v' = pos v).
Proof.
  intros Hwf H.
  destruct (parse_node_return _ _ _ H) as (id & a & Hid & Ha & Hadd & Hw & Hp).
  destruct (add_node_spec _ _ _ _ Hwf Hadd) as (Hh & Hwf' & Hk & Ho & Hn & Hb).
  exists id, a. repeat (split; [assumption |]). assumption.
Qed.

Lemma dict_mem_false_iff {V : Type} (k : pyval) (d : list (pyval * V)) :
  dict_mem key_eqb k d = false <->
  forallb (fun k' => negb (key_eqb k k')) (dict_keys d) = true.
Proof.
  unfold dict_mem. induction d as [| [k1 v1] r IH]; simpl.
  - tauto.
  - destruct (key_eqb k k1); simpl; [split; discriminate | exact IH].
Qed.

(** With pairwise different ids every record adds its own vertex. *)
Lemma parse_nodes_keys (recs : list pyval) :
  forall (v v' : Visualizer) (ids : list pyval),
    wf_graph (graph v) ->
    for_each recs parse_node v = (Return tt, v') ->
    record_ids recs = Some ids ->
    distinct_keys (vertex_keys (graph v) ++ ids) = true ->
    vertex_keys (graph v') = vertex_keys (graph v) ++ ids.
Proof.
  induction recs as [| n r IH]; intros v v' ids Hwf H Hids Hd; simpl in *.
  - injection H as <-. injection Hids as <-. now rewrite app_nil_r.
  - apply bind_return in H. destruct H as ([] & v1 & H1 & H2).
    destruct (parse_node_step _ _ _ Hwf H1)
      as (id & a & Hid & _ & Hh & Hwf1 & _ & Hk & _).
    rewrite Hid in Hids.
    destruct (record_ids r) as [l |] eqn:El; [| discriminate].
    injection Hids as <-.
    assert (Hd' : distinct_keys ((vertex_keys (graph v) ++ [id]) ++ l) = true)
      by now rewrite <- app_assoc.
    assert (Hnew : has_node (graph v) id = false).
    { rewrite has_node_wf by assumption. apply dict_mem_false_iff.
      clear - Hd. unfold vertex_keys in Hd.
      induction (dict_keys (_node (graph v))) as [| k ks IHk]; simpl in *; auto.
      apply andb_prop in Hd. destruct Hd as [Ha Hb].
      rewrite forallb_app in Ha. apply andb_prop in Ha. destruct Ha as [_ Ha].
      simpl in Ha. apply andb_prop in Ha. destruct Ha as [Ha _].
      rewrite Ha. simpl. auto. }
    rewrite Hnew in Hk. rewrite <- Hk in Hd'.
    rewrite (IH _ _ _ Hwf1 H2 eq_refl Hd'), Hk, <- app_assoc. reflexivity.
Qed.

(** A record whose id differs from the key [k] leaves the vertex and the
    coordinate of [k] alone. *)
Lemma parse_nodes_other (recs : list pyval) (k : pyval) :
  forall (v v' : Visualizer),
    wf_graph (graph v) ->
    for_each recs parse_node v = (Return tt, v') ->
    (forall m i, In m recs -> record_id m = Some i -> key_eqb k i = false) ->
    wf_graph (graph v') /\
    workflow v' = workflow v /\
    dict_get key_eqb k (_node (graph v')) = dict_get key_eqb k (_node (graph v)) /\
    dict_get key_eqb k (pos v') = dict_get key_eqb k (pos v).
Proof.
  induction recs as [| n r IH]; intros v v' Hwf H Hne; simpl in *.
  - injection H as <-. auto.
  - apply bind_return in H. destruct H as ([] & v1 & H1 & H2).
    destruct (parse_node_step _ _ _ Hwf H1)
      as (id & a & Hid & _ & Hh & Hwf1 & Hw & _ & _ & Hn & _ & Hp).
    assert (Hk : key_eqb k id = false) by (eapply Hne; eauto).
    destruct (IH _ _ Hwf1 H2) as (Hwf2 & Hw2 & Hn2 & Hp2); [eauto |].
    split; [assumption |]. split; [congruence |].
    rewrite Hn2, Hp2, Hn by assumption. split; [reflexivity |].
    destruct (has_position n).
    + destruct Hp as (xy & _ & ->). now apply kget_set_other.
    + now rewrite Hp.
Qed.

Lemma parse_nodes_wf (recs : list pyval) :
  forall (v v' : Visualizer),
    wf_graph (graph v) ->
    for_each recs parse_node v = (Return tt, v') ->
    wf_graph (graph v') /\ workflow v' = workflow v.
Proof.
  intros v v' Hwf H.
  destruct (parse_nodes_other recs (PList []) v v' Hwf H) as (? & ? & _); auto.
Qed.

(* ================================================================== *)
(** * The loops over the connections *)

Lemma for_each_map {St A B : Type} (f : A -> B) (body : B -> M St unit)
      (xs : list A) (s : St) :
  for_each (map f xs) body s = for_each xs (fun x => body (f x)) s.
Proof.
  revert s. induction xs as [| x r IH]; intros s; simpl; auto.
  unfold bind. destruct (body (f x) s) as [[[] | e] s1]; auto.
Qed.

Lemma for_each_flat_map {St A B : Type} (f : A -> list B)
      (body : B -> M St unit) (outer : A -> M St unit) (xs : list A) :
  (forall x s s', outer x s = (Return tt, s') ->
                  for_each (f x) body s = (Return tt, s')) ->
  forall s s', for_each xs outer s = (Return tt, s') ->
               for_each (flat_map f xs) body s = (Return tt, s').
Proof.
  intros Hx. induction xs as [| x r IH]; intros s s' H; simpl in *; auto.
  apply bind_return in H. destruct H as ([] & s1 & H1 & H2).
  rewrite for_each_app. erewrite bind_step by eauto. auto.
Qed.

Lemma parse_source_entries (s : string) (sc : pyval) (v v' : Visualizer) :
  parse_source s sc v = (Return tt, v') ->
  for_each (entries_of_source s sc) parse_entry v = (Return tt, v').
Proof.
  unfold parse_source. intros H.
  apply bind_return in H. destruct H as (cats & v1 & H1 & H2).
  apply lift_return in H1. destruct H1 as [H1 ->].
  destruct sc; try discriminate. injection H1 as ->. simpl.
  revert H2. apply for_each_flat_map. clear. intros [c l] v v' H; simpl in *.
  apply bind_return in H. destruct H as (conns & v1 & H1 & H2).
  apply lift_return in H1. destruct H1 as [-> ->].
  now rewrite for_each_map.
Qed.

Lemma parse_connections_entries (c : pyval) (v v' : Visualizer) :
  parse_connections c v = (Return tt, v') ->
  for_each (connection_entries c) parse_entry v = (Return tt, v').
Proof.
  unfold parse_connections. intros H.
  apply bind_return in H. destruct H as (srcs & v1 & H1 & H2).
  apply lift_return in H1. destruct H1 as [H1 ->].
  destruct c; try discriminate. injection H1 as ->. simpl.
  revert H2. apply for_each_flat_map.
  intros [s sc] x y. apply parse_source_entries.
Qed.

Lemma parse_entry_step (e : entry) (v v' : Visualizer) :
  parse_entry e v = (Return tt, v') ->
  exists t,
    entry_target e = Some t /\
    add_edge (graph v) (PStr (fst (fst e))) t
             [("connection_type", PStr (snd (fst e)))] = (Return tt, graph v') /\
    workflow v' = workflow v /\ pos v' = pos v.
Proof.
  unfold parse_entry, parse_connection, entry_target. intros H.
  apply bind_return in H. destruct H as (t & v1 & H1 & H2).
  apply lift_return in H1. destruct H1 as [-> ->].
  unfold graph_add_edge in H2.
  destruct (add_edge _ _ _ _) as [[[] | e0] g] eqn:E; [| discriminate].
  injection H2 as <-. exists t. simpl. auto.
Qed.

Lemma edge_data_eqv (g : DiGraph) (u u' v v' : pyval) :
  key_eqb u' u = true -> key_eqb v' v = true ->
  edge_data g u' v' = edge_data g u v.
Proof.
  intros Hu Hv. rewrite !edge_data_nbrs, (nbrs_of_eqv g u u' Hu).
  now apply kget_eqv.
Qed.

(** The edges of [es], added in order, leave the coordinates, the document
    and the attributes of the existing vertices alone. *)
Lemma parse_entries_frame (es : list entry) :
  forall (v v' : Visualizer),
    wf_graph (graph v) ->
    for_each es parse_entry v = (Return tt, v') ->
    wf_graph (graph v') /\ workflow v' = workflow v /\ pos v' = pos v /\
    (forall k x, dict_get key_eqb k (_node (graph v)) = Some x ->
                 dict_get key_eqb k (_node (graph v')) = Some x) /\
    (exists l, vertex_keys (graph v') = vertex_keys (graph v) ++ l /\
       ((forall e t, In e es -> entry_target e = Some t ->
           has_node (graph v) (PStr (fst (fst e))) = true /\
           has_node (graph v) t = true) -> l = [])).
Proof.
  induction es as [| e r IH]; intros v v' Hwf H; simpl in *.
  - injection H as <-. repeat split; auto.
    exists []. now rewrite app_nil_r.
  - apply bind_return in H. destruct H as ([] & v1 & H1 & H2).
    destruct (parse_entry_step _ _ _ H1) as (t & Ht & Hadd & Hw & Hp).
    destruct (add_edge_spec _ _ _ _ _ Hwf Hadd)
      as (Hu & Hv & Hwf1 & (l1 & Hl1 & Hnil1) & Hn1 & _).
    destruct (IH _ _ Hwf1 H2) as (Hwf2 & Hw2 & Hp2 & Hn2 & (l2 & Hl2 & Hnil2)).
    split; [assumption |]. split; [congruence |]. split; [congruence |].
    split; [auto |].
    exists (l1 ++ l2). split; [rewrite Hl2, Hl1; now rewrite app_assoc |].
    intros Hin.
    assert (l1 = []) as ->.
    { destruct (Hin e t (or_introl eq_refl) Ht). auto. }
    rewrite app_nil_r in Hl1.
    rewrite Hnil2; auto.
    intros e' t' He' Ht'. destruct (Hin e' t' (or_intror He') Ht') as [Ha Hb].
    split; apply (has_node_keys (graph v)); auto; exists []; now rewrite app_nil_r.
Qed.

(** The last entry that connects [s] to [t] decides the category. *)
Lemma parse_entries_last (es : list entry) (s : string) (t : pyval) (c : string) :
  forall (v v' : Visualizer) (pre post : list entry) (conn : pyval),
    wf_graph (graph v) ->
    for_each es parse_entry v = (Return tt, v') ->
    es = pre ++ (s, c, conn) :: post ->
    entry_target (s, c, conn) = Some t ->
    forallb (fun e => negb (same_edge s t e)) post = true ->
    edge_attr (graph v') (PStr s) t "connection_type" = Some (PStr c).
Proof.
  intros v v' pre post conn Hwf H -> Ht Hpost.
  rewrite for_each_app in H. apply bind_return in H.
  destruct H as ([] & v1 & Hpre & H). simpl in H.
  apply bind_return in H. destruct H as ([] & v2 & H1 & H2).
  destruct (parse_entries_frame _ _ _ Hwf Hpre) as (Hwf1 & _).
  destruct (parse_entry_step _ _ _ H1) as (t0 & Ht0 & Hadd & _).
  rewrite Ht in Ht0. injection Ht0 as <-. simpl in Hadd.
  destruct (add_edge_spec _ _ _ _ _ Hwf1 Hadd)
    as (_ & _ & Hwf2 & _ & _ & (old & Ho) & _).
  assert (Hattr : edge_attr (graph v2) (PStr s) t "connection_type" = Some (PStr c)).
  { unfold edge_attr. rewrite Ho. apply dict_update_get_last. }
  clear - Hwf2 H2 Hpost Hattr. revert v2 Hwf2 H2 Hattr.
  induction post as [| e r IH]; intros v2 Hwf2 H2 Hattr; simpl in *.
  - now injection H2 as <-.
  - apply andb_prop in Hpost. destruct Hpost as [He Hr].
    apply bind_return in H2. destruct H2 as ([] & v3 & H3 & H4).
    destruct (parse_entry_step _ _ _ H3) as (t' & Ht' & Hadd & _).
    destruct (add_edge_spec _ _ _ _ _ Hwf2 Hadd)
      as (_ & _ & Hwf3 & _ & _ & _ & Hoth).
    apply (IH Hr _ Hwf3 H4).
    unfold edge_attr in *. rewrite Hoth; auto.
    unfold same_edge in He. rewrite Ht' in He.
    rewrite key_eqb_str, String.eqb_sym, (key_eqb_sym t t').
    now apply negb_true_iff in He.
Qed.

Lemma last_occurrence {A : Type} (P : A -> bool) (l : list A) :
  existsb P l = true ->
  exists pre x post,
    l = pre ++ x :: post /\ P x = true /\
    forallb (fun y => negb (P y)) post = true.
Proof.
  induction l as [| a r IH]; simpl; [discriminate |].
  destruct (existsb P r) eqn:Er.
  - intros _. destruct (IH eq_refl) as (pre & x & post & -> & Hx & Hp).
    exists (a :: pre), x, post. auto.
  - rewrite orb_false_r. intros Ha. exists [], a, r. repeat split; auto.
    clear - Er. induction r as [| b r IH]; simpl in *; auto.
    apply orb_false_elim in Er. destruct Er as [-> Er]. simpl. auto.
Qed.

(* ================================================================== *)
(** * The two phases of [parse_workflow] *)

Lemma build_return (w : pyval) (v : Visualizer) :
  build w = (Return tt, v) ->
  exists v1,
    for_each (document_nodes w) parse_node (init w) = (Return tt, v1) /\
    for_each (connection_entries (document_connections w)) parse_entry v1 =
      (Return tt, v).
Proof.
  unfold build, parse_workflow, document_nodes, document_connections.
  intros H. inv_bind H. unfold get_state in E. injection E as <- <-.
  apply lift_return in E0. destruct E0 as [E0 ->].
  apply lift_return in E2. destruct E2 as [E2 ->].
  simpl workflow in *. rewrite E0, E2.
  unfold parse_nodes in E1. inv_bind E1.
  apply lift_return in E. destruct E as [-> ->].
  exists s1. split; [destruct a1; assumption |].
  now apply parse_connections_entries.
Qed.

(* ================================================================== *)
(** * [parse_workflow] returns on a valid document *)

Lemma check_node_valid (n : pyval) :
  valid_key n = true -> hashable n = true /\ check_node n = Return tt.
Proof.
  unfold valid_key, check_node. destruct n; simpl; auto; discriminate.
Qed.

Lemma add_node_valid (g : DiGraph) (n : pyval) (a : attrs) :
  valid_key n = true -> exists g', add_node g n a = Return g'.
Proof.
  intros H. destruct (check_node_valid n H) as [Hh Hc].
  unfold add_node. rewrite Hh, Hc. simpl. destruct (has_node g n); eauto.
Qed.

Lemma touch_node_valid (g : DiGraph) (n : pyval) :
  valid_key n = true -> exists g', touch_node g n = Return g'.
Proof.
  intros H. destruct (check_node_valid n H) as [Hh Hc].
  unfold touch_node. rewrite Hh, Hc. simpl. destruct (has_node g n); eauto.
Qed.

Lemma add_edge_valid (g : DiGraph) (u v : pyval) (a : attrs) :
  valid_key u = true -> valid_key v = true ->
  exists g', add_edge g u v a = (Return tt, g').
Proof.
  intros Hu Hv. unfold add_edge.
  destruct (touch_node_valid g u Hu) as (g1 & ->).
  destruct (touch_node_valid g1 v Hv) as (g2 & ->). eauto.
Qed.

Lemma parse_node_valid (n : pyval) (v : Visualizer) :
  valid_record n = true -> exists v', parse_node n v = (Return tt, v').
Proof.
  unfold valid_record. destruct n as [| | | | | | r]; try discriminate.
  destruct (dict_get String.eqb "id" r) as [id |] eqn:Eid; [| discriminate].
  destruct (dict_get String.eqb "type" r) as [[| | | | ty | |] |] eqn:Ety;
    try (rewrite andb_false_r; discriminate).
  intros H. apply andb_prop in H. destruct H as [H Hp].
  apply andb_prop in H. destruct H as [Hid _].
  destruct (check_node_valid id Hid) as [Hh _].
  unfold parse_node, bind, lift, graph_add_node, py_contains_key, dict_mem.
  simpl. rewrite Eid, Ety. simpl. rewrite py_last_split.
  destruct (add_node_valid (graph v) id
              [("label", match dict_get String.eqb "name" r with
                         | Some x => x
                         | None => PStr (last_segment ty)
                         end);
               ("type", PStr ty);
               ("parameters", match dict_get String.eqb "parameters" r with
                              | Some x => x
                              | None => PDict []
                              end)] Hid) as (g' & ->).
  destruct (dict_get String.eqb "position" r) as [p |]; [| unfold ret; eauto].
  destruct p as [| | | | | l |]; try discriminate.
  destruct l as [| x [| y l']]; simpl; try (unfold ret; eauto).
  unfold pos_setitem. simpl.
  destruct y; try discriminate; simpl; rewrite Hh; eauto.
Qed.

Lemma for_each_returns {St A : Type} (body : A -> M St unit) (xs : list A) :
  (forall x s, In x xs -> exists s', body x s = (Return tt, s')) ->
  forall s, exists s', for_each xs body s = (Return tt, s').
Proof.
  induction xs as [| x r IH]; intros Hb s; simpl.
  - unfold ret. eauto.
  - destruct (Hb x s (or_introl eq_refl)) as (s1 & H1).
    unfold bind. rewrite H1. apply IH. intros y s' Hy. apply Hb. now right.
Qed.

Lemma parse_connection_valid (s c : string) (conn : pyval) (v : Visualizer) :
  valid_connection conn = true ->
  exists v', parse_connection s c conn v = (Return tt, v').
Proof.
  unfold valid_connection. destruct conn as [| | | | | | r]; try discriminate.
  destruct (dict_get String.eqb "node" r) as [t |] eqn:Et; [| discriminate].
  intros Ht. unfold parse_connection, bind, lift, graph_add_edge. simpl.
  rewrite Et.
  destruct (add_edge_valid (graph v) (PStr s) t
              [("connection_type", PStr c)] eq_refl Ht) as (g' & ->).
  eauto.
Qed.

Lemma parse_source_valid (s : string) (sc : pyval) (v : Visualizer) :
  valid_categories sc = true ->
  exists v', parse_source s sc v = (Return tt, v').
Proof.
  unfold valid_categories. destruct sc as [| | | | | | cats]; try discriminate.
  intros H. unfold parse_source, bind at 1, lift at 1. simpl.
  apply for_each_returns. intros [c l] v0 Hin.
  rewrite forallb_forall in H. specialize (H _ Hin). simpl in H.
  destruct l as [| | | | | conns |]; try discriminate.
  unfold bind, lift. simpl.
  apply for_each_returns. intros conn v1 Hc.
  rewrite forallb_forall in H. now apply parse_connection_valid, H.
Qed.

Lemma parse_nodes_valid (d : list (string * pyval)) (v : Visualizer) :
  match dict_get String.eqb "nodes" d with
  | None => true
  | Some (PList recs) => forallb valid_record recs
  | Some _ => false
  end = true ->
  exists v',
    parse_nodes match dict_get String.eqb "nodes" d with
                | Some x => x
                | None => PList []
                end v = (Return tt, v').
Proof.
  unfold parse_nodes, bind, lift.
  destruct (dict_get String.eqb "nodes" d) as [[| | | | | recs |] |];
    try discriminate; simpl; intros H.
  - apply for_each_returns. intros n v0 Hin.
    rewrite forallb_forall in H. now apply parse_node_valid, H.
  - unfold ret. eauto.
Qed.

Lemma parse_connections_valid (d : list (string * pyval)) (v : Visualizer) :
  match dict_get String.eqb "connections" d with
  | None => true
  | Some (PDict srcs) => forallb (fun sc => valid_categories (snd sc)) srcs
  | Some _ => false
  end = true ->
  exists v',
    parse_connections match dict_get String.eqb "connections" d with
                      | Some x => x
                      | None => PDict []
                      end v = (Return tt, v').
Proof.
  unfold parse_connections, bind, lift.
  destruct (dict_get String.eqb "connections" d) as [[| | | | | | srcs] |];
    try discriminate; simpl; intros H.
  - apply for_each_returns. intros [s sc] v0 Hin.
    rewrite forallb_forall in H. apply parse_source_valid. apply (H _ Hin).
  - unfold ret. eauto.
Qed.

(** A valid document is accepted. *)
Lemma build_valid (w : pyval) :
  valid_document w = true -> exists v, build w = (Return tt, v).
Proof.
  unfold valid_document. destruct w as [| | | | | | d]; try discriminate.
  intros H. apply andb_prop in H. destruct H as [Hn Hc].
  destruct (parse_nodes_valid d (init (PDict d)) Hn) as (v1 & H1).
  destruct (parse_connections_valid d v1 Hc) as (v2 & H2).
  exists v2. unfold build, parse_workflow.
  erewrite bind_step by reflexivity.
  erewrite bind_step by reflexivity.
  erewrite bind_step by exact H1.
  erewrite bind_step by reflexivity.
  exact H2.
Qed.

(* ================================================================== *)
(** * The scenario documents *)

(** The scenario document as written makes [parse_workflow] raise: the
    element of the list of [main] is a list, and [connection['node']] is a
    type error; the graph has no edge then. *)
Lemma parse_nested_scenario_raises :
  fst (build doc_T_nested) = Raise TypeError /\
  ~ scenario_graph (graph (snd (build doc_T_nested))).
Proof.
  split; [reflexivity |].
  intros (_ & _ & _ & H). vm_compute in H. discriminate H.
Qed.

(** C1 (amended): with the target directly in the list of the category the
    graph has the vertices ["1"] (label [start]) and ["2"] (label [SetX])
    and the one edge from ["1"] to ["2"] with category [main]; on the
    document as written [parse_workflow] raises a type error after it has
    added both vertices and before it adds an edge. *)
Theorem parse_scenario_graph :
  (exists v, build doc_T_flat = (Return tt, v) /\ scenario_graph (graph v)) /\
  (exists v, build doc_T_nested = (Raise TypeError, v) /\
             vertex_keys (graph v) = [PStr "1"; PStr "2"] /\
             node_attr (graph v) (PStr "1") "label" = Some (PStr "start") /\
             node_attr (graph v) (PStr "2") "label" = Some (PStr "SetX") /\
             edges_data (graph v) = []).
Proof.
  split.
  - eexists. split; [vm_compute; reflexivity |].
    repeat split; reflexivity.
  - eexists. split; [vm_compute; reflexivity |].
    repeat split; reflexivity.
Qed.

(** Without the key [nodes] nothing is raised: [get('nodes', [])] gives
    the empty list, and the graph stays empty. *)
Lemma parse_no_nodes_returns :
  build doc_no_nodes = (Return tt, init doc_no_nodes) /\
  forall e v, build doc_no_nodes <> (Raise e, v).
Proof.
  split; [reflexivity |]. intros e v H. vm_compute in H. discriminate H.
Qed.

Lemma parse_node_missing_id (d : list (string * pyval)) (v : Visualizer) :
  dict_get String.eqb "id" d = None ->
  parse_node (PDict d) v = (Raise (KeyError (PStr "id")), v).
Proof.
  intros H. unfold parse_node, bind, lift. simpl. now rewrite H.
Qed.

Lemma parse_node_missing_type (d : list (string * pyval)) (v : Visualizer) :
  dict_get String.eqb "id" d <> None ->
  dict_get String.eqb "type" d = None ->
  parse_node (PDict d) v = (Raise (KeyError (PStr "type")), v).
Proof.
  intros Hid H. unfold parse_node, bind, lift. simpl.
  destruct (dict_get String.eqb "id" d); [| contradiction]. now rewrite H.
Qed.

Lemma for_each_raise_at {St A : Type} (body : A -> M St unit)
      (pre post : list A) (x : A) (s s1 s2 : St) (e : pyexn) :
  for_each pre body s = (Return tt, s1) ->
  body x s1 = (Raise e, s2) ->
  for_each (pre ++ x :: post) body s = (Raise e, s2).
Proof.
  intros Hpre Hx. rewrite for_each_app.
  erewrite bind_step by eassumption. simpl. now apply bind_raise.
Qed.

Lemma for_each_raise_in {St A : Type} (body : A -> M St unit)
      (pre post : list A) (x : A) :
  (forall s, exists e s', body x s = (Raise e, s')) ->
  forall s, exists e s', for_each (pre ++ x :: post) body s = (Raise e, s').
Proof.
  intros Hx s. rewrite for_each_app. unfold bind at 1.
  destruct (for_each pre body s) as [[[] | e] s1]; [| eauto].
  simpl. destruct (Hx s1) as (e & s' & He). exists e, s'.
  now apply bind_raise.
Qed.

Lemma build_nodes_raise (d : list (string * pyval)) (l : list pyval)
      (e : pyexn) (v : Visualizer) :
  dict_get String.eqb "nodes" d = Some (PList l) ->
  for_each l parse_node (init (PDict d)) = (Raise e, v) ->
  build (PDict d) = (Raise e, v).
Proof.
  intros Hn H. unfold build, parse_workflow, parse_nodes.
  unfold bind at 1, get_state. unfold bind at 1, lift at 1. simpl.
  rewrite Hn. unfold bind at 1. unfold bind at 1, lift at 1. simpl.
  now rewrite H.
Qed.

(** C2 (amended): a node record without [id] or [type] makes
    [parse_workflow] raise, and the exception is the [KeyError] of that key
    when the records before it are added without an exception; a document
    without the key [nodes] is read as one with no node record, so that
    nothing is raised for it and only the connections are added. *)
Theorem parse_missing_keys (d : list (string * pyval)) :
  (forall pre n post,
      dict_get String.eqb "nodes" d = Some (PList (pre ++ PDict n :: post)) ->
      dict_get String.eqb "id" n = None \/ dict_get String.eqb "type" n = None ->
      (exists e v, build (PDict d) = (Raise e, v)) /\
      (forall v1, for_each pre parse_node (init (PDict d)) = (Return tt, v1) ->
                  build (PDict d) = (Raise (KeyError (PStr (missing_key n))), v1))) /\
  (dict_get String.eqb "nodes" d = None ->
   build (PDict d) =
   parse_connections (document_connections (PDict d)) (init (PDict d))).
Proof.
  split.
  - intros pre n post Hn Hmiss.
    assert (Hraise : forall s, parse_node (PDict n) s =
                               (Raise (KeyError (PStr (missing_key n))), s)).
    { intros s. unfold missing_key.
      destruct (dict_get String.eqb "id" n) eqn:Eid.
      - destruct Hmiss as [Hm | Hm]; [discriminate |].
        apply parse_node_missing_type; congruence.
      - now apply parse_node_missing_id. }
    split.
    + destruct (for_each_raise_in parse_node pre post (PDict n)
                  (fun s => ex_intro _ _ (ex_intro _ s (Hraise s)))
                  (init (PDict d))) as (e & v & He).
      exists e, v. now apply (build_nodes_raise d _ e v Hn).
    + intros v1 Hpre. apply (build_nodes_raise d _ _ v1 Hn).
      now apply (for_each_raise_at parse_node pre post (PDict n) _ v1 v1).
  - intros Hn. unfold build, parse_workflow, parse_nodes, document_connections.
    unfold bind at 1, get_state. unfold bind at 1, lift at 1. simpl.
    rewrite Hn. reflexivity.
Qed.

(* ================================================================== *)
(** * Edges *)

Lemma parse_entries_hashable (es : list entry) :
  forall (v v' : Visualizer),
    for_each es parse_entry v = (Return tt, v') ->
    forall e t, In e es -> entry_target e = Some t -> hashable t = true.
Proof.
  induction es as [| e r IH]; intros v v' H e' t Hin Ht; simpl in *.
  - contradiction.
  - apply bind_return in H. destruct H as ([] & v1 & H1 & H2).
    destruct Hin as [<- | Hin]; [| eauto].
    destruct (parse_entry_step _ _ _ H1) as (t0 & Ht0 & Hadd & _).
    rewrite Ht in Ht0. injection Ht0 as <-.
    unfold add_edge in Hadd.
    destruct (touch_node (graph v) _) as [g1 |]; simpl in Hadd; [| discriminate].
    unfold touch_node in Hadd.
    destruct (hashable t); auto. simpl in Hadd. discriminate.
Qed.

Lemma same_edge_eqv (s : string) (t t' : pyval) (e : entry) :
  key_eqb t' t = true -> same_edge s t' e = same_edge s t e.
Proof.
  intros H. unfold same_edge. destruct (entry_target e) as [t0 |]; auto.
  f_equal. destruct (key_eqb t0 t) eqn:E.
  - apply (key_eqb_trans t0 t t'); auto. now rewrite key_eqb_sym.
  - destruct (key_eqb t0 t') eqn:E'; auto.
    now rewrite (key_eqb_trans t0 t' t E' H) in E.
Qed.

(** With two categories for one pair the edge carries the later one: the
    entry of [main] is in the document, and the edge says [error]. *)
Lemma parse_two_categories_overwrites :
  exists v conn,
    build doc_two_categories = (Return tt, v) /\
    In ("1", "main", conn) (connection_entries (document_connections doc_two_categories)) /\
    entry_target ("1", "main", conn) = Some (PStr "2") /\
    edge_attr (graph v) (PStr "1") (PStr "2") "connection_type" = Some (PStr "error") /\
    edge_attr (graph v) (PStr "1") (PStr "2") "connection_type" <> Some (PStr "main").
Proof.
  eexists. exists (PDict [("node", PStr "2")]).
  split; [vm_compute; reflexivity |].
  split; [left; reflexivity |].
  split; [reflexivity |].
  split; [reflexivity | discriminate].
Qed.

(** C3 (amended): when [parse_workflow] returns, every connection of the
    document, from a source [s] under a category [c] to a target [t], has
    its edge from [s] to [t] in the graph, and the category attribute of the
    edge is the category of the last connection of the document from [s] to
    [t]; it is [c] when no later connection joins the same two vertices. *)
Theorem parse_connections_edges (w : pyval) (v : Visualizer)
        (s c : string) (conn t : pyval) :
  build w = (Return tt, v) ->
  In (s, c, conn) (connection_entries (document_connections w)) ->
  entry_target (s, c, conn) = Some t ->
  (exists pre s' c' conn' post,
      connection_entries (document_connections w) = pre ++ (s', c', conn') :: post /\
      same_edge s t (s', c', conn') = true /\
      forallb (fun e => negb (same_edge s t e)) post = true /\
      edge_attr (graph v) (PStr s) t "connection_type" = Some (PStr c')) /\
  (forall pre post,
      connection_entries (document_connections w) = pre ++ (s, c, conn) :: post ->
      forallb (fun e => negb (same_edge s t e)) post = true ->
      edge_attr (graph v) (PStr s) t "connection_type" = Some (PStr c)).
Proof.
  intros Hb Hin Ht.
  destruct (build_return _ _ Hb) as (v1 & H1 & H2).
  destruct (parse_nodes_wf _ (init w) _ wf_empty H1) as [Hwf _].
  pose proof (parse_entries_hashable _ _ _ H2 _ _ Hin Ht) as Hh.
  split.
  - assert (Hex : existsb (same_edge s t)
                    (connection_entries (document_connections w)) = true).
    { apply existsb_exists. exists (s, c, conn). split; auto.
      unfold same_edge. rewrite Ht. simpl.
      now rewrite String.eqb_refl, key_eqb_refl. }
    destruct (last_occurrence _ _ Hex) as (pre & [[s' c'] conn'] & post & Hl & Hx & Hp).
    exists pre, s', c', conn', post. repeat (split; [assumption |]).
    unfold same_edge in Hx. simpl in Hx.
    apply andb_prop in Hx. destruct Hx as [Hs Hx].
    apply String.eqb_eq in Hs. subst s'.
    destruct (entry_target (s, c', conn')) as [t' |] eqn:Ht'; [| discriminate].
    assert (Hp' : forallb (fun e => negb (same_edge s t' e)) post = true).
    { rewrite <- Hp. clear - Hx. induction post as [| e r IH]; simpl; auto.
      now rewrite IH, (same_edge_eqv s t t' e Hx). }
    pose proof (parse_entries_last _ s t' c' _ _ pre post conn' Hwf H2 Hl Ht' Hp')
      as Hlast.
    unfold edge_attr in *.
    rewrite (edge_data_eqv (graph v) (PStr s) (PStr s) t t') in Hlast; auto.
    apply key_eqb_refl. reflexivity.
  - intros pre post Hl Hp.
    exact (parse_entries_last _ s t c _ _ pre post conn Hwf H2 Hl Ht Hp).
Qed.

(* ================================================================== *)
(** * Vertices *)

Lemma dict_mem_existsb {V : Type} (k : pyval) (d : list (pyval * V)) :
  dict_mem key_eqb k d = existsb (key_eqb k) (dict_keys d).
Proof.
  unfold dict_mem. induction d as [| [k1 v1] r IH]; simpl; auto.
  destruct (key_eqb k k1); auto.
Qed.

Lemma record_ids_length (recs ids : list pyval) :
  record_ids recs = Some ids -> List.length ids = List.length recs.
Proof.
  revert ids. induction recs as [| n r IH]; intros ids; simpl.
  - now intros [= <-].
  - destruct (record_id n); [| discriminate].
    destruct (record_ids r); [| discriminate].
    intros [= <-]. simpl. f_equal. now apply IH.
Qed.

(** C5: a valid document is accepted by [parse_workflow]; and for every
    document it accepts, whose node records have pairwise different ids and
    whose connections name only those ids, the vertices of the graph are the
    ids of the records, one vertex per record. *)
Theorem parse_vertices (w : pyval) (ids : list pyval) :
  record_ids (document_nodes w) = Some ids ->
  distinct_keys ids = true ->
  (forall e t, In e (connection_entries (document_connections w)) ->
               entry_target e = Some t ->
               existsb (key_eqb (PStr (fst (fst e)))) ids = true /\
               existsb (key_eqb t) ids = true) ->
  (valid_document w = true -> exists v, build w = (Return tt, v)) /\
  (forall v, build w = (Return tt, v) ->
             vertex_keys (graph v) = ids /\
             number_of_nodes (graph v) = List.length (document_nodes w)).
Proof.
  intros Hids Hd Hconn. split; [apply build_valid |]. intros v Hb.
  destruct (build_return _ _ Hb) as (v1 & H1 & H2).
  destruct (parse_nodes_wf _ (init w) _ wf_empty H1) as [Hwf _].
  pose proof (parse_nodes_keys _ (init w) v1 ids wf_empty H1 Hids Hd) as Hk.
  simpl in Hk.
  destruct (parse_entries_frame _ _ _ Hwf H2) as (_ & _ & _ & _ & (l & Hl & Hnil)).
  rewrite Hnil, app_nil_r in Hl.
  - assert (Hv : vertex_keys (graph v) = ids) by congruence.
    split; [exact Hv |].
    unfold number_of_nodes. unfold vertex_keys, dict_keys in Hv.
    rewrite <- (length_map fst), Hv. now apply record_ids_length.
  - intros e t He Ht. destruct (Hconn e t He Ht) as [Ha Hb'].
    rewrite !has_node_wf by assumption.
    rewrite !dict_mem_existsb. unfold vertex_keys in Hk. rewrite Hk. auto.
Qed.

(* ================================================================== *)
(** * Labels *)

Lemma string_eqb_trans (a b c : string) :
  String.eqb a b = true -> String.eqb b c = true -> String.eqb a c = true.
Proof. rewrite !String.eqb_eq. congruence. Qed.

Lemma sget_set_other (k k' : string) (v : pyval) (d : attrs) :
  String.eqb k k' = false ->
  dict_get String.eqb k (dict_set String.eqb k' v d) = dict_get String.eqb k d.
Proof.
  apply (dict_get_set_other _ _ String.eqb String.eqb_sym string_eqb_trans).
Qed.

Lemma dict_update_label (old : attrs) (l ty p : pyval) :
  dict_get String.eqb "label"
    (dict_update old [("label", l); ("type", ty); ("parameters", p)]) = Some l.
Proof.
  unfold dict_update; simpl.
  rewrite !sget_set_other by reflexivity.
  apply dict_get_set_same. reflexivity.
Qed.

Lemma rev_head_last {A : Type} (l : list A) (d : A) :
  match rev l with x :: _ => x | [] => d end = last l d.
Proof.
  induction l as [| a r IH]; simpl; auto.
  destruct r as [| b r'].
  - reflexivity.
  - rewrite <- IH. simpl. destruct (rev r' ++ [b]) eqn:E; simpl; auto.
    now destruct (rev r'); discriminate.
Qed.

Lemma str_split_last (sep : ascii) (s : string) :
  let seg := last (str_split sep s) EmptyString in
  has_char sep seg = false /\
  ((has_char sep s = false /\ str_split sep s = [s]) \/
   (exists pre, s = (pre ++ String sep seg)%string) /\
   (2 <= List.length (str_split sep s))%nat).
Proof.
  induction s as [| c r IH]; simpl.
  - auto.
  - destruct IH as (Hseg & IH).
    destruct (Ascii.eqb c sep) eqn:Ec.
    + apply Ascii.eqb_eq in Ec. subst c.
      pose proof (str_split_nonempty sep r) as Hne.
      destruct (str_split sep r) as [| h t] eqn:Es; [contradiction |].
      split; [exact Hseg |]. right. split; [| simpl; lia].
      destruct IH as [[Hno Hr] | [[pre Hpre] _]].
      * injection Hr as -> ->. exists EmptyString. reflexivity.
      * exists (String sep pre).
        change (last (EmptyString :: h :: t) EmptyString)
          with (last (h :: t) EmptyString).
        rewrite Hpre at 1. reflexivity.
    + destruct (str_split sep r) as [| h t] eqn:Es.
      * exfalso. now apply (str_split_nonempty sep r).
      * destruct IH as [[Hno Hr] | [[pre Hpre] Hlen]].
        -- injection Hr as -> ->. simpl in *. rewrite Ec, Hseg. simpl.
           split; auto.
        -- destruct t as [| h' t']; [simpl in Hlen; lia |].
           split; [exact Hseg |]. right. split; [| simpl; lia].
           exists (String c pre).
           change (last (String c h :: h' :: t') EmptyString)
             with (last (h :: h' :: t') EmptyString).
           rewrite Hpre at 1. reflexivity.
Qed.

(** [type.split('.')[-1]] is the substring after the last dot. *)
Lemma last_segment_spec (s : string) : after_last "." s (last_segment s).
Proof.
  unfold last_segment, after_last. rewrite rev_head_last.
  destruct (str_split_last "." s) as (Hseg & [[Hno Hs] | [Hpre _]]).
  - split; [exact Hseg |]. left. rewrite Hs. simpl. auto.
  - split; [exact Hseg |]. right. exact Hpre.
Qed.

Lemma parse_node_label (d : list (string * pyval)) (id : pyval)
      (v v' : Visualizer) :
  wf_graph (graph v) ->
  parse_node (PDict d) v = (Return tt, v') ->
  dict_get String.eqb "id" d = Some id ->
  exists ty,
    dict_get String.eqb "type" d = Some (PStr ty) /\
    node_attr (graph v') id "label" =
    Some (match dict_get String.eqb "name" d with
          | Some nm => nm
          | None => PStr (last_segment ty)
          end).
Proof.
  intros Hwf H Hid.
  destruct (parse_node_step _ _ _ Hwf H)
    as (id' & a & Hid' & Ha & _ & _ & _ & _ & (old & Ho) & _).
  simpl in Hid', Ha. rewrite Hid in Hid'. injection Hid' as <-.
  destruct (dict_get String.eqb "type" d) as [[| | | | ty | |] |];
    try discriminate.
  injection Ha as <-. exists ty. split; [reflexivity |].
  unfold node_attr. rewrite Ho. apply dict_update_label.
Qed.

(** C6: the label on the vertex of a node record, when no later record has
    the same id, is the [name] of the record if it has one, and otherwise
    the substring of its [type] after the last dot. *)
Theorem parse_label (w : pyval) (v : Visualizer) (pre post : list pyval)
        (n : list (string * pyval)) (id : pyval) :
  build w = (Return tt, v) ->
  document_nodes w = pre ++ PDict n :: post ->
  dict_get String.eqb "id" n = Some id ->
  (forall m i, In m post -> record_id m = Some i -> key_eqb id i = false) ->
  (forall nm, dict_get String.eqb "name" n = Some nm ->
              node_attr (graph v) id "label" = Some nm) /\
  (dict_get String.eqb "name" n = None ->
   exists ty,
     dict_get String.eqb "type" n = Some (PStr ty) /\
     node_attr (graph v) id "label" = Some (PStr (last_segment ty)) /\
     after_last "." ty (last_segment ty)).
Proof.
  intros Hb Hn Hid Hpost.
  destruct (build_return _ _ Hb) as (v1 & H1 & H2).
  rewrite Hn, for_each_app in H1. apply bind_return in H1.
  destruct H1 as ([] & va & Hpre & H1). simpl in H1.
  apply bind_return in H1. destruct H1 as ([] & vb & Hrec & Hrest).
  destruct (parse_nodes_wf _ (init w) _ wf_empty Hpre) as [Hwfa _].
  destruct (parse_node_label n id va vb Hwfa Hrec Hid) as (ty & Hty & Hlab).
  destruct (parse_node_step _ _ _ Hwfa Hrec) as (_ & _ & _ & _ & _ & Hwfb & _).
  destruct (parse_nodes_other post id vb v1 Hwfb Hrest Hpost)
    as (Hwf1 & _ & Hnode & _).
  destruct (parse_entries_frame _ _ _ Hwf1 H2) as (_ & _ & _ & Hkeep & _).
  assert (Hfinal : node_attr (graph v) id "label" =
                   Some (match dict_get String.eqb "name" n with
                         | Some nm => nm
                         | None => PStr (last_segment ty)
                         end)).
  { unfold node_attr in *. rewrite <- Hnode in Hlab.
    destruct (dict_get key_eqb id (_node (graph v1))) as [x |] eqn:Ex;
      [| discriminate].
    now rewrite (Hkeep id x Ex). }
  split.
  - intros nm Hnm. now rewrite Hnm in Hfinal.
  - intros Hnm. rewrite Hnm in Hfinal. exists ty.
    split; [assumption |]. split; [assumption |]. apply last_segment_spec.
Qed.

(* ================================================================== *)
(** * Coordinates *)

Lemma record_xy_list (d : list (string * pyval)) (x y : pyval) (rest : list pyval) :
  dict_get String.eqb "position" d = Some (PList (x :: y :: rest)) ->
  has_position (PDict d) = true /\
  record_xy (PDict d) = obind (py_neg y) (fun ny => Return (x, ny)).
Proof.
  intros H. unfold has_position, record_xy. simpl. rewrite H. simpl. auto.
Qed.

Lemma parse_record_position (w : pyval) (v : Visualizer) (pre post : list pyval)
      (n : list (string * pyval)) (id : pyval) :
  build w = (Return tt, v) ->
  document_nodes w = pre ++ PDict n :: post ->
  dict_get String.eqb "id" n = Some id ->
  (forall m i, In m (pre ++ post) -> record_id m = Some i -> key_eqb id i = false) ->
  (forall x y rest,
      dict_get String.eqb "position" n = Some (PList (x :: y :: rest)) ->
      exists ny, py_neg y = Return ny /\
                 dict_get key_eqb id (pos v) = Some (x, ny)) /\
  (has_position (PDict n) = false -> dict_get key_eqb id (pos v) = None).
Proof.
  intros Hb Hn Hid Hother.
  destruct (build_return _ _ Hb) as (v1 & H1 & H2).
  rewrite Hn, for_each_app in H1. apply bind_return in H1.
  destruct H1 as ([] & va & Hpre & H1). simpl in H1.
  apply bind_return in H1. destruct H1 as ([] & vb & Hrec & Hrest).
  destruct (parse_nodes_other pre id (init w) va wf_empty Hpre)
    as (Hwfa & _ & _ & Hposa).
  { intros m i Hm. apply Hother. apply in_or_app. now left. }
  destruct (parse_node_step _ _ _ Hwfa Hrec)
    as (id' & a & Hid' & _ & Hh & Hwfb & _ & _ & _ & _ & _ & Hposb).
  simpl in Hid'. rewrite Hid in Hid'. injection Hid' as <-.
  destruct (parse_nodes_other post id vb v1 Hwfb Hrest)
    as (Hwf1 & _ & _ & Hpos1).
  { intros m i Hm. apply Hother. apply in_or_app. now right. }
  destruct (parse_entries_frame _ _ _ Hwf1 H2) as (_ & _ & Hposv & _).
  rewrite Hposv, Hpos1. split.
  - intros x y rest Hp.
    destruct (record_xy_list n x y rest Hp) as [Hhas Hxy].
    rewrite Hhas in Hposb. destruct Hposb as (xy & Hxy' & ->).
    rewrite Hxy in Hxy'. destruct (py_neg y) as [ny |]; [| discriminate].
    injection Hxy' as <-. exists ny. split; [reflexivity |].
    now apply kget_set_same.
  - intros Hhas. rewrite Hhas in Hposb. now rewrite Hposb, Hposa.
Qed.

Lemma py_neg_negated (y ny : pyval) : py_neg y = Return ny -> negated y ny.
Proof.
  destruct y as [| b | z | f | | |]; simpl; try discriminate;
    intros [= <-]; try reflexivity.
  now destruct b.
Qed.

(** C7: for a node record whose id no other record has, a [position] list
    with first components [x] and [y] stores the coordinate [(x, -y)] under
    the id: [-y] is the integer of the opposite sign when [y] is an
    integer, and the float with the sign flipped when [y] is a float.  A
    record without a [position] of length 2 or more stores no
    coordinate. *)
Theorem parse_position (w : pyval) (v : Visualizer) (pre post : list pyval)
        (n : list (string * pyval)) (id : pyval) :
  build w = (Return tt, v) ->
  document_nodes w = pre ++ PDict n :: post ->
  dict_get String.eqb "id" n = Some id ->
  (forall m i, In m (pre ++ post) -> record_id m = Some i -> key_eqb id i = false) ->
  (forall x y rest,
      dict_get String.eqb "position" n = Some (PList (x :: y :: rest)) ->
      exists ny, py_neg y = Return ny /\ negated y ny /\
                 dict_get key_eqb id (pos v) = Some (x, ny)) /\
  (has_position (PDict n) = false -> dict_get key_eqb id (pos v) = None).
Proof.
  intros Hb Hn Hid Hother.
  destruct (parse_record_position w v pre post n id Hb Hn Hid Hother)
    as [Hpos Hnone].
  split; [| exact Hnone].
  intros x y rest Hp. destruct (Hpos x y rest Hp) as (ny & Hny & Hget).
  exists ny. split; [exact Hny |]. split; [| exact Hget].
  now apply py_neg_negated.
Qed.

(* ================================================================== *)
(** * What a run of [draw] calls *)

Section RenderingFacts.
Variable backend : Runtime -> event -> option pyexn.
Variable spring_layout : DiGraph -> posmap.
Variable sub_offset : pyval -> outcome pyval.
Variable str_other : pyval -> string.
Variable I : Visualizer -> Prop.
Variable P : event -> Prop.

Lemma quiet_ret {A : Type} (a : A) : quiet I P (ret a).
Proof. intros rt _. simpl. split; auto. exists []. now rewrite app_nil_r. Qed.

Lemma quiet_lift {A : Type} (c : outcome A) : quiet I P (lift c).
Proof. intros rt _. simpl. split; auto. exists []. now rewrite app_nil_r. Qed.

Lemma quiet_call (c : event) : P c -> quiet I P (call backend c).
Proof.
  intros Hc rt _. unfold call. destruct (backend rt c); simpl; split; auto;
    exists [c]; auto.
Qed.

Lemma quiet_print (s : string) : P (EvPrint s) -> quiet I P (print s).
Proof.
  intros Hc rt _. unfold print. simpl. split; auto. exists [EvPrint s]. auto.
Qed.

Lemma quiet_pos_getitem (k : pyval) : quiet I P (pos_getitem k).
Proof.
  intros rt _. unfold pos_getitem.
  destruct (dict_get key_eqb k (pos (self rt))); simpl; split; auto;
    exists []; now rewrite app_nil_r.
Qed.

Lemma quiet_bind {A B : Type} (c : M Runtime A) (k : A -> M Runtime B) :
  quiet I P c -> (forall a, quiet I P (k a)) -> quiet I P (bind c k).
Proof.
  intros Hc Hk rt Hi. unfold bind. destruct (Hc rt Hi) as (Hs & evs & Ht & Hp).
  destruct (c rt) as [[a | e] rt1]; simpl in *.
  - rewrite <- Hs in Hi. destruct (Hk a rt1 Hi) as (Hs' & evs' & Ht' & Hp').
    split; [congruence |]. exists (evs ++ evs').
    rewrite Ht', Ht, app_assoc. split; auto. apply Forall_app. auto.
  - split; auto. eauto.
Qed.

Lemma quiet_bind_lift {A B : Type} (c : outcome A) (k : A -> M Runtime B) :
  (forall a, c = Return a -> quiet I P (k a)) -> quiet I P (bind (lift c) k).
Proof.
  intros Hk rt Hi. unfold bind, lift. destruct c as [a | e]; simpl.
  - now apply Hk.
  - split; auto. exists []. now rewrite app_nil_r.
Qed.

Lemma quiet_bind_state {B : Type} (k : Runtime -> M Runtime B) :
  (forall rt, I (self rt) -> quiet I P (k rt)) ->
  quiet I P (bind (@get_state Runtime) k).
Proof. intros Hk rt Hi. unfold bind, get_state. now apply Hk. Qed.

Lemma quiet_for_each {A : Type} (xs : list A) (body : A -> M Runtime unit) :
  (forall x, quiet I P (body x)) -> quiet I P (for_each xs body).
Proof.
  intros Hb. induction xs as [| x r IH]; simpl.
  - apply quiet_ret.
  - apply quiet_bind; auto.
Qed.

Hypothesis P_canvas :
  forall e, is_canvas e -> (forall l, e <> EvDrawLabels l) -> P e.
Hypothesis P_labels :
  forall v l, I v -> node_labels (nodes_data (graph v)) = Return l ->
              P (EvDrawLabels l).

Lemma quiet_draw_node (nd : pyval * attrs) :
  quiet I P (draw_node backend sub_offset nd).
Proof.
  unfold draw_node.
  repeat first [ apply quiet_bind; [| intros ?]
               | apply quiet_lift
               | apply quiet_pos_getitem
               | apply quiet_call; apply P_canvas; [reflexivity | discriminate] ].
Qed.

Lemma quiet_draw_canvas :
  quiet I P (draw_canvas backend sub_offset str_other).
Proof.
  unfold draw_canvas.
  apply quiet_bind; [apply quiet_call; apply P_canvas; [reflexivity | discriminate] | intros _].
  apply quiet_bind; [apply quiet_call; apply P_canvas; [reflexivity | discriminate] | intros _].
  apply quiet_bind_state. intros rt Hi.
  apply quiet_bind;
    [apply quiet_for_each; intros ?; apply quiet_draw_node | intros _].
  apply quiet_bind_lift. intros labels Hl.
  apply quiet_bind; [apply quiet_call; now apply (P_labels (self rt)) | intros _].
  repeat first [ apply quiet_bind; [| intros ?]
               | apply quiet_lift
               | apply quiet_call; apply P_canvas; [reflexivity | discriminate] ].
Qed.
End RenderingFacts.

Lemma saved_app (a b : list event) : saved (a ++ b) = saved a ++ saved b.
Proof. unfold saved. now rewrite flat_map_app. Qed.

Lemma saved_canvas (evs : list event) :
  Forall is_canvas evs -> saved evs = [] /\ ~ In EvSpringLayout evs.
Proof.
  induction 1 as [| e r He Hr [Hs Hn]]; simpl; [auto |].
  split.
  - destruct e; try discriminate; simpl; auto.
  - intros [-> | Hin]; [discriminate | auto].
Qed.

Section DrawFacts.
Variable backend : Runtime -> event -> option pyexn.
Variable spring_layout : DiGraph -> posmap.
Variable sub_offset : pyval -> outcome pyval.
Variable str_other : pyval -> string.

Lemma draw_output_events (o : option string) (s : bool) (rt : Runtime) :
  self (snd (draw_output backend o s rt)) = self rt /\
  exists evs,
    trace (snd (draw_output backend o s rt)) = trace rt ++ evs /\
    ~ In EvSpringLayout evs /\ saved evs = save_targets o.
Proof.
  unfold draw_output, bind, call, print, ret.
  destruct o as [[| c r] |]; destruct s; simpl;
    repeat match goal with
           | |- context [backend ?a ?b] => destruct (backend a b); simpl
           end;
    (split; [reflexivity |]);
    rewrite <- ?app_assoc; eexists; (split; [reflexivity |]); simpl;
    (split; [intuition discriminate | reflexivity]).
Qed.

Lemma draw_layout_events (rt : Runtime) :
  graph (self (snd (draw_layout backend spring_layout rt))) = graph (self rt) /\
  workflow (self (snd (draw_layout backend spring_layout rt))) = workflow (self rt) /\
  match pos (self rt) with
  | [] =>
      trace (snd (draw_layout backend spring_layout rt)) =
      trace rt ++ [EvSpringLayout]
  | _ :: _ => draw_layout backend spring_layout rt = (Return tt, rt)
  end.
Proof.
  unfold draw_layout, bind, get_state, call, set_pos, ret.
  destruct (pos (self rt)); simpl; auto.
  destruct (backend rt EvSpringLayout); simpl; auto.
Qed.

(** The calls of a run of [draw]: the layout is computed exactly when no
    coordinate is stored, and [savefig] is called, with the output file,
    only in a run that gets through the canvas. *)
Lemma draw_events (o : option string) (s : bool) (rt : Runtime) :
  exists evs,
    trace (snd (draw backend spring_layout sub_offset str_other o s rt)) =
      trace rt ++ evs /\
    (In EvSpringLayout evs <-> pos (self rt) = []) /\
    (saved evs = [] \/ saved evs = save_targets o) /\
    (fst (draw backend spring_layout sub_offset str_other o s rt) = Return tt ->
     saved evs = save_targets o).
Proof.
  unfold draw, bind.
  destruct (draw_layout_events rt) as (_ & _ & Hl).
  set (evl := match pos (self rt) with [] => [EvSpringLayout] | _ :: _ => [] end).
  assert (Hevl : trace (snd (draw_layout backend spring_layout rt)) = trace rt ++ evl).
  { subst evl. destruct (pos (self rt)); [exact Hl |].
    rewrite Hl. simpl. now rewrite app_nil_r. }
  assert (Hin : In EvSpringLayout evl <-> pos (self rt) = []).
  { subst evl. destruct (pos (self rt)); simpl; split; auto;
      try discriminate; intros []. }
  assert (Hsl : saved evl = []).
  { subst evl. now destruct (pos (self rt)). }
  clearbody evl. clear Hl.
  destruct (draw_layout backend spring_layout rt) as [[[] | e] rt1]; simpl in *.
  - destruct (quiet_draw_canvas backend sub_offset str_other
                (fun _ => True) is_canvas (fun e H _ => H)
                (fun _ l _ _ => eq_refl) rt1 Logic.I)
      as (_ & evc & Hc & Hpc).
    destruct (saved_canvas evc Hpc) as [Hsc Hnc].
    destruct (draw_canvas backend sub_offset str_other rt1)
      as [[[] | e] rt2]; simpl in *.
    + destruct (draw_output_events o s rt2) as (_ & evo & Ho & Hno & Hso).
      exists (evl ++ evc ++ evo).
      rewrite Ho, Hc, Hevl, <- !app_assoc. split; [reflexivity |].
      rewrite !saved_app, Hsl, Hsc, Hso. simpl.
      split; [| auto].
      rewrite <- Hin. rewrite !in_app_iff. tauto.
    + exists (evl ++ evc). rewrite Hc, Hevl, <- app_assoc.
      split; [reflexivity |]. rewrite saved_app, Hsl, Hsc. simpl.
      split; [| split; [auto | discriminate]].
      rewrite <- Hin. rewrite in_app_iff. tauto.
  - exists evl. split; [assumption |]. split; [assumption |].
    split; [auto | discriminate].
Qed.
End DrawFacts.

(* ================================================================== *)
(** * The default output file *)

Lemma rfind_from_none (c : ascii) (s : string) (i : nat) :
  has_char c s = false -> rfind_from i c s = None.
Proof.
  revert i. induction s as [| a r IH]; intros i H; simpl in *; auto.
  apply orb_false_elim in H. destruct H as [Ha Hr].
  now rewrite (IH (S i) Hr), Ha.
Qed.

Lemma rfind_from_last (c : ascii) (a b : string) (i : nat) :
  has_char c b = false ->
  rfind_from i c (a ++ String c b) = Some (i + String.length a).
Proof.
  intros Hb. revert i. induction a as [| x a' IH]; intros i; simpl.
  - rewrite (rfind_from_none c b (S i) Hb), Ascii.eqb_refl.
    now rewrite Nat.add_0_r.
  - rewrite IH. f_equal. lia.
Qed.

Lemma rfind_last (c : ascii) (a b : string) :
  has_char c b = false ->
  rfind c (a ++ String c b) = Z.of_nat (String.length a).
Proof. intros H. unfold rfind. now rewrite (rfind_from_last c a b 0 H). Qed.

Lemma rfind_none (c : ascii) (s : string) :
  has_char c s = false -> rfind c s = (-1)%Z.
Proof. intros H. unfold rfind. now rewrite (rfind_from_none c s 0 H). Qed.

Lemma substring_all (s : string) : substring 0 (String.length s) s = s.
Proof. induction s as [| a r IH]; simpl; auto. now rewrite IH. Qed.

Lemma substring_suffix (a b : string) :
  substring (String.length a) (String.length b) (a ++ b) = b.
Proof.
  induction a as [| x a' IH]; simpl; auto. apply substring_all.
Qed.

Lemma substring_prefix (a b : string) :
  substring 0 (String.length a) (a ++ b) = a.
Proof.
  induction a as [| x a' IH]; simpl.
  - now destruct b.
  - now rewrite IH.
Qed.

Lemma append_length (a b : string) :
  String.length (a ++ b) = String.length a + String.length b.
Proof. induction a as [| x a' IH]; simpl; auto. Qed.

Lemma append_cons_assoc (a : string) (c : ascii) (b : string) :
  (a ++ String c b = (a ++ String c EmptyString) ++ b)%string.
Proof. induction a as [| x a' IH]; simpl; auto. now rewrite IH. Qed.

Lemma str_from_after (a : string) (c : ascii) (b : string) :
  str_from (Z.of_nat (String.length a) + 1) (a ++ String c b) = b.
Proof.
  unfold str_from. rewrite (append_cons_assoc a c b).
  assert (Hlen : String.length (a ++ String c EmptyString) = S (String.length a))
    by (rewrite append_length; simpl; lia).
  set (a' := (a ++ String c EmptyString)%string) in *.
  replace (Z.to_nat (Z.of_nat (String.length a) + 1)) with (String.length a')
    by lia.
  replace (String.length (a' ++ b) - String.length a') with (String.length b)
    by (rewrite append_length; lia).
  apply substring_suffix.
Qed.

(** The last component of a path. *)
Lemma basename_dir (dir name : string) :
  has_char "/" name = false -> basename (dir ++ String "/" name) = name.
Proof.
  intros H. unfold basename. rewrite (rfind_last "/" dir name H).
  apply str_from_after.
Qed.

Lemma basename_plain (name : string) :
  has_char "/" name = false -> basename name = name.
Proof.
  intros H. unfold basename. rewrite (rfind_none "/" name H).
  unfold str_from. simpl. rewrite Nat.sub_0_r. apply substring_all.
Qed.

Lemma has_char_app (c : ascii) (a b : string) :
  has_char c (a ++ b) = has_char c a || has_char c b.
Proof.
  induction a as [| x a' IH]; simpl; auto. now rewrite IH, orb_assoc.
Qed.

(** A file name without its extension, when the name does not start with
    a dot. *)
Lemma splitext_stem (x : ascii) (stem ext : string) :
  Ascii.eqb x "." = false ->
  has_char "/" (String x stem) = false ->
  has_char "/" ext = false -> has_char "." ext = false ->
  fst (splitext (String x stem ++ String "." ext)) = String x stem.
Proof.
  intros Hx Hs He Hd. unfold splitext.
  rewrite (rfind_last "." (String x stem) ext Hd).
  rewrite rfind_none.
  2:{ change (String x stem ++ String "." ext)%string
        with (String x (stem ++ String "." ext)).
      simpl in *. apply orb_false_elim in Hs. destruct Hs as [Hx' Hs].
      rewrite Hx', has_char_app, Hs. simpl. exact He. }
  replace (-1 <? Z.of_nat (String.length (String x stem)))%Z with true
    by (symmetry; apply Z.ltb_lt; lia).
  replace (Z.to_nat (Z.of_nat (String.length (String x stem)) - (-1 + 1)))
    with (S (String.length stem)) by (simpl String.length; lia).
  simpl has_non_dot. rewrite Hx. cbn [andb fst].
  unfold str_upto. rewrite Nat2Z.id. apply substring_prefix.
Qed.

Lemma default_output_stem (dir : string) (x : ascii) (stem ext : string) :
  Ascii.eqb x "." = false ->
  has_char "/" (String x stem) = false ->
  has_char "/" ext = false -> has_char "." ext = false ->
  default_output (dir ++ String "/" (String x stem ++ String "." ext)) =
    (String x stem ++ "_visualization.png")%string /\
  default_output (String x stem ++ String "." ext) =
    (String x stem ++ "_visualization.png")%string.
Proof.
  intros Hx Hs He Hd.
  assert (Hname : has_char "/" (String x stem ++ String "." ext) = false).
  { rewrite has_char_app, Hs. simpl. exact He. }
  unfold default_output.
  rewrite (basename_dir dir _ Hname), (basename_plain _ Hname).
  now rewrite (splitext_stem x stem ext Hx Hs He Hd).
Qed.

(* ================================================================== *)
(** * The entry points *)

Section EntryPoints.
Variable backend : Runtime -> event -> option pyexn.
Variable spring_layout : DiGraph -> posmap.
Variable sub_offset : pyval -> outcome pyval.
Variable str_other : pyval -> string.
Variable path_exists : string -> bool.
Variable load_json : string -> outcome pyval.
Variable str_exn : pyexn -> string.

Local Abbreviation visualize :=
  (visualize_workflow backend spring_layout sub_offset str_other).
Local Abbreviation visualize_file :=
  (visualize_workflow_file backend spring_layout sub_offset str_other load_json).
Local Abbreviation main' :=
  (main backend spring_layout sub_offset str_other path_exists load_json str_exn).

Lemma visualize_workflow_events (data : pyval) (o : option string)
      (s : bool) (tr : list event) :
  exists evs,
    snd (visualize data o s tr) = tr ++ evs /\
    (saved evs = [] \/ saved evs = save_targets o) /\
    (fst (visualize data o s tr) = Return tt -> saved evs = save_targets o).
Proof.
  unfold visualize_workflow, bind, on_self. simpl.
  destruct (parse_workflow (init data)) as [[[] | e] v]; simpl.
  - destruct (draw_events backend spring_layout sub_offset str_other o s
                (mkRuntime v tr)) as (evs & Ht & _ & Hs & Hr).
    destruct (draw backend spring_layout sub_offset str_other o s
                (mkRuntime v tr)) as [r rt]; simpl in *.
    exists evs. auto.
  - exists []. rewrite app_nil_r. repeat split; auto. discriminate.
Qed.

Lemma visualize_file_unfold (f : string) (o : option string) (s : bool)
      (data : pyval) (tr : list event) :
  load_json f = Return data ->
  visualize_file f o s tr =
  visualize data
    (if negb (truthy o) && negb s then Some (default_output f) else o) s tr.
Proof.
  intros H. unfold visualize_workflow_file, bind, lift. now rewrite H.
Qed.

Lemma save_targets_default (f : string) :
  save_targets (Some (default_output f)) = [default_output f].
Proof.
  unfold default_output.
  destruct (fst (splitext (basename f))); reflexivity.
Qed.

(** C9: [visualize_workflow_file] saves to [<basename>_visualization.png]
    when it is given no output file and is not asked to show the figure,
    and in a run that returns it has saved to that file; in every other
    case it saves to the output file it is given or not at all.
    [visualize_workflow] makes up no name: without an output file it
    saves nothing.  The basename is the last component of the path without
    its extension: [flow] for [flow.json] and for [dir/flow.json]. *)
Theorem default_output_file (f : string) (o : option string) (show : bool)
        (data : pyval) :
  load_json f = Return data ->
  let run := visualize_file f o show [] in
  (truthy o = false -> show = false ->
     (saved (snd run) = [] \/ saved (snd run) = [default_output f]) /\
     (fst run = Return tt -> saved (snd run) = [default_output f])) /\
  (truthy o = true \/ show = true ->
     (saved (snd run) = [] \/ saved (snd run) = save_targets o) /\
     (fst run = Return tt -> saved (snd run) = save_targets o)) /\
  (forall d s, saved (snd (visualize d None s [])) = []) /\
  default_output "flow.json" = "flow_visualization.png" /\
  (forall dir x stem ext,
      Ascii.eqb x "." = false ->
      has_char "/" (String x stem) = false ->
      has_char "/" ext = false -> has_char "." ext = false ->
      default_output (dir ++ String "/" (String x stem ++ String "." ext)) =
        (String x stem ++ "_visualization.png")%string /\
      default_output (String x stem ++ String "." ext) =
        (String x stem ++ "_visualization.png")%string).
Proof.
  intros Hload run. subst run.
  rewrite (visualize_file_unfold f o show data [] Hload).
  split; [| split; [| split; [| split]]].
  - intros Ho Hs. rewrite Ho, Hs. simpl.
    destruct (visualize_workflow_events data (Some (default_output f)) false [])
      as (evs & Ht & Hsv & Hr).
    simpl in Ht. rewrite Ht. rewrite save_targets_default in *. auto.
  - intros Hcase.
    assert (Hsel : (if negb (truthy o) && negb show
                    then Some (default_output f) else o) = o).
    { destruct Hcase as [-> | ->]; simpl; auto. now rewrite andb_false_r. }
    rewrite Hsel.
    destruct (visualize_workflow_events data o show []) as (evs & Ht & Hsv & Hr).
    simpl in Ht. rewrite Ht. auto.
  - intros d s.
    destruct (visualize_workflow_events d None s []) as (evs & Ht & Hsv & _).
    simpl in Ht. rewrite Ht. destruct Hsv; auto.
  - reflexivity.
  - intros dir x stem ext. apply default_output_stem.
Qed.

(** C8: when the input file does not exist [main] prints an error that
    contains the path and exits with status 1, and nothing else is done;
    when the visualization raises an exception [e] it prints
    [Error visualizing workflow: ] followed by [str(e)] and exits with
    status 1; otherwise it exits with status 0. *)
Theorem main_exit_status (args : Args) :
  let f := arg_workflow_file args in
  let run := visualize_file f (arg_output args) (negb (arg_no_show args)) [] in
  (path_exists f = false ->
     main' args = ([EvPrint ("Error: File '" ++ f ++ "' not found")], 1%Z) /\
     contains ("Error: File '" ++ f ++ "' not found") f) /\
  (path_exists f = true ->
     forall e, fst run = Raise e ->
     main' args =
     (snd run ++ [EvPrint ("Error visualizing workflow: " ++ str_exn e)], 1%Z)) /\
  (path_exists f = true -> fst run = Return tt -> main' args = (snd run, 0%Z)).
Proof.
  intros f run. subst f run. unfold main.
  destruct (path_exists (arg_workflow_file args)); simpl.
  - split; [discriminate |].
    destruct (visualize_file _ _ _ []) as [[[] | e] tr]; simpl;
      split; intros _; try discriminate; auto.
    now intros e' [= <-].
  - split; [| split; discriminate]. intros _. split; [reflexivity |].
    exists "Error: File '", "' not found". reflexivity.
Qed.
End EntryPoints.

(* ================================================================== *)
(** * The graph [parse_workflow] hands to [draw] *)




Lemma record_attrs_shape (n : pyval) (a : attrs) :
  record_attrs n = Some a ->
  exists l ty p, a = [("label", l); ("type", PStr ty); ("parameters", p)].
Proof.
  unfold record_attrs. destruct n; try discriminate.
  destruct (dict_get String.eqb "type" d) as [[| | | | ty | |] |];
    try discriminate.
  intros [= <-]. eauto.
Qed.







(* ================================================================== *)
(** * Drawing a graph with a vertex that has no coordinate *)


Section DrawFailure.
Variable backend : Runtime -> event -> option pyexn.
Variable spring_layout : DiGraph -> posmap.
Variable sub_offset : pyval -> outcome pyval.
Variable str_other : pyval -> string.

Local Abbreviation draw_node' := (draw_node backend sub_offset).
Local Abbreviation draw' := (draw backend spring_layout sub_offset str_other).




Hypothesis backend_quiet : forall rt c, backend rt c = None.
Hypothesis sub_offset_total : forall y, exists y', sub_offset y = Return y'.




End DrawFailure.

Section PartialPositions.
Variable backend : Runtime -> event -> option pyexn.
Variable spring_layout : DiGraph -> posmap.
Variable sub_offset : pyval -> outcome pyval.
Variable str_other : pyval -> string.

Local Abbreviation draw' := (draw backend spring_layout sub_offset str_other).



End PartialPositions.

(* ================================================================== *)
(** * The labels [draw] hands to the library *)

Section DrawLabels.
Variable backend : Runtime -> event -> option pyexn.
Variable spring_layout : DiGraph -> posmap.
Variable sub_offset : pyval -> outcome pyval.
Variable str_other : pyval -> string.

Lemma quiet_draw_output (o : option string) (s : bool) :
  quiet (fun _ => True) is_output (draw_output backend o s).
Proof.
  unfold draw_output.
  apply quiet_bind.
  - destruct o as [[| c r] |]; try apply quiet_ret.
    apply quiet_bind; [apply quiet_call; exact Logic.I | intros _].
    apply quiet_print. exact Logic.I.
  - intros _. destruct s; apply quiet_call; exact Logic.I.
Qed.

(** Every call of [nx.draw_networkx_labels] in a run of [draw] gets the
    [label] attributes as they are stored on the vertices. *)
Lemma draw_labels_stored (o : option string) (s : bool) (rt : Runtime)
      (l : list (pyval * pyval)) :
  In (EvDrawLabels l)
     (trace (snd (draw backend spring_layout sub_offset str_other o s rt))) ->
  In (EvDrawLabels l) (trace rt) \/
  node_labels (nodes_data (graph (self rt))) = Return l.
Proof.
  unfold draw, bind.
  destruct (draw_layout_events backend spring_layout rt) as (Hg & _ & Hl).
  assert (Hlay : In (EvDrawLabels l)
                    (trace (snd (draw_layout backend spring_layout rt))) ->
                 In (EvDrawLabels l) (trace rt)).
  { destruct (pos (self rt)).
    - rewrite Hl, in_app_iff. intros [H | [H | []]]; [auto | discriminate].
    - now rewrite Hl. }
  clear Hl.
  destruct (draw_layout backend spring_layout rt) as [[[] | e] rt1];
    simpl in *; [| auto].
  destruct (quiet_draw_canvas backend sub_offset str_other
              (fun v => graph v = graph (self rt))
              (labels_ok (graph (self rt)))
              (fun e _ Hn l' E => False_ind _ (Hn l' E))
              (fun v l' Hv Hl' l'' E =>
                 ltac:(injection E as <-; rewrite <- Hv; exact Hl'))
              rt1 Hg) as (Hs1 & evc & Hc & Hpc).
  assert (Hcan : In (EvDrawLabels l)
                    (trace (snd (draw_canvas backend sub_offset str_other rt1))) ->
                 In (EvDrawLabels l) (trace rt) \/
                 node_labels (nodes_data (graph (self rt))) = Return l).
  { rewrite Hc, in_app_iff. intros [H | H]; [auto |].
    right. rewrite Forall_forall in Hpc. now apply (Hpc _ H). }
  destruct (draw_canvas backend sub_offset str_other rt1) as [[[] | e] rt2];
    simpl in *; [| auto].
  destruct (quiet_draw_output o s rt2 Logic.I) as (_ & evo & Ho & Hpo).
  rewrite Ho, in_app_iff. intros [H | H]; [auto |].
  rewrite Forall_forall in Hpo. destruct (Hpo _ H).
Qed.
End DrawLabels.

(* ================================================================== *)
(** * Long labels *)

(** [_get_node_label] cuts a string of more than 20 characters to its
    first 18 and three dots, and returns a shorter one as it is. *)
Lemma get_node_label_string (str_other : pyval -> string) (a : attrs) (s : string) :
  dict_get String.eqb "label" a = Some (PStr s) ->
  _get_node_label str_other (PDict a) =
  Return (PStr (if (20 <? String.length s)%nat
                then substring 0 18 s ++ "..."
                else s)).
Proof.
  intros H. unfold _get_node_label. simpl. rewrite H. simpl.
  now destruct (20 <? String.length s)%nat.
Qed.

(** C4: [draw] never calls [_get_node_label].  For the node named
    [Send weekly summary email] the labels handed to
    [nx.draw_networkx_labels] hold the 25 characters of the stored label,
    whatever the plotting library does, where [_get_node_label] would give
    [Send weekly summar...]. *)
Theorem draw_labels_not_truncated
        (backend : Runtime -> event -> option pyexn)
        (spring_layout : DiGraph -> posmap)
        (sub_offset : pyval -> outcome pyval)
        (str_other : pyval -> string) :
  node_attr (graph (snd (build doc_long_label))) (PStr "1") "label" =
    Some (PStr long_label) /\
  String.length long_label = 25 /\
  _get_node_label str_other (PDict [("label", PStr long_label)]) =
    Return (PStr "Send weekly summar...") /\
  (forall labels,
      In (EvDrawLabels labels)
         (snd (visualize_workflow backend spring_layout sub_offset str_other
                 doc_long_label None false [])) ->
      labels = [(PStr "1", PStr long_label)]) /\
  In (EvDrawLabels [(PStr "1", PStr long_label)])
     (snd (visualize_workflow (fun _ _ => None) spring_layout
             (fun y => Return y) str_other doc_long_label None false [])).
Proof.
  split; [reflexivity |]. split; [reflexivity |]. split; [reflexivity |].
  split.
  - intros labels.
    unfold visualize_workflow, bind, on_self. simpl.
    pose proof (draw_labels_stored backend spring_layout sub_offset str_other
                  None false
                  (mkRuntime (snd (build doc_long_label)) []) labels) as H.
    simpl in H.
    destruct (draw _ _ _ _ _ _ _) as [r rt]. simpl in *.
    intros Hin. destruct (H Hin) as [[] | E]. now injection E as <-.
  - vm_compute. intuition.
Qed.

(* ================================================================== *)
(** * The theorems at concrete documents *)

Lemma parse_missing_keys_witness :
  build doc_missing_id = (Raise (KeyError (PStr "id")), init doc_missing_id).
Proof.
  destruct (parse_missing_keys
              [("nodes", PList [PDict [("type", PStr "n8n-nodes-base.set")]])])
    as [H _].
  destruct (H [] [("type", PStr "n8n-nodes-base.set")] [] eq_refl
              (or_introl eq_refl)) as [_ H2].
  exact (H2 (init doc_missing_id) eq_refl).
Defined.

Lemma parse_connections_edges_witness :
  edge_attr (graph (snd (build doc_two_categories))) (PStr "1") (PStr "2")
            "connection_type" = Some (PStr "error").
Proof.
  refine (proj2 (parse_connections_edges doc_two_categories
                   (snd (build doc_two_categories)) "1" "error"
                   (PDict [("node", PStr "2")]) (PStr "2") _ _ _)
                [("1", "main", PDict [("node", PStr "2")])] [] _ _).
  - vm_compute. reflexivity.
  - simpl. right. left. reflexivity.
  - reflexivity.
  - reflexivity.
  - reflexivity.
Defined.

Lemma parse_vertices_witness :
  (exists v, build doc_T_flat = (Return tt, v)) /\
  vertex_keys (graph (snd (build doc_T_flat))) = [PStr "1"; PStr "2"] /\
  number_of_nodes (graph (snd (build doc_T_flat))) = 2.
Proof.
  destruct (parse_vertices doc_T_flat [PStr "1"; PStr "2"]) as [Hret Hv].
  - reflexivity.
  - reflexivity.
  - simpl. intros e t [<- | []] [= <-]. split; reflexivity.
  - split; [exact (Hret eq_refl) |].
    apply (Hv (snd (build doc_T_flat))). vm_compute. reflexivity.
Defined.

Lemma parse_label_witness :
  node_attr (graph (snd (build doc_T_flat))) (PStr "1") "label" = Some (PStr "start") /\
  node_attr (graph (snd (build doc_T_flat))) (PStr "2") "label" = Some (PStr "SetX").
Proof.
  split.
  - destruct (parse_label doc_T_flat (snd (build doc_T_flat)) []
                [PDict [("id", PStr "2"); ("type", PStr "n8n-nodes-base.set");
                        ("name", PStr "SetX")]]
                [("id", PStr "1"); ("type", PStr "n8n-nodes-base.start");
                 ("position", PList [PInt 0; PInt 0])]
                (PStr "1")) as [_ H].
    + vm_compute. reflexivity.
    + reflexivity.
    + reflexivity.
    + simpl. intros m i [<- | []] [= <-]. reflexivity.
    + destruct (H eq_refl) as (ty & Hty & Hl & _).
      injection Hty as <-. exact Hl.
  - destruct (parse_label doc_T_flat (snd (build doc_T_flat))
                [PDict [("id", PStr "1"); ("type", PStr "n8n-nodes-base.start");
                        ("position", PList [PInt 0; PInt 0])]]
                []
                [("id", PStr "2"); ("type", PStr "n8n-nodes-base.set");
                 ("name", PStr "SetX")]
                (PStr "2")) as [H _].
    + vm_compute. reflexivity.
    + reflexivity.
    + reflexivity.
    + simpl. intros m i [].
    + exact (H (PStr "SetX") eq_refl).
Defined.

Lemma parse_position_witness :
  dict_get key_eqb (PStr "1") (pos (snd (build doc_positions))) =
    Some (PInt 100, PInt (-200)) /\
  dict_get key_eqb (PStr "2") (pos (snd (build doc_positions))) = None.
Proof.
  split.
  - destruct (parse_position doc_positions (snd (build doc_positions)) []
                [PDict [("id", PStr "2"); ("type", PStr "n8n-nodes-base.set")]]
                [("id", PStr "1"); ("type", PStr "n8n-nodes-base.start");
                 ("position", PList [PInt 100; PInt 200])]
                (PStr "1")) as [H _].
    + vm_compute. reflexivity.
    + reflexivity.
    + reflexivity.
    + simpl. intros m i [<- | []] [= <-]. reflexivity.
    + destruct (H (PInt 100) (PInt 200) [] eq_refl) as (ny & _ & Hny & Hp).
      simpl in Hny. rewrite Hny in Hp. exact Hp.
  - destruct (parse_position doc_positions (snd (build doc_positions))
                [PDict [("id", PStr "1"); ("type", PStr "n8n-nodes-base.start");
                        ("position", PList [PInt 100; PInt 200])]]
                []
                [("id", PStr "2"); ("type", PStr "n8n-nodes-base.set")]
                (PStr "2")) as [_ H].
    + vm_compute. reflexivity.
    + reflexivity.
    + reflexivity.
    + simpl. intros m i [<- | []] [= <-]. reflexivity.
    + exact (H eq_refl).
Defined.

Lemma main_exit_status_witness :
  main quiet_backend no_layout same_ordinate no_str no_file load_nothing exn_name
       (mkArgs "missing.json" None true) =
    ([EvPrint "Error: File 'missing.json' not found"], 1%Z) /\
  main quiet_backend no_layout same_ordinate no_str any_file load_nothing exn_name
       (mkArgs "missing.json" None true) =
    ([EvPrint "Error visualizing workflow: missing.json"], 1%Z) /\
  snd (main quiet_backend no_layout same_ordinate no_str any_file load_flow
            exn_name (mkArgs "flow.json" None true)) = 0%Z.
Proof.
  split; [| split].
  - destruct (main_exit_status quiet_backend no_layout same_ordinate no_str
                no_file load_nothing exn_name (mkArgs "missing.json" None true))
      as [H _].
    exact (proj1 (H eq_refl)).
  - destruct (main_exit_status quiet_backend no_layout same_ordinate no_str
                any_file load_nothing exn_name (mkArgs "missing.json" None true))
      as (_ & H & _).
    exact (H eq_refl (OSError "missing.json") eq_refl).
  - destruct (main_exit_status quiet_backend no_layout same_ordinate no_str
                any_file load_flow exn_name (mkArgs "flow.json" None true))
      as (_ & _ & H).
    rewrite (H eq_refl eq_refl). reflexivity.
Defined.

Lemma default_output_file_witness :
  saved (snd (visualize_workflow_file quiet_backend no_layout same_ordinate no_str
                load_flow "flow.json" None false [])) =
    ["flow_visualization.png"] /\
  saved (snd (visualize_workflow_file quiet_backend no_layout same_ordinate no_str
                load_flow "flow.json" (Some "out.png") false [])) =
    ["out.png"].
Proof.
  split.
  - destruct (default_output_file quiet_backend no_layout same_ordinate no_str
                load_flow "flow.json" None false doc_flow eq_refl)
      as (H & _).
    destruct (H eq_refl eq_refl) as [_ H2]. exact (H2 eq_refl).
  - destruct (default_output_file quiet_backend no_layout same_ordinate no_str
                load_flow "flow.json" (Some "out.png") false doc_flow eq_refl)
      as (_ & H & _).
    destruct (H (or_introl eq_refl)) as [_ H2]. exact (H2 eq_refl).
Defined.

(* ================================================================== *)
(** * The vertices of any accepted document *)

Lemma has_node_existsb (g : DiGraph) (n : pyval) :
  wf_graph g -> has_node g n = existsb (key_eqb n) (vertex_keys g).
Proof.
  intros H. rewrite (has_node_wf g n H). apply dict_mem_existsb.
Qed.

Lemma add_edge_keys (g g' : DiGraph) (u v : pyval) (a : attrs) :
  wf_graph g ->
  add_edge g u v a = (Return tt, g') ->
  vertex_keys g' = nub_add (nub_add (vertex_keys g) u) v.
Proof.
  intros Hwf. unfold add_edge.
  destruct (touch_node g u) as [g1 |] eqn:E1; [| discriminate].
  destruct (touch_node g1 v) as [g2 |] eqn:E2; [| discriminate].
  destruct (touch_node_spec _ _ u Hwf E1) as (_ & Hwf1 & Hk1 & _).
  destruct (touch_node_spec _ _ v Hwf1 E2) as (_ & _ & Hk2 & _).
  intros [= <-]. unfold vertex_keys in *; simpl.
  rewrite Hk2, Hk1. unfold nub_add.
  rewrite (has_node_existsb g1 v Hwf1), (has_node_existsb g u Hwf).
  unfold vertex_keys. rewrite Hk1, (has_node_existsb g u Hwf).
  reflexivity.
Qed.

Lemma parse_nodes_nub (recs : list pyval) :
  forall (v v' : Visualizer),
    wf_graph (graph v) ->
    for_each recs parse_node v = (Return tt, v') ->
    exists ids,
      record_ids recs = Some ids /\
      vertex_keys (graph v') = fold_left nub_add ids (vertex_keys (graph v)).
Proof.
  induction recs as [| n r IH]; intros v v' Hwf H; simpl in *.
  - injection H as <-. exists []. auto.
  - apply bind_return in H. destruct H as ([] & v1 & H1 & H2).
    destruct (parse_node_step _ _ _ Hwf H1)
      as (id & a & Hid & _ & _ & Hwf1 & _ & Hk & _).
    destruct (IH _ _ Hwf1 H2) as (ids & Hids & Hkeys).
    exists (id :: ids). rewrite Hid, Hids. split; [reflexivity |].
    simpl. rewrite Hkeys, Hk. unfold nub_add at 2.
    now rewrite (has_node_existsb _ id Hwf).
Qed.

Lemma parse_entries_nub (es : list entry) :
  forall (v v' : Visualizer),
    wf_graph (graph v) ->
    for_each es parse_entry v = (Return tt, v') ->
    vertex_keys (graph v') = fold_left nub_add (endpoints es) (vertex_keys (graph v)).
Proof.
  induction es as [| e r IH]; intros v v' Hwf H; simpl in H.
  - now injection H as <-.
  - apply bind_return in H. destruct H as ([] & v1 & H1 & H2).
    destruct (parse_entry_step _ _ _ H1) as (t & Ht & Hadd & _).
    destruct (add_edge_spec _ _ _ _ _ Hwf Hadd) as (_ & _ & Hwf1 & _).
    rewrite (IH _ _ Hwf1 H2), (add_edge_keys _ _ _ _ _ Hwf Hadd).
    change (endpoints (e :: r))
      with (match entry_target e with
            | Some t => [PStr (fst (fst e)); t]
            | None => []
            end ++ endpoints r).
    rewrite Ht. reflexivity.
Qed.

Lemma nub_add_length (ks : list pyval) (k : pyval) :
  List.length (nub_add ks k) <= S (List.length ks).
Proof.
  unfold nub_add. destruct (existsb (key_eqb k) ks); [lia |].
  rewrite length_app. simpl. lia.
Qed.

Lemma fold_nub_length (l ks : list pyval) :
  List.length (fold_left nub_add l ks) <= List.length ks + List.length l.
Proof.
  revert ks. induction l as [| k r IH]; intros ks; simpl; [lia |].
  pose proof (IH (nub_add ks k)). pose proof (nub_add_length ks k). lia.
Qed.

Lemma endpoints_length (es : list entry) :
  List.length (endpoints es) <= 2 * List.length es.
Proof.
  induction es as [| e r IH]; simpl; [lia |].
  unfold endpoints in *. simpl. rewrite length_app.
  destruct (entry_target e); simpl; lia.
Qed.

(** X1: whatever the document, when [parse_workflow] returns the vertices
    of the graph are the ids of the records followed by the sources and
    targets of the connections, each kept at its first occurrence only; so
    records with one id share a vertex, and a connection to an unknown id
    makes a vertex.  There are at most N + 2 E vertices for N records and
    E connections. *)
Theorem parse_vertex_keys (w : pyval) (v : Visualizer) :
  build w = (Return tt, v) ->
  exists ids,
    record_ids (document_nodes w) = Some ids /\
    vertex_keys (graph v) =
      fold_left nub_add
        (ids ++ endpoints (connection_entries (document_connections w))) [] /\
    number_of_nodes (graph v) <=
      List.length (document_nodes w) +
      2 * List.length (connection_entries (document_connections w)).
Proof.
  intros Hb. destruct (build_return _ _ Hb) as (v1 & H1 & H2).
  destruct (parse_nodes_wf _ (init w) _ wf_empty H1) as [Hwf _].
  destruct (parse_nodes_nub _ (init w) v1 wf_empty H1) as (ids & Hids & Hk1).
  pose proof (parse_entries_nub _ _ _ Hwf H2) as Hk2.
  exists ids. split; [exact Hids |].
  assert (Hkeys : vertex_keys (graph v) =
                  fold_left nub_add
                    (ids ++ endpoints (connection_entries (document_connections w)))
                    []).
  { rewrite fold_left_app, Hk2, Hk1. reflexivity. }
  split; [exact Hkeys |].
  unfold number_of_nodes.
  replace (List.length (_node (graph v)))
    with (List.length (vertex_keys (graph v)))
    by (unfold vertex_keys, dict_keys; apply length_map).
  rewrite Hkeys.
  pose proof (fold_nub_length
                (ids ++ endpoints (connection_entries (document_connections w))) []).
  pose proof (endpoints_length (connection_entries (document_connections w))).
  pose proof (record_ids_length _ _ Hids).
  rewrite length_app in H. simpl in H. lia.
Qed.

Lemma parse_vertex_keys_witness :
  vertex_keys (graph (snd (build doc_dangling))) =
    [PStr "1"; PStr "2"; PStr "9"].
Proof.
  destruct (parse_vertex_keys doc_dangling (snd (build doc_dangling)))
    as (ids & Hids & Hk & _).
  - vm_compute. reflexivity.
  - injection Hids as <-. rewrite Hk. reflexivity.
Defined.

(* ================================================================== *)
(** * The attributes and the coordinates the records leave *)

Lemma dict_set_new {K V : Type} (keq : K -> K -> bool) (k : K) (v : V)
      (d : list (K * V)) :
  dict_mem keq k d = false -> dict_set keq k v d = d ++ [(k, v)].
Proof.
  unfold dict_mem. induction d as [| [k1 v1] r IH]; simpl; auto.
  destruct (keq k k1); [discriminate |]. intros H. now rewrite IH.
Qed.

Lemma dict_set_in {K V : Type} (keq : K -> K -> bool) (k k' : K) (v v' : V)
      (d : list (K * V)) :
  In (k', v') (dict_set keq k v d) ->
  In (k', v') d \/
  (v' = v /\ (k' = k \/ (keq k k' = true /\ exists v0, In (k', v0) d))).
Proof.
  induction d as [| [k1 v1] r IH]; simpl.
  - intros [[= <- <-] | []]. auto.
  - destruct (keq k k1) eqn:E; simpl.
    + intros [[= <- <-] | H]; [| auto].
      right. split; auto. right. split; auto. exists v1. auto.
    + intros [H | H]; [auto |].
      destruct (IH H) as [H1 | (-> & [-> | (Hk & v0 & Hv0)])]; auto.
      right. split; auto. right. split; auto. exists v0. auto.
Qed.

Lemma add_node_fresh (g g' : DiGraph) (n : pyval) (a : attrs) :
  wf_graph g ->
  dict_get key_eqb n (_node g) = None ->
  add_node g n a = Return g' ->
  dict_get key_eqb n (_node g') = Some (dict_update [] a).
Proof.
  intros Hwf Hnone. unfold add_node.
  destruct (hashable n) eqn:Hh; simpl; [| discriminate].
  rewrite (has_node_wf g n Hwf). unfold dict_mem. rewrite Hnone.
  destruct (check_node n); simpl; [| discriminate].
  intros [= <-]. simpl. now apply kget_set_same.
Qed.

(** X2: for a node record whose id no other record has, the vertex carries
    exactly the three attributes of the [add_node] call, in this order: the
    label, the [type] of the record, and its [parameters], or an empty
    dictionary when it has none. *)
Theorem parse_attributes (w : pyval) (v : Visualizer) (pre post : list pyval)
        (n : list (string * pyval)) (id : pyval) :
  build w = (Return tt, v) ->
  document_nodes w = pre ++ PDict n :: post ->
  dict_get String.eqb "id" n = Some id ->
  (forall m i, In m (pre ++ post) -> record_id m = Some i -> key_eqb id i = false) ->
  exists ty,
    dict_get String.eqb "type" n = Some (PStr ty) /\
    dict_get key_eqb id (_node (graph v)) =
      Some [ ("label", match dict_get String.eqb "name" n with
                       | Some nm => nm
                       | None => PStr (last_segment ty)
                       end);
             ("type", PStr ty);
             ("parameters", match dict_get String.eqb "parameters" n with
                            | Some p => p
                            | None => PDict []
                            end) ].
Proof.
  intros Hb Hn Hid Hother.
  destruct (build_return _ _ Hb) as (v1 & H1 & H2).
  rewrite Hn, for_each_app in H1. apply bind_return in H1.
  destruct H1 as ([] & va & Hpre & H1). simpl in H1.
  apply bind_return in H1. destruct H1 as ([] & vb & Hrec & Hrest).
  destruct (parse_nodes_other pre id (init w) va wf_empty Hpre)
    as (Hwfa & _ & Hnodea & _).
  { intros m i Hm. apply Hother. apply in_or_app. now left. }
  simpl in Hnodea.
  destruct (parse_node_return _ _ _ Hrec) as (id' & a & Hid' & Ha & Hadd & _).
  simpl in Hid'. rewrite Hid in Hid'. injection Hid' as <-.
  pose proof (add_node_fresh _ _ _ _ Hwfa Hnodea Hadd) as Hnew.
  destruct (parse_node_step _ _ _ Hwfa Hrec) as (_ & _ & _ & _ & _ & Hwfb & _).
  destruct (parse_nodes_other post id vb v1 Hwfb Hrest)
    as (Hwf1 & _ & Hnode1 & _).
  { intros m i Hm. apply Hother. apply in_or_app. now right. }
  destruct (parse_entries_frame _ _ _ Hwf1 H2) as (_ & _ & _ & Hkeep & _).
  simpl in Ha.
  destruct (dict_get String.eqb "type" n) as [[| | | | ty | |] |];
    try discriminate.
  injection Ha as <-. exists ty. split; [reflexivity |].
  apply Hkeep. rewrite Hnode1. exact Hnew.
Qed.

Lemma parse_attributes_witness :
  dict_get key_eqb (PStr "2") (_node (graph (snd (build doc_T_flat)))) =
    Some [("label", PStr "SetX"); ("type", PStr "n8n-nodes-base.set");
          ("parameters", PDict [])].
Proof.
  destruct (parse_attributes doc_T_flat (snd (build doc_T_flat))
              [PDict [("id", PStr "1"); ("type", PStr "n8n-nodes-base.start");
                      ("position", PList [PInt 0; PInt 0])]]
              []
              [("id", PStr "2"); ("type", PStr "n8n-nodes-base.set");
               ("name", PStr "SetX")]
              (PStr "2")) as (ty & Hty & H).
  - vm_compute. reflexivity.
  - reflexivity.
  - reflexivity.
  - simpl. intros m i [<- | []] [= <-]. reflexivity.
  - injection Hty as <-. exact H.
Defined.

Lemma parse_nodes_pos (recs : list pyval) :
  forall (done : list pyval) (v v' : Visualizer),
    wf_graph (graph v) ->
    for_each recs parse_node v = (Return tt, v') ->
    pos_from done v -> pos_from (done ++ recs) v'.
Proof.
  induction recs as [| n r IH]; intros done v v' Hwf H Hinv; simpl in H.
  - injection H as <-. now rewrite app_nil_r.
  - apply bind_return in H. destruct H as ([] & v1 & H1 & H2).
    destruct (parse_node_step _ _ _ Hwf H1)
      as (id & a & Hid & _ & Hh & Hwf1 & _ & _ & (old & Ho) & Hoth & _ & Hpos).
    assert (Hmem : forall k, dict_mem key_eqb k (_node (graph v)) = true ->
                             dict_mem key_eqb k (_node (graph v1)) = true).
    { intros k Hk. destruct (key_eqb k id) eqn:Ek.
      - rewrite (kmem_eqv k id _ Ek). unfold dict_mem. now rewrite Ho.
      - unfold dict_mem in *. now rewrite Hoth. }
    assert (Hid_mem : dict_mem key_eqb id (_node (graph v1)) = true)
      by (unfold dict_mem; now rewrite Ho).
    replace (done ++ n :: r) with ((done ++ [n]) ++ r)
      by (now rewrite <- app_assoc).
    apply (IH (done ++ [n]) v1 v' Hwf1 H2).
    intros k xy Hin.
    assert (Hold : In (k, xy) (pos v) ->
                   dict_mem key_eqb k (_node (graph v1)) = true /\
                   exists n0 id0,
                     In n0 (done ++ [n]) /\ record_id n0 = Some id0 /\
                     key_eqb id0 k = true /\
                     has_position n0 = true /\ record_xy n0 = Return xy).
    { intros Hk. destruct (Hinv k xy Hk) as (Hm & n0 & id0 & Hn0 & Hrest).
      split; [auto |]. exists n0, id0. split; [| exact Hrest].
      apply in_or_app. now left. }
    destruct (has_position n) eqn:Hhas.
    + destruct Hpos as (xy0 & Hxy0 & Hp). rewrite Hp in Hin.
      destruct (dict_set_in key_eqb id k xy0 xy (pos v) Hin)
        as [Hk | (-> & Hk)]; [auto |].
      assert (Heq : key_eqb id k = true).
      { destruct Hk as [-> | [Hk _]]; [now apply key_eqb_refl | exact Hk]. }
      split.
      * rewrite key_eqb_sym in Heq. now rewrite (kmem_eqv k id _ Heq).
      * exists n, id. split; [apply in_or_app; right; now left |]. auto.
    + rewrite Hpos in Hin. auto.
Qed.

Lemma record_xy_negated (n : pyval) (xy : pyval * pyval) :
  record_xy n = Return xy ->
  exists d x y rest ny,
    n = PDict d /\
    dict_get String.eqb "position" d = Some (PList (x :: y :: rest)) /\
    negated y ny /\ xy = (x, ny).
Proof.
  unfold record_xy.
  destruct n as [| | | | | | d]; try discriminate.
  cbn [py_getitem_str].
  destruct (dict_get String.eqb "position" d) as [p |] eqn:Hd;
    [| discriminate].
  cbn [obind].
  destruct (py_getitem_int p 0) as [x |] eqn:E0; [| discriminate].
  destruct (py_getitem_int p 1) as [y |] eqn:E1; [| discriminate].
  cbn [obind].
  destruct (py_neg y) as [ny |] eqn:Ey; [| discriminate].
  intros [= <-]. exists d, x, y.
  destruct p as [| | | | s | l |]; try discriminate.
  - simpl in E1. destruct (String.get 1 s); [| discriminate].
    injection E1 as <-. discriminate.
  - destruct l as [| x' [| y' rest]]; try discriminate.
    simpl in E0, E1. injection E0 as <-. injection E1 as <-.
    exists rest, ny. repeat split; auto. now apply py_neg_negated.
Qed.

(** X3: when [parse_workflow] returns, every key of [self.pos] is a vertex
    of the graph, and its coordinate is the [(x, -y)] of a node record with
    that id whose position is a list that starts with [x] and [y]: the
    ordinate is the integer of the opposite sign, or the float with the
    sign flipped.  Connections store no coordinate. *)
Theorem parse_pos_keys (w : pyval) (v : Visualizer) (k : pyval)
        (xy : pyval * pyval) :
  build w = (Return tt, v) ->
  In (k, xy) (pos v) ->
  dict_mem key_eqb k (_node (graph v)) = true /\
  exists n id d x y rest ny,
    In n (document_nodes w) /\ record_id n = Some id /\
    key_eqb id k = true /\ n = PDict d /\
    dict_get String.eqb "position" d = Some (PList (x :: y :: rest)) /\
    negated y ny /\ xy = (x, ny).
Proof.
  intros Hb Hin. destruct (build_return _ _ Hb) as (v1 & H1 & H2).
  destruct (parse_nodes_wf _ (init w) _ wf_empty H1) as [Hwf _].
  assert (H0 : pos_from [] (init w)) by (intros k0 xy0 []).
  pose proof (parse_nodes_pos _ [] (init w) v1 wf_empty H1 H0) as Hinv.
  simpl in Hinv.
  destruct (parse_entries_frame _ _ _ Hwf H2) as (_ & _ & Hpos & Hkeep & _).
  rewrite Hpos in Hin.
  destruct (Hinv k xy Hin) as (Hm & n & id & Hn & Hid & Hk & _ & Hxy).
  split.
  - unfold dict_mem in *.
    destruct (dict_get key_eqb k (_node (graph v1))) as [x |] eqn:Ex;
      [| discriminate].
    now rewrite (Hkeep k x Ex).
  - destruct (record_xy_negated n xy Hxy) as (d & x & y & rest & ny & Hd & Hp & Hny & E).
    exists n, id, d, x, y, rest, ny. repeat split; assumption.
Qed.

Lemma parse_pos_keys_witness :
  dict_mem key_eqb (PStr "1") (_node (graph (snd (build doc_positions)))) = true /\
  exists n id d x y rest ny,
    In n (document_nodes doc_positions) /\ record_id n = Some id /\
    key_eqb id (PStr "1") = true /\ n = PDict d /\
    dict_get String.eqb "position" d = Some (PList (x :: y :: rest)) /\
    negated y ny /\ (PInt 100, PInt (-200)) = (x, ny).
Proof.
  apply (parse_pos_keys doc_positions (snd (build doc_positions))
           (PStr "1") (PInt 100, PInt (-200))).
  - vm_compute. reflexivity.
  - simpl. left. reflexivity.
Defined.

(* ================================================================== *)
(** * The edges of the graph come from the connections *)

Lemma edge_from_more (es es' : list entry) (u t : pyval) (d : attrs) :
  (forall e, In e es -> In e es') -> edge_from es u t d -> edge_from es' u t d.
Proof.
  intros Hsub (s & c & conn & t' & Hin & Hrest).
  exists s, c, conn, t'. auto.
Qed.

Lemma edge_from_eqv (es : list entry) (u u' t : pyval) (d : attrs) :
  key_eqb u' u = true -> edge_from es u t d -> edge_from es u' t d.
Proof.
  intros Hu (s & c & conn & t' & Hin & Ht & Hs & Hrest).
  exists s, c, conn, t'. repeat split; try tauto.
  exact (key_eqb_trans _ _ _ Hu Hs).
Qed.

Lemma touch_node_adj (g g' : DiGraph) (n : pyval) :
  touch_node g n = Return g' ->
  forall u nbrs, In (u, nbrs) (_adj g') -> In (u, nbrs) (_adj g) \/ nbrs = [].
Proof.
  unfold touch_node. destruct (hashable n); simpl; [| discriminate].
  destruct (has_node g n) eqn:Hn.
  - intros [= <-]. auto.
  - destruct (check_node n); simpl; [| discriminate].
    intros [= <-] u nbrs. simpl.
    unfold has_node in Hn. rewrite (dict_set_new key_eqb n [] _ Hn).
    rewrite in_app_iff. intros [H | [[= <- <-] | []]]; auto.
Qed.

Lemma add_node_adj (g g' : DiGraph) (n : pyval) (a : attrs) :
  add_node g n a = Return g' ->
  forall u nbrs, In (u, nbrs) (_adj g') -> In (u, nbrs) (_adj g) \/ nbrs = [].
Proof.
  unfold add_node. destruct (hashable n); simpl; [| discriminate].
  destruct (has_node g n) eqn:Hn.
  - intros [= <-]. auto.
  - destruct (check_node n); simpl; [| discriminate].
    intros [= <-] u nbrs. simpl.
    unfold has_node in Hn. rewrite (dict_set_new key_eqb n [] _ Hn).
    rewrite in_app_iff. intros [H | [[= <- <-] | []]]; auto.
Qed.

Lemma edges_from_adj (es : list entry) (g g' : DiGraph) :
  (forall u nbrs, In (u, nbrs) (_adj g') -> In (u, nbrs) (_adj g) \/ nbrs = []) ->
  edges_from es g -> edges_from es g'.
Proof.
  intros Hadj H u nbrs t d Hu Ht.
  destruct (Hadj u nbrs Hu) as [Hg | ->]; [eauto | contradiction].
Qed.

Lemma add_edge_adj (g g' : DiGraph) (u v : pyval) (a : attrs) :
  add_edge g u v a = (Return tt, g') ->
  exists g1 g2,
    touch_node g u = Return g1 /\ touch_node g1 v = Return g2 /\
    _node g' = _node g2 /\
    _adj g' =
      dict_set key_eqb u
        (dict_set key_eqb v
           (dict_update match dict_get key_eqb v (nbrs_of g2 u) with
                        | Some x => x
                        | None => []
                        end a)
           (nbrs_of g2 u))
        (_adj g2).
Proof.
  unfold add_edge.
  destruct (touch_node g u) as [g1 |] eqn:E1; [| discriminate].
  destruct (touch_node g1 v) as [g2 |] eqn:E2; [| discriminate].
  intros [= <-]. exists g1, g2. repeat split; auto.
Qed.

Lemma add_edge_from (es : list entry) (g g' : DiGraph) (s c : string)
      (conn t' : pyval) :
  entry_target (s, c, conn) = Some t' ->
  add_edge g (PStr s) t' [("connection_type", PStr c)] = (Return tt, g') ->
  edges_from es g -> edges_from (es ++ [(s, c, conn)]) g'.
Proof.
  intros Ht Hadd Hinv.
  destruct (add_edge_adj _ _ _ _ _ Hadd) as (g1 & g2 & E1 & E2 & _ & Hadj).
  assert (Hinv2 : edges_from es g2).
  { apply (edges_from_adj es g1 g2 (touch_node_adj _ _ _ E2)).
    apply (edges_from_adj es g g1 (touch_node_adj _ _ _ E1)). exact Hinv. }
  assert (Hsub : forall e, In e es -> In e (es ++ [(s, c, conn)]))
    by (intros e He; apply in_or_app; now left).
  assert (Hh : hashable t' = true).
  { unfold touch_node in E2. destruct (hashable t'); auto. discriminate. }
  assert (Hnbrs : forall t d, In (t, d) (nbrs_of g2 (PStr s)) ->
                              edge_from es (PStr s) t d).
  { unfold nbrs_of. intros t d Hin.
    destruct (dict_get key_eqb (PStr s) (_adj g2)) as [l |] eqn:El;
      [| contradiction].
    apply dict_get_some_key in El. destruct El as (k' & Hk' & Heq).
    apply (edge_from_eqv es k' (PStr s) t d Heq).
    exact (Hinv2 k' l t d Hk' Hin). }
  assert (Hnew : dict_update match dict_get key_eqb t' (nbrs_of g2 (PStr s)) with
                             | Some x => x
                             | None => []
                             end [("connection_type", PStr c)] =
                 [("connection_type", PStr c)]).
  { destruct (dict_get key_eqb t' (nbrs_of g2 (PStr s))) as [old |] eqn:Eo;
      [| reflexivity].
    apply dict_get_some_key in Eo. destruct Eo as (k' & Hk' & _).
    destruct (Hnbrs k' old Hk') as (_ & c0 & _ & _ & _ & _ & _ & _ & ->).
    reflexivity. }
  rewrite Hnew in Hadj.
  intros u nb t d Hu Hin. rewrite Hadj in Hu.
  destruct (dict_set_in key_eqb (PStr s) u _ nb (_adj g2) Hu)
    as [Hold | (-> & Hk)].
  - apply (edge_from_more es _ u t d Hsub). exact (Hinv2 u nb t d Hold Hin).
  - assert (Heq : key_eqb u (PStr s) = true).
    { destruct Hk as [-> | [Hk _]]; [now apply key_eqb_refl |].
      now rewrite key_eqb_sym. }
    destruct (dict_set_in key_eqb t' t _ d _ Hin) as [Hold | (-> & Hk')].
    + apply (edge_from_more es _ u t d Hsub).
      apply (edge_from_eqv es (PStr s) u t d Heq). now apply Hnbrs.
    + exists s, c, conn, t'. split; [apply in_or_app; right; now left |].
      split; [exact Ht |]. split; [exact Heq |]. split; [| reflexivity].
      destruct Hk' as [-> | [Hk' _]]; [now apply key_eqb_refl |].
      now rewrite key_eqb_sym.
Qed.

Lemma parse_entries_from (es : list entry) :
  forall (done : list entry) (v v' : Visualizer),
    for_each es parse_entry v = (Return tt, v') ->
    edges_from done (graph v) -> edges_from (done ++ es) (graph v').
Proof.
  induction es as [| e r IH]; intros done v v' H Hinv; simpl in H.
  - injection H as <-. now rewrite app_nil_r.
  - apply bind_return in H. destruct H as ([] & v1 & H1 & H2).
    destruct (parse_entry_step _ _ _ H1) as (t & Ht & Hadd & _).
    replace (done ++ e :: r) with ((done ++ [e]) ++ r)
      by (now rewrite <- app_assoc).
    apply (IH (done ++ [e]) v1 v' H2).
    destruct e as [[s c] conn]. simpl in *.
    exact (add_edge_from done _ _ s c conn t Ht Hadd Hinv).
Qed.

Lemma parse_nodes_no_edge (recs : list pyval) :
  forall (v v' : Visualizer),
    for_each recs parse_node v = (Return tt, v') ->
    edges_from [] (graph v) -> edges_from [] (graph v').
Proof.
  induction recs as [| n r IH]; intros v v' H Hinv; simpl in H.
  - now injection H as <-.
  - apply bind_return in H. destruct H as ([] & v1 & H1 & H2).
    destruct (parse_node_return _ _ _ H1) as (id & a & _ & _ & Hadd & _).
    apply (IH v1 v' H2).
    exact (edges_from_adj [] _ _ (add_node_adj _ _ _ _ Hadd) Hinv).
Qed.

(** X4: the graph has no edge but those of the connections: every edge
    [G.edges(data=True)] gives joins the source and the target of a
    connection of the document, and its data is the category of a
    connection and nothing else. *)
Theorem parse_edges_sound (w : pyval) (v : Visualizer) (u t : pyval) (d : attrs) :
  build w = (Return tt, v) ->
  In (u, t, d) (edges_data (graph v)) ->
  edge_from (connection_entries (document_connections w)) u t d.
Proof.
  intros Hb Hin. destruct (build_return _ _ Hb) as (v1 & H1 & H2).
  assert (H0 : edges_from [] (graph (init w))) by (intros u0 nb t0 d0 []).
  pose proof (parse_nodes_no_edge _ _ _ H1 H0) as Hn.
  pose proof (parse_entries_from _ [] _ _ H2 Hn) as He. simpl in He.
  unfold edges_data in Hin. apply in_flat_map in Hin.
  destruct Hin as ([u0 nb] & Hu & Hin). apply in_map_iff in Hin.
  destruct Hin as ([t0 d0] & [= <- <- <-] & Ht).
  exact (He u0 nb t0 d0 Hu Ht).
Qed.

Lemma parse_edges_sound_witness :
  edge_from (connection_entries (document_connections doc_two_categories))
            (PStr "1") (PStr "2") [("connection_type", PStr "error")].
Proof.
  apply (parse_edges_sound doc_two_categories
           (snd (build doc_two_categories))).
  - vm_compute. reflexivity.
  - simpl. left. reflexivity.
Defined.

(* ================================================================== *)
(** * A connection to an id that no record has *)

Lemma touch_node_attrs (g g' : DiGraph) (n k : pyval) :
  wf_graph g ->
  touch_node g n = Return g' ->
  (dict_get key_eqb k (_node g) = None ->
   dict_get key_eqb k (_node g') =
     if key_eqb k n then Some [] else None) /\
  (forall x, dict_get key_eqb k (_node g) = Some x ->
             dict_get key_eqb k (_node g') = Some x).
Proof.
  intros Hwf H.
  destruct (touch_node_spec _ _ _ Hwf H) as (Hh & _ & _ & _ & Hkeep & _).
  split; [| apply Hkeep].
  intros Hnone. unfold touch_node in H. rewrite Hh in H. simpl in H.
  rewrite (has_node_wf g n Hwf) in H.
  destruct (key_eqb k n) eqn:Ek.
  - rewrite (kmem_eqv n k (_node g)) in H by (now rewrite key_eqb_sym).
    unfold dict_mem in H. rewrite Hnone in H.
    destruct (check_node n); simpl in H; [| discriminate].
    injection H as <-. simpl.
    rewrite (kget_eqv k n _ Ek). now apply kget_set_same.
  - destruct (dict_mem key_eqb n (_node g)).
    + now injection H as <-.
    + destruct (check_node n); simpl in H; [| discriminate].
      injection H as <-. simpl. now rewrite kget_set_other.
Qed.

Lemma parse_entries_bare (es : list entry) (k : pyval) :
  forall (v v' : Visualizer),
    wf_graph (graph v) ->
    for_each es parse_entry v = (Return tt, v') ->
    (dict_get key_eqb k (_node (graph v)) = None ->
     dict_get key_eqb k (_node (graph v')) =
       if existsb (touches k) es then Some [] else None) /\
    (dict_get key_eqb k (_node (graph v)) = Some [] ->
     dict_get key_eqb k (_node (graph v')) = Some []).
Proof.
  induction es as [| e r IH]; intros v v' Hwf H; simpl in H.
  - injection H as <-. simpl. auto.
  - apply bind_return in H. destruct H as ([] & v1 & H1 & H2).
    destruct (parse_entry_step _ _ _ H1) as (t & Ht & Hadd & _).
    destruct (add_edge_spec _ _ _ _ _ Hwf Hadd) as (_ & _ & Hwf1 & _).
    destruct (add_edge_adj _ _ _ _ _ Hadd) as (g1 & g2 & E1 & E2 & Hnode & _).
    destruct (touch_node_spec _ _ _ Hwf E1) as (_ & Hwfg1 & _).
    destruct (touch_node_attrs (graph v) g1 _ k Hwf E1) as [Hn1 Hs1].
    destruct (touch_node_attrs g1 g2 _ k Hwfg1 E2) as [Hn2 Hs2].
    destruct (IH v1 v' Hwf1 H2) as [IHn IHs].
    rewrite Hnode in IHn, IHs.
    split.
    + intros Hnone. specialize (Hn1 Hnone). simpl.
      unfold touches at 1. rewrite Ht.
      destruct (key_eqb k (PStr (fst (fst e)))) eqn:Eu; simpl.
      * apply IHs. now apply Hs2.
      * specialize (Hn2 Hn1). destruct (key_eqb k t); simpl; auto.
    + intros Hsome. apply IHs. apply Hs2. now apply Hs1.
Qed.

Lemma node_labels_raise (nds : list (pyval * attrs)) :
  existsb (fun nd => negb (dict_mem String.eqb "label" (snd nd))) nds = true ->
  node_labels nds = Raise (KeyError (PStr "label")).
Proof.
  induction nds as [| [n d] r IH]; simpl; [discriminate |].
  unfold dict_mem. destruct (dict_get String.eqb "label" d); simpl; auto.
  intros H. now rewrite (IH H).
Qed.

Lemma vertex_calls_saved (evs : list event) :
  Forall is_vertex_call evs ->
  saved evs = [] /\ forall l, ~ In (EvDrawLabels l) evs.
Proof.
  induction 1 as [| e r [He Hl] Hr [Hs Hn]]; simpl; [auto |].
  split.
  - destruct e; try discriminate; simpl; auto.
  - intros l [-> | Hin]; [now apply (Hl l) | now apply (Hn l)].
Qed.

Section DrawUnlabelled.
Variable backend : Runtime -> event -> option pyexn.
Variable spring_layout : DiGraph -> posmap.
Variable sub_offset : pyval -> outcome pyval.
Variable str_other : pyval -> string.

Local Abbreviation draw' := (draw backend spring_layout sub_offset str_other).

Lemma draw_canvas_unlabelled (rt : Runtime) :
  existsb (fun nd => negb (dict_mem String.eqb "label" (snd nd)))
          (nodes_data (graph (self rt))) = true ->
  (exists e, fst (draw_canvas backend sub_offset str_other rt) = Raise e) /\
  exists evs,
    trace (snd (draw_canvas backend sub_offset str_other rt)) = trace rt ++ evs /\
    Forall is_vertex_call evs.
Proof.
  intros Hex. pose proof (node_labels_raise _ Hex) as Hlab.
  assert (Hf : is_vertex_call EvFigure) by (split; [reflexivity | discriminate]).
  assert (He : is_vertex_call EvDrawEdges) by (split; [reflexivity | discriminate]).
  unfold draw_canvas, bind, call, get_state.
  destruct (backend rt EvFigure); simpl.
  { split; [eauto |]. exists [EvFigure]. auto. }
  destruct (backend _ EvDrawEdges); simpl.
  { split; [eauto |]. exists [EvFigure; EvDrawEdges].
    rewrite <- app_assoc. auto. }
  destruct (quiet_for_each (fun _ => True) is_vertex_call
              (nodes_data (graph (self rt))) (draw_node backend sub_offset)
              (fun nd => quiet_draw_node backend sub_offset (fun _ => True)
                           is_vertex_call (fun e Hc Hl => conj Hc Hl) nd)
              {| self := self rt;
                 trace := (trace rt ++ [EvFigure]) ++ [EvDrawEdges] |} Logic.I)
    as (Hs & evs & Ht & Hp).
  destruct (for_each _ _ _) as [[[] | e] rt1]; simpl in *.
  - unfold lift. rewrite Hlab. simpl. split; [eauto |].
    exists ([EvFigure; EvDrawEdges] ++ evs).
    rewrite Ht, <- !app_assoc. split; [reflexivity |].
    apply Forall_app. auto.
  - split; [eauto |]. exists ([EvFigure; EvDrawEdges] ++ evs).
    rewrite Ht, <- !app_assoc. split; [reflexivity |].
    apply Forall_app. auto.
Qed.

(** When a vertex has no [label], [draw] raises before it calls
    [nx.draw_networkx_labels] or [plt.savefig]. *)
Lemma draw_unlabelled (o : option string) (s : bool) (rt : Runtime) :
  existsb (fun nd => negb (dict_mem String.eqb "label" (snd nd)))
          (nodes_data (graph (self rt))) = true ->
  (exists e, fst (draw' o s rt) = Raise e) /\
  exists evs,
    trace (snd (draw' o s rt)) = trace rt ++ evs /\
    saved evs = [] /\ forall l, ~ In (EvDrawLabels l) evs.
Proof.
  intros Hex. unfold draw, bind.
  destruct (draw_layout_events backend spring_layout rt) as (Hg & _ & Hl).
  assert (Hlay : exists evl,
            trace (snd (draw_layout backend spring_layout rt)) = trace rt ++ evl /\
            saved evl = [] /\ forall l, ~ In (EvDrawLabels l) evl).
  { destruct (pos (self rt)).
    - exists [EvSpringLayout]. split; [exact Hl |]. split; [reflexivity |].
      intros l [H | []]. discriminate.
    - exists []. rewrite Hl, app_nil_r. simpl. auto. }
  clear Hl. destruct Hlay as (evl & Htl & Hsl & Hnl).
  destruct (draw_layout backend spring_layout rt) as [[[] | e] rt1];
    simpl in *; [| split; eauto].
  rewrite <- Hg in Hex.
  destruct (draw_canvas_unlabelled rt1 Hex) as ((e & He) & evs & Ht & Hp).
  destruct (vertex_calls_saved evs Hp) as [Hs Hn].
  destruct (draw_canvas backend sub_offset str_other rt1) as [[[] | e'] rt2];
    simpl in *; [discriminate |].
  split; [eauto |]. exists (evl ++ evs).
  rewrite Ht, Htl, <- app_assoc. split; [reflexivity |].
  rewrite saved_app, Hsl, Hs. split; [reflexivity |].
  intros l Hin. apply in_app_or in Hin. destruct Hin; [now apply (Hnl l) | now apply (Hn l)].
Qed.

(** X5: a connection whose source or target is the id of no node record
    is accepted by [parse_workflow], which makes a vertex without
    attributes for it; [draw] then raises, whatever the plotting library
    does, before it draws a label or saves a file. *)
Theorem draw_dangling_reference (w : pyval) (v : Visualizer) (k : pyval)
        (tr : list event) (o : option string) (s : bool) :
  build w = (Return tt, v) ->
  existsb (touches k) (connection_entries (document_connections w)) = true ->
  (forall n id, In n (document_nodes w) -> record_id n = Some id ->
                key_eqb k id = false) ->
  dict_get key_eqb k (_node (graph v)) = Some [] /\
  (exists e, fst (draw' o s (mkRuntime v tr)) = Raise e) /\
  exists evs,
    trace (snd (draw' o s (mkRuntime v tr))) = tr ++ evs /\
    saved evs = [] /\ forall l, ~ In (EvDrawLabels l) evs.
Proof.
  intros Hb Hk Hother.
  destruct (build_return _ _ Hb) as (v1 & H1 & H2).
  destruct (parse_nodes_other _ k (init w) v1 wf_empty H1 Hother)
    as (Hwf & _ & Hnode & _).
  simpl in Hnode.
  destruct (parse_entries_bare _ k _ _ Hwf H2) as [Hbare _].
  specialize (Hbare Hnode). rewrite Hk in Hbare.
  split; [exact Hbare |].
  apply (draw_unlabelled o s (mkRuntime v tr)). simpl.
  apply dict_get_some_key in Hbare. destruct Hbare as (k' & Hin & _).
  apply existsb_exists. exists (k', []). split; [exact Hin | reflexivity].
Qed.
End DrawUnlabelled.

Lemma draw_dangling_reference_witness :
  dict_get key_eqb (PStr "9") (_node (graph (snd (build doc_dangling)))) = Some [] /\
  exists e,
    fst (draw quiet_backend no_layout same_ordinate no_str None false
           (mkRuntime (snd (build doc_dangling)) [])) = Raise e.
Proof.
  destruct (draw_dangling_reference quiet_backend no_layout same_ordinate no_str
              doc_dangling (snd (build doc_dangling)) (PStr "9") [] None false)
    as (H1 & H2 & _).
  - vm_compute. reflexivity.
  - reflexivity.
  - simpl. intros n id [<- | [<- | [<- | []]]] [= <-]; reflexivity.
  - split; [exact H1 | exact H2].
Defined.

(* ================================================================== *)
(** * The calls of a run of [draw] that returns *)

Section DrawReturns.
Variable backend : Runtime -> event -> option pyexn.
Variable spring_layout : DiGraph -> posmap.
Variable sub_offset : pyval -> outcome pyval.
Variable str_other : pyval -> string.

Local Abbreviation draw' := (draw backend spring_layout sub_offset str_other).

Lemma call_return (c : event) (rt rt' : Runtime) :
  call backend c rt = (Return tt, rt') ->
  rt' = mkRuntime (self rt) (trace rt ++ [c]).
Proof.
  unfold call. destruct (backend rt c); [discriminate |]. now intros [= <-].
Qed.

Lemma draw_node_return (nd : pyval * attrs) (rt rt' : Runtime) :
  draw_node backend sub_offset nd rt = (Return tt, rt') ->
  exists evs,
    vertex_calls sub_offset (pos (self rt)) nd = Return evs /\
    rt' = mkRuntime (self rt) (trace rt ++ evs).
Proof.
  unfold draw_node. intros H.
  apply bind_return in H. destruct H as (ty & rt1 & H1 & H).
  apply lift_return in H1. destruct H1 as [Hty ->].
  apply bind_return in H. destruct H as (color & rt2 & H2 & H).
  apply lift_return in H2. destruct H2 as [Hcolor ->].
  apply bind_return in H. destruct H as ([] & rt3 & H3 & H).
  apply call_return in H3. subst rt3.
  apply bind_return in H. destruct H as (xy & rt4 & H4 & H).
  unfold pos_getitem in H4. cbn [self trace] in H4.
  destruct (dict_get key_eqb (fst nd) (pos (self rt))) as [xy0 |] eqn:Ep;
    [| discriminate].
  injection H4 as <- <-.
  apply bind_return in H. destruct H as (xy' & rt5 & H5 & H).
  unfold pos_getitem in H5. cbn [self trace] in H5. rewrite Ep in H5.
  injection H5 as <- <-.
  apply bind_return in H. destruct H as (y & rt6 & H6 & H).
  apply lift_return in H6. destruct H6 as [Hy ->].
  apply bind_return in H. destruct H as (segs & rt7 & H7 & H).
  apply lift_return in H7. destruct H7 as [Hsegs ->].
  apply bind_return in H. destruct H as (s & rt8 & H8 & H).
  apply lift_return in H8. destruct H8 as [Hs ->].
  apply call_return in H. subst rt'. cbn [self trace].
  exists [EvDrawNode (fst nd) color; EvText (fst xy0) y s]. split.
  - unfold vertex_calls, obind. now rewrite Hty, Hcolor, Ep, Hy, Hsegs, Hs.
  - now rewrite <- app_assoc.
Qed.

Lemma for_each_draw_node_return (nds : list (pyval * attrs)) :
  forall rt rt',
    for_each nds (draw_node backend sub_offset) rt = (Return tt, rt') ->
    exists calls,
      Forall2 (fun nd evs => vertex_calls sub_offset (pos (self rt)) nd = Return evs)
              nds calls /\
      rt' = mkRuntime (self rt) (trace rt ++ List.concat calls).
Proof.
  induction nds as [| nd r IH]; intros rt rt' H; simpl in H.
  - injection H as <-. exists []. split; [constructor |].
    simpl. rewrite app_nil_r. now destruct rt.
  - apply bind_return in H. destruct H as ([] & rt1 & H1 & H2).
    destruct (draw_node_return _ _ _ H1) as (evs & Hevs & ->).
    destruct (IH _ _ H2) as (calls & Hcalls & ->). simpl in *.
    exists (evs :: calls). split; [now constructor |].
    simpl. now rewrite <- app_assoc.
Qed.

Lemma draw_layout_return (rt rt' : Runtime) :
  draw_layout backend spring_layout rt = (Return tt, rt') ->
  rt' = mkRuntime
          (mkVisualizer (workflow (self rt)) (graph (self rt))
             (drawing_pos spring_layout (self rt)))
          (trace rt ++ layout_calls (pos (self rt))).
Proof.
  unfold draw_layout, drawing_pos, layout_calls, bind, get_state, call,
    set_pos, ret.
  destruct (pos (self rt)) eqn:Ep; simpl.
  - destruct (backend rt EvSpringLayout); [discriminate |]. simpl.
    now intros [= <-].
  - intros [= <-]. rewrite app_nil_r, <- Ep. now destruct rt as [[? ? ?] ?].
Qed.

Lemma draw_canvas_return (rt rt' : Runtime) :
  draw_canvas backend sub_offset str_other rt = (Return tt, rt') ->
  exists calls labels name,
    Forall2 (fun nd evs => vertex_calls sub_offset (pos (self rt)) nd = Return evs)
            (nodes_data (graph (self rt))) calls /\
    node_labels (nodes_data (graph (self rt))) = Return labels /\
    py_get (workflow (self rt)) "name" (PStr "Untitled") = Return name /\
    rt' = mkRuntime (self rt)
            (trace rt ++ [EvFigure; EvDrawEdges] ++ List.concat calls ++
             [EvDrawLabels labels;
              EvDrawEdgeLabels (edge_labels_of (edges_data (graph (self rt))));
              EvTitle ("Workflow: " ++ py_str str_other name);
              EvAxisOff; EvTightLayout]).
Proof.
  unfold draw_canvas. intros H.
  apply bind_return in H. destruct H as ([] & rt1 & H1 & H).
  apply call_return in H1. subst rt1.
  apply bind_return in H. destruct H as ([] & rt2 & H2 & H).
  apply call_return in H2. subst rt2. simpl in H.
  apply bind_return in H. destruct H as (rt0 & rt3 & H3 & H).
  unfold get_state in H3. injection H3 as <- <-. simpl in H.
  apply bind_return in H. destruct H as ([] & rt4 & H4 & H).
  destruct (for_each_draw_node_return _ _ _ H4) as (calls & Hcalls & ->).
  simpl in Hcalls, H.
  apply bind_return in H. destruct H as (labels & rt5 & H5 & H).
  apply lift_return in H5. destruct H5 as [Hlab ->].
  apply bind_return in H. destruct H as ([] & rt6 & H6 & H).
  apply call_return in H6. subst rt6. simpl in H.
  apply bind_return in H. destruct H as ([] & rt7 & H7 & H).
  apply call_return in H7. subst rt7. simpl in H.
  apply bind_return in H. destruct H as (name & rt8 & H8 & H).
  apply lift_return in H8. destruct H8 as [Hname ->].
  apply bind_return in H. destruct H as ([] & rt9 & H9 & H).
  apply call_return in H9. subst rt9. simpl in H.
  apply bind_return in H. destruct H as ([] & rt10 & H10 & H).
  apply call_return in H10. subst rt10. simpl in H.
  apply call_return in H. subst rt'. simpl.
  exists calls, labels, name. repeat (split; [assumption |]).
  f_equal. rewrite <- !app_assoc. reflexivity.
Qed.

Lemma draw_output_return (o : option string) (s : bool) (rt rt' : Runtime) :
  draw_output backend o s rt = (Return tt, rt') ->
  rt' = mkRuntime (self rt) (trace rt ++ output_calls o s).
Proof.
  unfold draw_output, output_calls, bind, call, print, ret.
  destruct o as [[| c r] |]; destruct s; simpl;
    repeat match goal with
           | |- context [backend ?a ?b] => destruct (backend a b); simpl
           end;
    try discriminate; intros [= <-]; rewrite <- ?app_assoc; reflexivity.
Qed.

(** The final state of a run of [draw] that returns. *)
Lemma draw_return (o : option string) (s : bool) (rt rt' : Runtime) :
  draw' o s rt = (Return tt, rt') ->
  exists calls labels name,
    Forall2 (fun nd evs =>
               vertex_calls sub_offset (drawing_pos spring_layout (self rt)) nd
               = Return evs)
            (nodes_data (graph (self rt))) calls /\
    node_labels (nodes_data (graph (self rt))) = Return labels /\
    py_get (workflow (self rt)) "name" (PStr "Untitled") = Return name /\
    rt' = mkRuntime
            (mkVisualizer (workflow (self rt)) (graph (self rt))
               (drawing_pos spring_layout (self rt)))
            (trace rt ++ layout_calls (pos (self rt)) ++
             [EvFigure; EvDrawEdges] ++ List.concat calls ++
             [EvDrawLabels labels;
              EvDrawEdgeLabels (edge_labels_of (edges_data (graph (self rt))));
              EvTitle ("Workflow: " ++ py_str str_other name);
              EvAxisOff; EvTightLayout] ++
             output_calls o s).
Proof.
  unfold draw. intros H.
  apply bind_return in H. destruct H as ([] & rt1 & H1 & H).
  apply draw_layout_return in H1. subst rt1.
  apply bind_return in H. destruct H as ([] & rt2 & H2 & H).
  destruct (draw_canvas_return _ _ H2) as (calls & labels & name & Hc & Hl & Hn & ->).
  apply draw_output_return in H. subst rt'. cbn [self trace graph workflow pos] in *.
  exists calls, labels, name. repeat (split; [assumption |]).
  f_equal. rewrite <- !app_assoc. f_equal.
Qed.
End DrawReturns.

Lemma vertex_calls_return (sub_offset : pyval -> outcome pyval) (p : posmap)
      (nd : pyval * attrs) (c : list event) :
  vertex_calls sub_offset p nd = Return c ->
  exists ty x y y',
    py_get (PDict (snd nd)) "type" (PStr "unknown") = Return (PStr ty) /\
    dict_get key_eqb (fst nd) p = Some (x, y) /\
    sub_offset y = Return y' /\
    c = [EvDrawNode (fst nd) (type_color ty); EvText x y' (last_segment ty)].
Proof.
  unfold vertex_calls, obind.
  destruct (py_get (PDict (snd nd)) "type" (PStr "unknown")) as [ty |];
    [| discriminate].
  destruct (_get_node_color ty) as [color |] eqn:Ec; [| discriminate].
  destruct (dict_get key_eqb (fst nd) p) as [[x y] |]; [| discriminate].
  cbn [fst snd].
  destruct (sub_offset y) as [y' |] eqn:Ey; [| discriminate].
  destruct ty as [| | | | t | |]; try discriminate.
  cbn [py_split]. rewrite py_last_split.
  intros [= <-]. exists t, x, y, y'. repeat (split; [reflexivity || assumption |]).
  unfold _get_node_color in Ec. simpl in Ec. injection Ec as <-. reflexivity.
Qed.

Lemma offset_007_nearest :
  offset_007 = S754_finite false 5044031582654956 (-56) /\
  (2 ^ 52 <= 5044031582654956 < 2 ^ 53)%Z /\
  (Z.abs (100 * 5044031582654956 - 7 * 2 ^ 56) <= 50)%Z.
Proof. split; [reflexivity |]. split; vm_compute; intuition discriminate. Qed.

Lemma py_sub_offset_lowered (y y' : pyval) :
  py_sub_offset y = Return y' -> lowered y y'.
Proof.
  unfold lowered, py_sub_offset, py_float_of_int, offset_007.
  destruct y as [| b | z | f | | |]; try discriminate.
  - destruct (binary_normalize 53 1024 (if b then 1 else 0) 0 false) eqn:E;
      simpl; try discriminate; intros [= <-]; eexists;
      (split; [symmetry; exact E |]); reflexivity.
  - destruct (binary_normalize 53 1024 z 0 false) eqn:E;
      simpl; try discriminate; intros [= <-]; eexists;
      (split; [split; [symmetry; exact E | discriminate] |]); reflexivity.
  - intros [= <-]. exists f. split; reflexivity.
Qed.

(** X6: the calls of a run of [draw] that returns, in order: the spring
    layout when no coordinate is stored; the figure and the edges; for
    every vertex, in the order of the graph, the vertex in the colour of
    its type and under it the last segment of the type, at the stored
    abscissa [x] and at the ordinate [y - 0.07], the binary64 difference of
    the stored ordinate and the float of [0.07]; the labels as stored; the
    edge labels; the title; the axis and the layout; then [savefig] and
    the confirmation when an output file is given, and [show] or [close].
    The run leaves the graph and the document as they are and keeps the
    coordinates it drew with. *)
Theorem draw_call_order
        (backend : Runtime -> event -> option pyexn)
        (spring_layout : DiGraph -> posmap)
        (str_other : pyval -> string)
        (o : option string) (s : bool) (rt : Runtime) :
  fst (draw backend spring_layout py_sub_offset str_other o s rt) = Return tt ->
  exists calls labels name,
    Forall2 (fun nd c =>
               exists ty x y y',
                 py_get (PDict (snd nd)) "type" (PStr "unknown") = Return (PStr ty) /\
                 dict_get key_eqb (fst nd) (drawing_pos spring_layout (self rt))
                   = Some (x, y) /\
                 lowered y y' /\
                 c = [EvDrawNode (fst nd) (type_color ty);
                      EvText x y' (last_segment ty)])
            (nodes_data (graph (self rt))) calls /\
    node_labels (nodes_data (graph (self rt))) = Return labels /\
    py_get (workflow (self rt)) "name" (PStr "Untitled") = Return name /\
    self (snd (draw backend spring_layout py_sub_offset str_other o s rt)) =
      mkVisualizer (workflow (self rt)) (graph (self rt))
        (drawing_pos spring_layout (self rt)) /\
    trace (snd (draw backend spring_layout py_sub_offset str_other o s rt)) =
      trace rt ++ layout_calls (pos (self rt)) ++
      [EvFigure; EvDrawEdges] ++ List.concat calls ++
      [EvDrawLabels labels;
       EvDrawEdgeLabels (edge_labels_of (edges_data (graph (self rt))));
       EvTitle ("Workflow: " ++ py_str str_other name);
       EvAxisOff; EvTightLayout] ++
      output_calls o s.
Proof.
  intros H.
  destruct (draw backend spring_layout py_sub_offset str_other o s rt)
    as [r rt'] eqn:E.
  simpl in H. subst r.
  destruct (draw_return backend spring_layout py_sub_offset str_other o s rt rt' E)
    as (calls & labels & name & Hc & Hl & Hn & ->).
  exists calls, labels, name. simpl.
  split; [| auto].
  clear -Hc. induction Hc as [| nd c nds cs H _ IH]; constructor; auto.
  destruct (vertex_calls_return py_sub_offset _ _ _ H)
    as (ty & x & y & y' & Hty & Hp & Hy & ->).
  exists ty, x, y, y'. repeat split; auto. now apply py_sub_offset_lowered.
Qed.

Lemma draw_call_order_witness :
  trace (snd (draw (networkx_backend describe_str) no_layout py_sub_offset
                no_str (Some "out.png") false
                (mkRuntime (snd (build doc_placed)) []))) =
    [EvFigure; EvDrawEdges;
     EvDrawNode (PStr "1") "#ff9a9c";
     EvText (PInt 100) (PFloat (S754_finite true 7039337323812618 (-45))) "start";
     EvDrawNode (PStr "2") "#cccccc";
     EvText (PInt 300) (PFloat (S754_finite true 7070651414971679 (-52))) "thing";
     EvDrawLabels [(PStr "1", PStr "start"); (PStr "2", PStr "SetX")];
     EvDrawEdgeLabels [(PStr "1", PStr "2", PStr "main")];
     EvTitle "Workflow: placed"; EvAxisOff; EvTightLayout;
     EvSavefig "out.png"; EvPrint "Workflow visualization saved to out.png";
     EvClose] /\
  exists calls labels name,
    Forall2 (fun nd c =>
               exists ty x y y',
                 py_get (PDict (snd nd)) "type" (PStr "unknown") = Return (PStr ty) /\
                 dict_get key_eqb (fst nd)
                   (drawing_pos no_layout (snd (build doc_placed))) = Some (x, y) /\
                 lowered y y' /\
                 c = [EvDrawNode (fst nd) (type_color ty);
                      EvText x y' (last_segment ty)])
            (nodes_data (graph (snd (build doc_placed)))) calls /\
    node_labels (nodes_data (graph (snd (build doc_placed)))) = Return labels /\
    py_get (workflow (snd (build doc_placed))) "name" (PStr "Untitled")
      = Return name /\
    self (snd (draw (networkx_backend describe_str) no_layout py_sub_offset
                 no_str (Some "out.png") false
                 (mkRuntime (snd (build doc_placed)) []))) =
      mkVisualizer (workflow (snd (build doc_placed)))
        (graph (snd (build doc_placed)))
        (drawing_pos no_layout (snd (build doc_placed))) /\
    trace (snd (draw (networkx_backend describe_str) no_layout py_sub_offset
                  no_str (Some "out.png") false
                  (mkRuntime (snd (build doc_placed)) []))) =
      [] ++ layout_calls (pos (snd (build doc_placed))) ++
      [EvFigure; EvDrawEdges] ++ List.concat calls ++
      [EvDrawLabels labels;
       EvDrawEdgeLabels (edge_labels_of (edges_data (graph (snd (build doc_placed)))));
       EvTitle ("Workflow: " ++ py_str no_str name);
       EvAxisOff; EvTightLayout] ++
      output_calls (Some "out.png") false.
Proof.
  split; [vm_compute; reflexivity |].
  apply (draw_call_order (networkx_backend describe_str) no_layout no_str
           (Some "out.png") false (mkRuntime (snd (build doc_placed)) [])).
  vm_compute. reflexivity.
Defined.

(* ================================================================== *)
(** * What [draw] leaves of the visualizer *)

Lemma draw_layout_self
      (backend : Runtime -> event -> option pyexn)
      (spring_layout : DiGraph -> posmap) (rt : Runtime) :
  self (snd (draw_layout backend spring_layout rt)) = self rt \/
  (pos (self rt) = [] /\
   fst (draw_layout backend spring_layout rt) = Return tt /\
   self (snd (draw_layout backend spring_layout rt)) =
     mkVisualizer (workflow (self rt)) (graph (self rt))
       (spring_layout (graph (self rt)))).
Proof.
  unfold draw_layout, bind, get_state, call, set_pos, ret.
  destruct (pos (self rt)); simpl; auto.
  destruct (backend rt EvSpringLayout); simpl; auto.
Qed.

Lemma draw_self
      (backend : Runtime -> event -> option pyexn)
      (spring_layout : DiGraph -> posmap)
      (sub_offset : pyval -> outcome pyval)
      (str_other : pyval -> string)
      (o : option string) (s : bool) (rt : Runtime) :
  self (snd (draw backend spring_layout sub_offset str_other o s rt)) =
  self (snd (draw_layout backend spring_layout rt)).
Proof.
  unfold draw, bind.
  destruct (draw_layout backend spring_layout rt) as [[[] | e] rt1];
    simpl; [| reflexivity].
  destruct (quiet_draw_canvas backend sub_offset str_other
              (fun _ => True) is_canvas (fun e H _ => H)
              (fun _ l _ _ => eq_refl) rt1 Logic.I) as (Hs & _).
  destruct (draw_canvas backend sub_offset str_other rt1) as [[[] | e] rt2];
    simpl in *; [| exact Hs].
  destruct (draw_output_events backend o s rt2) as (Ho & _).
  now rewrite Ho.
Qed.

(** X7: no run of [draw], whether it returns or raises and whatever the
    plotting library does, changes the graph or the document of the
    visualizer; the coordinates change only when none was stored, and then
    to the layout [nx.spring_layout] gives for the graph. *)
Theorem draw_frame
        (backend : Runtime -> event -> option pyexn)
        (spring_layout : DiGraph -> posmap)
        (sub_offset : pyval -> outcome pyval)
        (str_other : pyval -> string)
        (o : option string) (s : bool) (rt : Runtime) :
  workflow (self (snd (draw backend spring_layout sub_offset str_other o s rt))) =
    workflow (self rt) /\
  graph (self (snd (draw backend spring_layout sub_offset str_other o s rt))) =
    graph (self rt) /\
  (pos (self (snd (draw backend spring_layout sub_offset str_other o s rt))) =
     pos (self rt) \/
   (pos (self rt) = [] /\
    pos (self (snd (draw backend spring_layout sub_offset str_other o s rt))) =
      spring_layout (graph (self rt)))).
Proof.
  rewrite (draw_self backend spring_layout sub_offset str_other o s rt).
  destruct (draw_layout_self backend spring_layout rt) as [-> | (Hp & _ & ->)];
    simpl; auto.
Qed.

(* ================================================================== *)
(** * The graph of a document whose connections name records only *)













(* ================================================================== *)
(** * The default output file of any path *)

Lemma has_char_split (c : ascii) (s : string) :
  has_char c s = true ->
  exists a b, s = (a ++ String c b)%string /\ has_char c b = false.
Proof.
  induction s as [| x r IH]; simpl; [discriminate |].
  destruct (has_char c r) eqn:Er.
  - intros _. destruct (IH eq_refl) as (a & b & -> & Hb).
    exists (String x a), b. auto.
  - rewrite orb_false_r. intros Hx. apply Ascii.eqb_eq in Hx. subst x.
    exists EmptyString, r. auto.
Qed.

Lemma basename_split (f : string) :
  exists dir,
    f = (dir ++ basename f)%string /\
    has_char "/" (basename f) = false /\
    (dir = EmptyString \/ exists d, dir = (d ++ "/")%string).
Proof.
  destruct (has_char "/" f) eqn:E.
  - destruct (has_char_split _ _ E) as (a & b & -> & Hb).
    rewrite (basename_dir a b Hb).
    exists (a ++ "/")%string. split; [| split; eauto].
    apply append_cons_assoc.
  - rewrite (basename_plain f E). exists EmptyString. auto.
Qed.

Lemma str_from_at (a b : string) :
  str_from (Z.of_nat (String.length a)) (a ++ b) = b.
Proof.
  unfold str_from. rewrite Nat2Z.id, append_length.
  replace (String.length a + String.length b - String.length a)
    with (String.length b) by lia.
  apply substring_suffix.
Qed.

Lemma get_append (pre : string) (c : ascii) (r : string) :
  String.get (String.length pre) (pre ++ String c r) = Some c.
Proof. induction pre as [| x pre IH]; simpl; auto. Qed.

Lemma has_non_dot_spec (a : string) :
  forall pre rest : string,
    has_non_dot (String.length a) (String.length pre) (pre ++ a ++ rest) =
    negb (all_dots a).
Proof.
  induction a as [| c a IH]; intros pre rest; [reflexivity |].
  cbn [String.length has_non_dot all_dots].
  change (pre ++ String c a ++ rest)%string
    with (pre ++ String c (a ++ rest))%string.
  rewrite get_append. destruct (Ascii.eqb c ".") eqn:Ec; [| reflexivity].
  cbn [andb].
  rewrite (append_cons_assoc pre c (a ++ rest)).
  replace (S (String.length pre))
    with (String.length (pre ++ String c EmptyString))
    by (rewrite append_length; simpl; lia).
  apply IH.
Qed.

(** [os.path.splitext] on a name without a directory. *)
Lemma splitext_name (p : string) :
  has_char "/" p = false ->
  (has_char "." p = false /\ splitext p = (p, EmptyString)) \/
  exists a b,
    p = (a ++ String "." b)%string /\ has_char "." b = false /\
    splitext p = if all_dots a then (p, EmptyString) else (a, String "." b).
Proof.
  intros Hs. unfold splitext. rewrite (rfind_none "/" p Hs).
  destruct (has_char "." p) eqn:E.
  - right. destruct (has_char_split _ _ E) as (a & b & -> & Hb).
    exists a, b. split; [reflexivity |]. split; [exact Hb |].
    rewrite (rfind_last "." a b Hb).
    replace (-1 <? Z.of_nat (String.length a))%Z with true
      by (symmetry; apply Z.ltb_lt; lia).
    replace (Z.to_nat (Z.of_nat (String.length a) - (-1 + 1)))
      with (String.length a) by lia.
    change (Z.to_nat (-1 + 1)) with (String.length EmptyString).
    change (a ++ String "." b)%string
      with (EmptyString ++ a ++ String "." b)%string at 1.
    rewrite has_non_dot_spec. cbn [andb].
    destruct (all_dots a); cbn [negb]; [reflexivity |].
    unfold str_upto. rewrite Nat2Z.id, substring_prefix.
    now rewrite str_from_at.
  - left. split; [reflexivity |]. rewrite (rfind_none "." p E). reflexivity.
Qed.

(** X10: for every path the default output file is the last component
    of the path without its extension, followed by [_visualization.png]:
    the last component is cut before its last dot, and is kept whole when
    it has no dot or when only dots come before the last one.  The name
    has no [/], so the picture goes to the working directory wherever the
    workflow file is. *)
Theorem default_output_shape (f : string) :
  exists dir name,
    f = (dir ++ name)%string /\
    (dir = EmptyString \/ exists d, dir = (d ++ "/")%string) /\
    has_char "/" name = false /\
    has_char "/" (default_output f) = false /\
    ((has_char "." name = false /\
      default_output f = (name ++ "_visualization.png")%string) \/
     exists a b,
       name = (a ++ String "." b)%string /\ has_char "." b = false /\
       default_output f =
         ((if all_dots a then name else a) ++ "_visualization.png")%string).
Proof.
  destruct (basename_split f) as (dir & Hf & Hb & Hdir).
  exists dir, (basename f).
  split; [exact Hf |]. split; [exact Hdir |]. split; [exact Hb |].
  unfold default_output.
  destruct (splitext_name (basename f) Hb) as [[Hd ->] | (a & b & Hn & Hd & ->)].
  - cbn [fst]. split; [| left; auto].
    now rewrite has_char_app, Hb.
  - split.
    + rewrite has_char_app.
      assert (Ha : has_char "/" a = false).
      { rewrite Hn, has_char_app in Hb. now apply orb_false_elim in Hb. }
      destruct (all_dots a); cbn [fst]; [now rewrite Hb | now rewrite Ha].
    + right. exists a, b. split; [exact Hn |]. split; [exact Hd |].
      now destruct (all_dots a).
Qed.

(* ================================================================== *)
(** * Input that is not drawn *)

(** X11: when the file cannot be read as JSON, or [parse_workflow] raises
    on the document in it, nothing is drawn and nothing is saved:
    [visualize_workflow_file] raises that exception without a call into
    the plotting library, and [main] prints the one line
    [Error visualizing workflow: ...] and exits with status 1. *)
Theorem main_input_error
        (backend : Runtime -> event -> option pyexn)
        (spring_layout : DiGraph -> posmap)
        (sub_offset : pyval -> outcome pyval)
        (str_other : pyval -> string)
        (path_exists : string -> bool)
        (load_json : string -> outcome pyval)
        (str_exn : pyexn -> string)
        (args : Args) (e : pyexn) :
  path_exists (arg_workflow_file args) = true ->
  (load_json (arg_workflow_file args) = Raise e \/
   exists w, load_json (arg_workflow_file args) = Return w /\
             fst (build w) = Raise e) ->
  (forall tr,
      visualize_workflow_file backend spring_layout sub_offset str_other
        load_json (arg_workflow_file args) (arg_output args)
        (negb (arg_no_show args)) tr = (Raise e, tr)) /\
  main backend spring_layout sub_offset str_other path_exists load_json
       str_exn args =
    ([EvPrint ("Error visualizing workflow: " ++ str_exn e)], 1%Z).
Proof.
  intros Hex Hin.
  assert (Hrun : forall tr,
             visualize_workflow_file backend spring_layout sub_offset str_other
               load_json (arg_workflow_file args) (arg_output args)
               (negb (arg_no_show args)) tr = (Raise e, tr)).
  { intros tr. destruct Hin as [Hl | (w & Hl & Hb)].
    - unfold visualize_workflow_file, bind, lift. now rewrite Hl.
    - rewrite (visualize_file_unfold backend spring_layout sub_offset str_other
                 load_json _ _ _ w tr Hl).
      unfold visualize_workflow, bind, on_self. cbn [self trace].
      change (parse_workflow (init w)) with (build w).
      destruct (build w) as [r v]. simpl in Hb. now subst r. }
  split; [exact Hrun |].
  unfold main. rewrite Hex, Hrun. reflexivity.
Qed.

Lemma main_input_error_witness :
  (forall tr,
      visualize_workflow_file quiet_backend no_layout same_ordinate no_str
        (fun _ => Return doc_missing_id) "flow.json" None false tr =
      (Raise (KeyError (PStr "id")), tr)) /\
  main quiet_backend no_layout same_ordinate no_str any_file
       (fun _ => Return doc_missing_id) exn_name (mkArgs "flow.json" None true) =
    ([EvPrint "Error visualizing workflow: KeyError"], 1%Z).
Proof.
  apply (main_input_error quiet_backend no_layout same_ordinate no_str any_file
           (fun _ => Return doc_missing_id) exn_name
           (mkArgs "flow.json" None true) (KeyError (PStr "id"))).
  - reflexivity.
  - right. exists doc_missing_id. split; reflexivity.
Defined.

(* ================================================================== *)
(** * The figure of a run that raises *)

Lemma draw_layout_trace
      (backend : Runtime -> event -> option pyexn)
      (spring_layout : DiGraph -> posmap) (rt : Runtime) :
  trace (snd (draw_layout backend spring_layout rt)) =
  trace rt ++ layout_calls (pos (self rt)).
Proof.
  unfold draw_layout, layout_calls, bind, get_state, call, set_pos, ret.
  destruct (pos (self rt)); simpl.
  - now destruct (backend rt EvSpringLayout).
  - now rewrite app_nil_r.
Qed.

Lemma keeps_figure_layout (p : posmap) : Forall keeps_figure (layout_calls p).
Proof.
  destruct p; simpl; constructor; auto. split; discriminate.
Qed.

Lemma keeps_figure_canvas (e : event) : is_canvas e -> keeps_figure e.
Proof. destruct e; try discriminate; intros _; split; discriminate. Qed.

Section DrawRaises.
Variable backend : Runtime -> event -> option pyexn.
Variable spring_layout : DiGraph -> posmap.
Variable sub_offset : pyval -> outcome pyval.
Variable str_other : pyval -> string.
Hypothesis show_returns : forall rt, backend rt EvShow = None.
Hypothesis close_returns : forall rt, backend rt EvClose = None.

Lemma draw_output_raises (o : option string) (s : bool) (rt : Runtime)
      (e : pyexn) :
  fst (draw_output backend o s rt) = Raise e ->
  exists p,
    backend rt (EvSavefig p) = Some e /\ save_targets o = [p] /\
    trace (snd (draw_output backend o s rt)) = trace rt ++ [EvSavefig p].
Proof.
  unfold draw_output, bind, call, print, ret.
  destruct o as [[| c r] |]; destruct s; simpl;
    rewrite ?show_returns, ?close_returns; simpl; try discriminate.
  - destruct (backend rt (EvSavefig (String c r))) eqn:E; simpl.
    + intros [= <-]. eauto.
    + rewrite show_returns. discriminate.
  - destruct (backend rt (EvSavefig (String c r))) eqn:E; simpl.
    + intros [= <-]. eauto.
    + rewrite close_returns. discriminate.
Qed.

(** X12: [draw] has no handler around its calls: a run that raises, in
    the layout, on the canvas or in [plt.savefig], has called neither
    [plt.show()] nor [plt.close()], so a figure it has opened stays open.
    ([plt.show()] and [plt.close()] themselves are taken not to raise.) *)
Theorem draw_raise_keeps_figure (o : option string) (s : bool) (rt : Runtime)
        (e : pyexn) :
  fst (draw backend spring_layout sub_offset str_other o s rt) = Raise e ->
  exists evs,
    trace (snd (draw backend spring_layout sub_offset str_other o s rt)) =
      trace rt ++ evs /\
    ~ In EvShow evs /\ ~ In EvClose evs.
Proof.
  intros H.
  assert (Hk : exists evs,
             trace (snd (draw backend spring_layout sub_offset str_other o s rt))
               = trace rt ++ evs /\ Forall keeps_figure evs).
  { revert H. unfold draw, bind.
    pose proof (draw_layout_trace backend spring_layout rt) as Hl.
    pose proof (keeps_figure_layout (pos (self rt))) as Hkl.
    destruct (draw_layout backend spring_layout rt) as [[[] | e1] rt1];
      simpl in *; [| eauto].
    destruct (quiet_draw_canvas backend sub_offset str_other
                (fun _ => True) keeps_figure
                (fun c Hc _ => keeps_figure_canvas c Hc)
                (fun _ l _ _ => keeps_figure_canvas (EvDrawLabels l) eq_refl)
                rt1 Logic.I) as (_ & evc & Hc & Hkc).
    destruct (draw_canvas backend sub_offset str_other rt1)
      as [[[] | e2] rt2]; simpl in *.
    - intros Ho. destruct (draw_output_raises o s rt2 e Ho) as (p & _ & _ & Ht).
      exists (layout_calls (pos (self rt)) ++ evc ++ [EvSavefig p]).
      rewrite Ht, Hc, Hl, <- !app_assoc. split; [reflexivity |].
      repeat (apply Forall_app; split; auto).
      constructor; [split; discriminate | constructor].
    - intros _. exists (layout_calls (pos (self rt)) ++ evc).
      rewrite Hc, Hl, <- app_assoc. split; [reflexivity |].
      apply Forall_app. auto. }
  destruct Hk as (evs & Ht & Hk). exists evs. split; [exact Ht |].
  rewrite Forall_forall in Hk.
  split; intros Hin; destruct (Hk _ Hin) as [H1 H2]; congruence.
Qed.
End DrawRaises.

Lemma draw_raise_keeps_figure_witness :
  exists evs,
    trace (snd (draw quiet_backend no_layout same_ordinate no_str
                  (Some "out.png") false
                  (mkRuntime (snd (build doc_positions)) []))) = [] ++ evs /\
    ~ In EvShow evs /\ ~ In EvClose evs.
Proof.
  apply (draw_raise_keeps_figure quiet_backend no_layout same_ordinate no_str
           (fun _ => eq_refl) (fun _ => eq_refl) (Some "out.png") false
           (mkRuntime (snd (build doc_positions)) [])
           (KeyError (PStr "2"))).
  reflexivity.
Defined.

(* ================================================================== *)
(** * The exceptions of [parse_workflow] *)

Section RaisesOnly.
Variable St : Type.
Variable P : pyexn -> bool.

Lemma only_ret {A : Type} (a : A) : raises_only P (@ret St A a).
Proof. intros s e. discriminate. Qed.

Lemma only_lift {A : Type} (c : outcome A) :
  (forall e, c = Raise e -> P e = true) -> raises_only P (@lift St A c).
Proof. intros H s e. unfold lift. simpl. auto. Qed.

Lemma only_bind_dep {A B : Type} (c : M St A) (k : A -> M St B) :
  raises_only P c ->
  (forall a s s', c s = (Return a, s') -> raises_only P (k a)) ->
  raises_only P (bind c k).
Proof.
  intros Hc Hk s e. unfold bind. specialize (Hc s).
  destruct (c s) as [[a | e1] s1] eqn:E; simpl in *.
  - apply (Hk a s s1 E).
  - intros [= <-]. auto.
Qed.

Lemma only_bind {A B : Type} (c : M St A) (k : A -> M St B) :
  raises_only P c -> (forall a, raises_only P (k a)) ->
  raises_only P (bind c k).
Proof. intros Hc Hk. apply only_bind_dep; auto. Qed.

Lemma only_bind_lift {A B : Type} (c : outcome A) (k : A -> M St B) :
  (forall e, c = Raise e -> P e = true) ->
  (forall a, c = Return a -> raises_only P (k a)) ->
  raises_only P (bind (lift c) k).
Proof.
  intros Hc Hk. apply only_bind_dep; [now apply only_lift |].
  intros a s s' H. apply lift_return in H. now apply Hk.
Qed.

Lemma only_for_each {A : Type} (xs : list A) (body : A -> M St unit) :
  (forall x, raises_only P (body x)) -> raises_only P (for_each xs body).
Proof.
  intros Hb. induction xs as [| x r IH]; simpl.
  - apply only_ret.
  - apply only_bind; auto.
Qed.
End RaisesOnly.

Lemma getitem_str_raises (v : pyval) (k : string) (e : pyexn) :
  py_getitem_str v k = Raise e -> e = TypeError \/ e = KeyError (PStr k).
Proof.
  destruct v; simpl; try (intros [= <-]; auto).
  destruct (dict_get String.eqb k d); [discriminate | intros [= <-]; auto].
Qed.

Lemma getitem_str_return (v : pyval) (k : string) (x : pyval) :
  py_getitem_str v k = Return x ->
  exists d, v = PDict d /\ dict_get String.eqb k d = Some x.
Proof.
  destruct v; simpl; try discriminate.
  destruct (dict_get String.eqb k d) eqn:E; [| discriminate].
  intros [= <-]. eauto.
Qed.

Lemma add_node_raises (g : DiGraph) (n : pyval) (a : attrs) (e : pyexn) :
  add_node g n a = Raise e -> e = TypeError \/ e = ValueError.
Proof.
  unfold add_node, check_node.
  destruct (hashable n); simpl; [| intros [= <-]; auto].
  destruct (has_node g n); [discriminate |].
  destruct n; simpl; try discriminate. intros [= <-]. auto.
Qed.

Lemma touch_node_raises (g : DiGraph) (n : pyval) (e : pyexn) :
  touch_node g n = Raise e -> e = TypeError \/ e = ValueError.
Proof.
  unfold touch_node, check_node.
  destruct (hashable n); simpl; [| intros [= <-]; auto].
  destruct (has_node g n); [discriminate |].
  destruct n; simpl; try discriminate. intros [= <-]. auto.
Qed.

Lemma add_edge_raises (g : DiGraph) (u v : pyval) (a : attrs) (e : pyexn) :
  fst (add_edge g u v a) = Raise e -> e = TypeError \/ e = ValueError.
Proof.
  unfold add_edge.
  destruct (touch_node g u) as [g1 | e1] eqn:E1; simpl.
  - destruct (touch_node g1 v) as [g2 | e2] eqn:E2; simpl; [discriminate |].
    intros [= <-]. now apply (touch_node_raises _ _ _ E2).
  - intros [= <-]. now apply (touch_node_raises _ _ _ E1).
Qed.

Lemma len_raises (p : pyval) (e : pyexn) : py_len p = Raise e -> e = TypeError.
Proof. destruct p; simpl; try discriminate; now intros [= <-]. Qed.

Lemma getitem_first_raises (p : pyval) (n : nat) (e : pyexn) :
  py_len p = Return n -> (2 <=? n)%nat = true ->
  py_getitem_int p 0 = Raise e -> e = KeyError (PInt 0).
Proof.
  intros Hl Hn. apply Nat.leb_le in Hn.
  destruct p; simpl in *; try discriminate.
  - injection Hl as <-. destruct s as [| c r]; simpl in *; [lia | discriminate].
  - injection Hl as <-. destruct l as [| x r]; simpl in *; [lia | discriminate].
  - now intros [= <-].
Qed.

Lemma getitem_second_returns (p : pyval) (n : nat) (x : pyval) (e : pyexn) :
  py_len p = Return n -> (2 <=? n)%nat = true ->
  py_getitem_int p 0 = Return x -> py_getitem_int p 1 <> Raise e.
Proof.
  intros Hl Hn. apply Nat.leb_le in Hn.
  destruct p; simpl in *; try discriminate.
  - injection Hl as <-. destruct s as [| c [| c' r]]; simpl in *;
      try lia; discriminate.
  - injection Hl as <-. destruct l as [| a [| b r]]; simpl in *;
      try lia; discriminate.
Qed.

Lemma parse_node_raises (n : pyval) : raises_only parse_error (parse_node n).
Proof.
  unfold parse_node.
  apply only_bind_lift.
  { intros e H. now destruct (getitem_str_raises _ _ _ H) as [-> | ->]. }
  intros node_id Hid. destruct (getitem_str_return _ _ _ Hid) as (d & -> & Hd).
  apply only_bind_lift.
  { intros e H. now destruct (getitem_str_raises _ _ _ H) as [-> | ->]. }
  intros node_type Hty.
  apply only_bind_lift.
  { destruct node_type; simpl; try discriminate; now intros e [= <-]. }
  intros segs Hsegs.
  destruct node_type as [| | | | ty | |]; try discriminate.
  injection Hsegs as <-.
  apply only_bind_lift; [rewrite py_last_split; discriminate | intros dflt _].
  apply only_bind_lift; [discriminate | intros name _].
  apply only_bind_lift; [discriminate | intros params _].
  apply only_bind.
  { intros s e. unfold graph_add_node.
    destruct (add_node (graph s) node_id _) as [g | e'] eqn:Ea; simpl;
      [discriminate |].
    intros [= <-]. now destruct (add_node_raises _ _ _ _ Ea) as [-> | ->]. }
  intros [].
  apply only_bind_lift; [discriminate | intros has_pos Hhp].
  simpl in Hhp. injection Hhp as <-. unfold dict_mem.
  destruct (dict_get String.eqb "position" d) as [p |] eqn:Hp.
  - apply only_bind_dep.
    + apply only_bind_lift; [simpl; rewrite Hp; discriminate | intros p' _].
      apply only_bind_lift; [| intros; apply only_ret].
      intros e H. now rewrite (len_raises _ _ H).
    + intros long_enough s s' Hle.
      destruct long_enough; [| apply only_ret].
      unfold bind, lift, ret in Hle. simpl in Hle. rewrite Hp in Hle.
      destruct (py_len p) as [k |] eqn:Hk; [| discriminate].
      injection Hle as Hle _.
      apply only_bind_lift; [simpl; rewrite Hp; discriminate | intros p0 Hp0].
      simpl in Hp0. rewrite Hp in Hp0. injection Hp0 as <-.
      apply only_bind_lift.
      { intros e H. now rewrite (getitem_first_raises _ _ _ Hk Hle H). }
      intros x Hx.
      apply only_bind_lift; [simpl; rewrite Hp; discriminate | intros p1 Hp1].
      simpl in Hp1. rewrite Hp in Hp1. injection Hp1 as <-.
      apply only_bind_lift.
      { intros e H. now destruct (getitem_second_returns _ _ _ e Hk Hle Hx). }
      intros y _.
      apply only_bind_lift.
      { destruct y; simpl; try discriminate; now intros e [= <-]. }
      intros ny _ s0 e. unfold pos_setitem.
      destruct (hashable node_id); simpl; [discriminate | now intros [= <-]].
  - apply only_bind_dep; [apply only_ret |].
    intros b s s' [= <- _]. apply only_ret.
Qed.

Lemma parse_connection_raises (src cat : string) (c : pyval) :
  raises_only parse_error (parse_connection src cat c).
Proof.
  unfold parse_connection.
  apply only_bind_lift.
  { intros e H. now destruct (getitem_str_raises _ _ _ H) as [-> | ->]. }
  intros t _ s e. unfold graph_add_edge.
  pose proof (add_edge_raises (graph s) (PStr src) t
                [("connection_type", PStr cat)] e) as H.
  destruct (add_edge _ _ _ _) as [r g]. simpl in *.
  intros Hr. now destruct (H Hr) as [-> | ->].
Qed.

Lemma parse_workflow_raises : raises_only parse_error parse_workflow.
Proof.
  unfold parse_workflow.
  apply only_bind; [intros s e; discriminate | intros self].
  apply only_bind_lift.
  { destruct (workflow self); simpl; try discriminate; now intros e [= <-]. }
  intros nodes _.
  apply only_bind.
  { unfold parse_nodes. apply only_bind_lift.
    - destruct nodes; simpl; try discriminate; now intros e [= <-].
    - intros l _. apply only_for_each. apply parse_node_raises. }
  intros _.
  apply only_bind_lift.
  { destruct (workflow self); simpl; try discriminate; now intros e [= <-]. }
  intros connections _.
  unfold parse_connections. apply only_bind_lift.
  { destruct connections; simpl; try discriminate; now intros e [= <-]. }
  intros srcs _. apply only_for_each. intros sc.
  unfold parse_source. apply only_bind_lift.
  { destruct (snd sc); simpl; try discriminate; now intros e [= <-]. }
  intros cats _. apply only_for_each. intros cl.
  apply only_bind_lift.
  { destruct (snd cl); simpl; try discriminate; now intros e [= <-]. }
  intros conns _. apply only_for_each. intros c.
  apply parse_connection_raises.
Qed.

(** X13: an exception of [parse_workflow] is a [TypeError], an
    [AttributeError], a [ValueError], or the [KeyError] of a record without
    [id] or [type], of a connection without [node], or of a [position]
    that is a dictionary; it never is an [IndexError]: a [position] of
    fewer than two components is skipped, and [split] gives a segment. *)
Theorem parse_workflow_exceptions (w : pyval) (e : pyexn) :
  fst (build w) = Raise e ->
  e = TypeError \/ e = AttributeError \/ e = ValueError \/
  e = KeyError (PStr "id") \/ e = KeyError (PStr "type") \/
  e = KeyError (PStr "node") \/ e = KeyError (PInt 0).
Proof.
  intros H. pose proof (parse_workflow_raises (init w) e H) as He.
  destruct e as [k | | | | | | | |]; try discriminate; auto.
  destruct k as [| | z | | s | |]; try discriminate.
  - destruct z; try discriminate. intuition.
  - simpl in He.
    destruct (String.eqb_spec s "id") as [-> |]; [intuition |].
    destruct (String.eqb_spec s "type") as [-> |]; [intuition |].
    destruct (String.eqb_spec s "node") as [-> |]; [intuition | discriminate].
Qed.

Lemma parse_workflow_exceptions_witness :
  KeyError (PStr "id") = TypeError \/
  KeyError (PStr "id") = AttributeError \/
  KeyError (PStr "id") = ValueError \/
  KeyError (PStr "id") = KeyError (PStr "id") \/
  KeyError (PStr "id") = KeyError (PStr "type") \/
  KeyError (PStr "id") = KeyError (PStr "node") \/
  KeyError (PStr "id") = KeyError (PInt 0).
Proof.
  apply (parse_workflow_exceptions doc_missing_id (KeyError (PStr "id"))).
  reflexivity.
Defined.

(* ================================================================== *)
(** * The length of a label cut by [_get_node_label] *)

Lemma substring_length (n : nat) (s : string) :
  n <= String.length s -> String.length (substring 0 n s) = n.
Proof.
  revert s. induction n as [| n IH]; intros [| c r] H; simpl in *;
    try reflexivity; try lia.
  rewrite IH; [reflexivity | lia].
Qed.

(** X14: for a vertex whose label is a string, or that has no label,
    [_get_node_label] returns a string of at most 21 characters: the
    label itself when it has at most 20 characters (the empty string when
    there is none), and else its first 18 characters followed by three
    dots. *)
Theorem get_node_label_length (str_other : pyval -> string) (a : attrs)
        (s : string) :
  py_get (PDict a) "label" (PStr "") = Return (PStr s) ->
  exists r,
    _get_node_label str_other (PDict a) = Return (PStr r) /\
    String.length r <= 21 /\
    (String.length s <= 20 -> r = s) /\
    (20 < String.length s ->
     r = (substring 0 18 s ++ "...")%string /\ String.length r = 21).
Proof.
  intros H. unfold _get_node_label. rewrite H. cbn [obind py_len].
  destruct (20 <? String.length s)%nat eqn:E.
  - apply Nat.ltb_lt in E.
    assert (Hl : String.length (substring 0 18 s ++ "...") = 21).
    { rewrite append_length, substring_length by lia. reflexivity. }
    eexists. split; [reflexivity |]. split; [lia |]. split; [lia | auto].
  - apply Nat.ltb_ge in E.
    exists s. split; [reflexivity |]. split; [lia |]. split; [auto | lia].
Qed.

Lemma get_node_label_length_witness :
  exists r,
    _get_node_label no_str (PDict [("label", PStr long_label)]) = Return (PStr r) /\
    String.length r <= 21 /\
    (String.length long_label <= 20 -> r = long_label) /\
    (20 < String.length long_label ->
     r = (substring 0 18 long_label ++ "...")%string /\ String.length r = 21).
Proof.
  apply (get_node_label_length no_str [("label", PStr long_label)] long_label).
  reflexivity.
Defined.

(* ================================================================== *)
(** * Records that share an id *)

Lemma dict_update_record (old a : attrs) :
  old = [] \/ record_keys old -> record_keys a -> dict_update old a = a.
Proof.
  unfold record_keys. intros Ho Ha.
  destruct a as [| [k1 v1] [| [k2 v2] [| [k3 v3] [| ? ?]]]]; try discriminate.
  injection Ha as -> -> ->.
  destruct Ho as [-> | Ho]; [reflexivity |].
  destruct old as [| [j1 w1] [| [j2 w2] [| [j3 w3] [| ? ?]]]]; try discriminate.
  injection Ho as -> -> ->. reflexivity.
Qed.

Lemma Forall_dict_set {V : Type} (P : V -> Prop) (k : pyval) (v : V)
      (d : list (pyval * V)) :
  P v -> Forall (fun kv => P (snd kv)) d ->
  Forall (fun kv => P (snd kv)) (dict_set key_eqb k v d).
Proof.
  intros Hv. induction 1 as [| [k1 v1] r H1 Hr IH]; simpl.
  - constructor; auto.
  - destruct (key_eqb k k1); constructor; auto.
Qed.

Lemma record_attrs_keys (n : pyval) (a : attrs) :
  record_attrs n = Some a -> record_keys a.
Proof.
  intros H. destruct (record_attrs_shape _ _ H) as (l & ty & p & ->).
  reflexivity.
Qed.

Lemma add_node_update (g g' : DiGraph) (n : pyval) (a : attrs) :
  wf_graph g ->
  Forall (fun nd => record_keys (snd nd)) (_node g) ->
  record_keys a ->
  add_node g n a = Return g' ->
  _node g' = dict_set key_eqb n a (_node g).
Proof.
  intros Hwf Hg Ha. unfold add_node.
  destruct (hashable n) eqn:Hh; simpl; [| discriminate].
  rewrite (has_node_wf g n Hwf). unfold dict_mem.
  destruct (dict_get key_eqb n (_node g)) as [old |] eqn:E.
  - intros [= <-]. simpl. f_equal.
    apply dict_get_some_key in E. destruct E as (k' & Hin & _).
    rewrite Forall_forall in Hg.
    apply dict_update_record; [right; exact (Hg _ Hin) | exact Ha].
  - destruct (check_node n); simpl; [| discriminate].
    intros [= <-]. simpl. f_equal. apply dict_update_record; auto.
Qed.

Lemma parse_nodes_record_keys (recs : list pyval) :
  forall (v v' : Visualizer),
    wf_graph (graph v) ->
    for_each recs parse_node v = (Return tt, v') ->
    Forall (fun nd => record_keys (snd nd)) (_node (graph v)) ->
    Forall (fun nd => record_keys (snd nd)) (_node (graph v')).
Proof.
  induction recs as [| n r IH]; intros v v' Hwf H Hv; simpl in H.
  - now injection H as <-.
  - apply bind_return in H. destruct H as ([] & v1 & H1 & H2).
    destruct (parse_node_step _ _ _ Hwf H1) as (_ & _ & _ & _ & _ & Hwf1 & _).
    destruct (parse_node_return _ _ _ H1) as (id & a & _ & Ha & Hadd & _).
    apply (IH _ _ Hwf1 H2).
    pose proof (record_attrs_keys _ _ Ha) as Hk.
    rewrite (add_node_update _ _ _ _ Hwf Hv Hk Hadd).
    now apply (Forall_dict_set record_keys).
Qed.

Lemma parse_nodes_pos_keep (recs : list pyval) (id : pyval) :
  forall (v v' : Visualizer),
    for_each recs parse_node v = (Return tt, v') ->
    (forall m i, In m recs -> record_id m = Some i ->
                 key_eqb id i = true -> has_position m = false) ->
    dict_get key_eqb id (pos v') = dict_get key_eqb id (pos v).
Proof.
  induction recs as [| n r IH]; intros v v' H Hlast; simpl in H.
  - now injection H as <-.
  - apply bind_return in H. destruct H as ([] & v1 & H1 & H2).
    destruct (parse_node_return _ _ _ H1) as (i & a & Hi & _ & _ & _ & Hpos).
    rewrite (IH _ _ H2) by (intros m j Hm; apply Hlast; now right).
    destruct (has_position n) eqn:Hn.
    + destruct Hpos as (xy & _ & ->).
      apply kget_set_other.
      destruct (key_eqb id i) eqn:E; [| reflexivity].
      rewrite (Hlast n i (or_introl eq_refl) Hi E) in Hn. discriminate.
    + now rewrite Hpos.
Qed.

(** The vertex of the last record with an id, and the coordinate of the
    last record with that id that stores a position. *)
Lemma parse_last_record (w : pyval) (v : Visualizer) (pre post : list pyval)
      (n : pyval) (id : pyval) :
  build w = (Return tt, v) ->
  document_nodes w = pre ++ n :: post ->
  record_id n = Some id ->
  ((forall m i, In m post -> record_id m = Some i -> key_eqb id i = false) ->
   dict_get key_eqb id (_node (graph v)) = record_attrs n) /\
  (has_position n = true ->
   (forall m i, In m post -> record_id m = Some i ->
                key_eqb id i = true -> has_position m = false) ->
   exists xy, record_xy n = Return xy /\
              dict_get key_eqb id (pos v) = Some xy).
Proof.
  intros Hb Hn Hid.
  destruct (build_return _ _ Hb) as (v1 & H1 & H2).
  rewrite Hn, for_each_app in H1. apply bind_return in H1.
  destruct H1 as ([] & va & Hpre & H1). simpl in H1.
  apply bind_return in H1. destruct H1 as ([] & vb & Hrec & Hrest).
  destruct (parse_nodes_wf pre (init w) va wf_empty Hpre) as [Hwfa _].
  pose proof (parse_nodes_record_keys pre (init w) va wf_empty Hpre
                (Forall_nil _)) as Hka.
  destruct (parse_node_step _ _ _ Hwfa Hrec)
    as (id' & a & Hid' & Ha & Hh & Hwfb & _).
  rewrite Hid in Hid'. injection Hid' as <-.
  destruct (parse_node_return _ _ _ Hrec) as (id' & a' & Hid' & Ha' & Hadd & _ & Hpos).
  rewrite Hid in Hid'. injection Hid' as <-.
  rewrite Ha in Ha'. injection Ha' as <-.
  split.
  - intros Hlast.
    destruct (parse_nodes_other post id vb v1 Hwfb Hrest Hlast)
      as (Hwf1 & _ & Hnode1 & _).
    destruct (parse_entries_frame _ _ _ Hwf1 H2) as (_ & _ & _ & Hkeep & _).
    rewrite Ha. apply Hkeep. rewrite Hnode1.
    rewrite (add_node_update _ _ _ _ Hwfa Hka (record_attrs_keys _ _ Ha) Hadd).
    now apply kget_set_same.
  - intros Hp Hlast. rewrite Hp in Hpos. destruct Hpos as (xy & Hxy & Hposb).
    exists xy. split; [exact Hxy |].
    destruct (parse_nodes_wf post vb v1 Hwfb Hrest) as [Hwf1 _].
    destruct (parse_entries_frame _ _ _ Hwf1 H2) as (_ & _ & Hposv & _).
    rewrite Hposv, (parse_nodes_pos_keep post id vb v1 Hrest Hlast), Hposb.
    now apply kget_set_same.
Qed.

(** X15: records may share an id; they make one vertex.  It carries the
    attributes of the last record with the id, and it keeps the coordinate
    of the last record with the id that stores a position: a later record
    with the id and without a position replaces the label and the type and
    leaves the coordinate. *)
Theorem parse_duplicate_ids (w : pyval) (v : Visualizer) (first last : pyval)
        (pre mid post : list pyval) (id id' : pyval) :
  build w = (Return tt, v) ->
  document_nodes w = pre ++ first :: mid ++ last :: post ->
  record_id first = Some id -> record_id last = Some id' ->
  key_eqb id id' = true ->
  has_position first = true ->
  (forall m i, In m (mid ++ last :: post) -> record_id m = Some i ->
               key_eqb id i = true -> has_position m = false) ->
  (forall m i, In m post -> record_id m = Some i -> key_eqb id' i = false) ->
  dict_get key_eqb id (_node (graph v)) = record_attrs last /\
  exists xy, record_xy first = Return xy /\
             dict_get key_eqb id' (pos v) = Some xy.
Proof.
  intros Hb Hn Hid Hid' Heq Hp Hnone Hlast.
  split.
  - rewrite (kget_eqv id id' _ Heq).
    assert (Hn' : document_nodes w = (pre ++ first :: mid) ++ last :: post)
      by (rewrite Hn, <- app_assoc; reflexivity).
    now apply (proj1 (parse_last_record w v _ post last id' Hb Hn' Hid')).
  - destruct (proj2 (parse_last_record w v pre _ first id Hb Hn Hid) Hp)
      as (xy & Hxy & Hget).
    + exact Hnone.
    + exists xy. split; [exact Hxy |].
      rewrite key_eqb_sym in Heq. now rewrite (kget_eqv id' id _ Heq).
Qed.

Lemma parse_duplicate_ids_witness :
  dict_get key_eqb (PStr "1") (_node (graph (snd (build doc_twice)))) =
    Some [("label", PStr "Again"); ("type", PStr "n8n-nodes-base.if");
          ("parameters", PDict [])] /\
  exists xy,
    xy = (PInt 10, PInt (-20)) /\
    dict_get key_eqb (PStr "1") (pos (snd (build doc_twice))) = Some xy.
Proof.
  destruct (parse_duplicate_ids doc_twice (snd (build doc_twice))
              (PDict [("id", PStr "1"); ("type", PStr "n8n-nodes-base.start");
                      ("position", PList [PInt 10; PInt 20])])
              (PDict [("id", PStr "1"); ("type", PStr "n8n-nodes-base.if");
                      ("name", PStr "Again")])
              [] [] [] (PStr "1") (PStr "1"))
    as (H1 & xy & H2 & H3).
  - reflexivity.
  - reflexivity.
  - reflexivity.
  - reflexivity.
  - reflexivity.
  - reflexivity.
  - simpl. intros m i [<- | []] _ _. reflexivity.
  - simpl. intros m i [].
  - split; [exact H1 |]. exists xy. split; [| exact H3].
    simpl in H2. now injection H2 as <-.
Defined.

(* ================================================================== *)
(** * Where an exception of [draw] comes from *)






Section RaiseCases.
Variable backend : Runtime -> event -> option pyexn.
Variable spring_layout : DiGraph -> posmap.
Variable sub_offset : pyval -> outcome pyval.
Variable str_other : pyval -> string.










End RaiseCases.

(* ================================================================== *)
(** * The exception of a run with a vertex without coordinate *)




(* ================================================================== *)
(** * Runs on complete documents *)





